(** * Vertical interpolation of [stratify/_vinterp.pyx]

    A shallow embedding of the interpolation kernels, of the column marcher
    [gridwise_interpolation] and of the driver [_Interpolator], together with
    the properties of the specification that were checked against them.

    Conventions of the embedding.
    - A C [double] is a primitive binary64 float ([PrimFloat.float]); every
      arithmetic operation is rounded on its own, as the C source is written.
    - An [unsigned int] is a [Z] reduced by [u32]; the reductions are written
      where the source assigns to, or computes in, an [unsigned int].
    - The module is compiled with [boundscheck(False)]: an access outside a
      buffer has no defined behaviour in the compiled code.  The embedding
      stops there with the error [OutOfBounds].
    - Cython's default division ([cdivision] off) raises [ZeroDivisionError]
      on a zero divisor; this is the error [ZeroDivision].
    - A [ValueError] is identified by the place that raises it.
    - numpy is taken as the code was written for it.  Its dtypes, its
      [issubdtype] and its cast [astype] are parameters of the driver, with
      their values on four dtypes given for the examples.  A list that holds
      a slice indexes an array as the tuple of its items does
      ([z_src[z_src_indexer]] in [__init__]); numpy 1.23 and later raise
      [IndexError] there. *)

From Stdlib Require Import ZArith Lia Floats.
From stdpp Require Import base option list.

#[local] Open Scope Z_scope.

(** ** Errors and fallible computations *)

Inductive error : Type :=
| InvalidTarget       (* 'The target coordinate may not contain NaN values.' *)
| InvalidSource       (* 'The source coordinate may not contain NaN values.' *)
| InsufficientData    (* 'Linear extrapolation requires at least 2 source points.' *)
| AxisOutOfRange      (* 'Axis {} out of range.' *)
| ShapeMismatch       (* 'Shapes not consistent.' *)
| AmbiguousDirection  (* 'The rising keyword must be defined when ...' *)
| ZeroDivision        (* ZeroDivisionError *)
| IndexOutOfRange     (* IndexError *)
| CannotReshape       (* numpy: cannot reshape array of size n into shape s *)
| BufferDimensions    (* 'Buffer has wrong number of dimensions' *)
| Overflow            (* OverflowError: value too large to convert to unsigned int *)
| OutOfBounds         (* unchecked access outside a buffer *)
| FuelExhausted.      (* the bound given to the while loop was too small *)

Inductive result (A : Type) : Type :=
| Ok (a : A)
| Err (e : error).
Arguments Ok {A} a.
Arguments Err {A} e.

#[global] Instance result_ret : MRet result := fun A a => Ok a.
#[global] Instance result_bind : MBind result := fun A B f r =>
  match r with
  | Ok a => f a
  | Err e => Err e
  end.

Definition expect {A : Type} (o : option A) : result A :=
  match o with
  | Some a => Ok a
  | None => Err OutOfBounds
  end.

(** ** Machine integers and doubles *)

Definition u32 (z : Z) : Z := z mod 2 ^ 32.

(** The conversion of a Python integer to an [unsigned int], which Cython
    checks.  (A C integer assigned to an [unsigned int] is reduced by [u32]
    without a check.) *)
Definition as_unsigned_int (z : Z) : result Z :=
  if (0 <=? z) && (z <? 2 ^ 32) then Ok z else Err Overflow.

(** [isnan] of math.h. *)
Definition isnan (x : float) : bool := PrimFloat.is_nan x.

(** [fabs] of math.h. *)
Definition fabs (x : float) : float := PrimFloat.abs x.

Definition INFINITY : float := PrimFloat.infinity.
Definition NAN : float := PrimFloat.nan.

(** Division of two C doubles under Cython's default directives. *)
Definition checked_div (a b : float) : result float :=
  if (b =? 0)%float then Err ZeroDivision else Ok (a / b)%float.

(** Conversion of an [unsigned int] to a [double]. *)
Definition double_of_uint (i : Z) : float :=
  PrimFloat.of_uint63 (Uint63.of_Z i).

(** ** Memory views *)

(** [range n], the indices a [for i in range(n)] loop visits. *)
Definition range (n : Z) : list Z := Z.of_nat <$> seq 0 (Z.to_nat n).

(** Element [i] of a one-dimensional view, if there is one. *)
Definition zth {A : Type} (l : list A) (i : Z) : option A :=
  if i <? 0 then None else l !! Z.to_nat i.

(** A two-dimensional view: [shape[0]] rows of [shape[1]] cells each. *)
Record grid (A : Type) : Type := Grid {
  grid_rows : list (list A);
  grid_width : Z
}.
Arguments Grid {A} grid_rows grid_width.
Arguments grid_rows {A} g.
Arguments grid_width {A} g.

Definition shape0 {A : Type} (g : grid A) : Z := Z.of_nat (length (grid_rows g)).
Definition shape1 {A : Type} (g : grid A) : Z := grid_width g.

Definition grid_wf {A : Type} (g : grid A) : Prop :=
  Forall (fun row => Z.of_nat (length row) = grid_width g) (grid_rows g).

Definition grid_get {A : Type} (g : grid A) (i j : Z) : option A :=
  row ← zth (grid_rows g) i; zth row j.

(** A cell of an output buffer: [None] until it is assigned, since the buffer
    comes from [np.empty]. *)
Definition cell : Type := option float.

Definition grid_set (g : grid cell) (i j : Z) (v : float) : option (grid cell) :=
  row ← zth (grid_rows g) i;
  _ ← zth row j;
  Some (Grid (<[Z.to_nat i := <[Z.to_nat j := Some v]> row]> (grid_rows g))
             (grid_width g)).

(** The view [fz_target[:, i_target]] handed to a kernel: it aliases the
    buffer it was sliced from. *)
Record column : Type := Column {
  column_of : grid cell;
  column_at : Z
}.

(** [fz_target[i] = v] through a column view. *)
Definition column_store (c : column) (i : Z) (v : float) : result column :=
  g ← expect (grid_set (column_of c) i (column_at c) v);
  Ok (Column g (column_at c)).

(** [for i in range(m): fz_target[i] = body i]. *)
Fixpoint assign_rows (rows : list Z) (body : Z -> result float) (fz_target : column)
  : result column :=
  match rows with
  | [] => Ok fz_target
  | i :: rows' =>
      v ← body i;
      fz_target' ← column_store fz_target i v;
      assign_rows rows' body fz_target'
  end.

(** ** relative_sign *)

Definition relative_sign (z z_base : float) : Z :=
  let delta := (z - z_base)%float in
  Z.b2z (0 <? delta)%float - Z.b2z (delta <? 0)%float.

(** ** The kernels *)

Definition interp_kernel : Type :=
  Z -> list float -> grid float -> float -> column -> result column.

Definition extrap_kernel : Type :=
  Z -> list float -> grid float -> float -> column -> result column.

Definition linear_interp : interp_kernel :=
  fun index z_src fz_src level fz_target =>
  let m := u32 (shape0 fz_src) in
  z_index ← expect (zth z_src index);
  if (level =? z_index)%float then
    assign_rows (range m) (fun i => expect (grid_get fz_src i index)) fz_target
  else
    z_prev ← expect (zth z_src (u32 (index - 1)));
    frac ← checked_div (level - z_prev)%float (z_index - z_prev)%float;
    assign_rows (range m)
      (fun i =>
         f_prev ← expect (grid_get fz_src i (u32 (index - 1)));
         f_index ← expect (grid_get fz_src i index);
         Ok (f_prev + frac * (f_index - f_prev))%float)
      fz_target.

Definition nearest_interp : interp_kernel :=
  fun index z_src fz_src level fz_target =>
  let m := u32 (shape0 fz_src) in
  nearest_index ←
    (if index =? 0 then Ok index
     else
       z_prev ← expect (zth z_src (u32 (index - 1)));
       z_index ← expect (zth z_src index);
       if (fabs (level - z_prev) <=? fabs (level - z_index))%float
       then Ok (u32 (index - 1))
       else Ok index);
  assign_rows (range m) (fun i => expect (grid_get fz_src i nearest_index)) fz_target.

Definition _testable_indez_interp : interp_kernel :=
  fun index z_src fz_src level fz_target =>
  let m := u32 (shape0 fz_src) in
  assign_rows (range m) (fun i => Ok (double_of_uint index)) fz_target.

Definition nearest_edge_extrap : extrap_kernel :=
  fun direction z_src fz_src level fz_target =>
  let m := u32 (shape0 fz_src) in
  let index := if direction <? 0 then 0 else u32 (shape1 fz_src - 1) in
  assign_rows (range m) (fun i => expect (grid_get fz_src i index)) fz_target.

Definition linear_extrap : extrap_kernel :=
  fun direction z_src fz_src level fz_target =>
  let m := u32 (shape0 fz_src) in
  let n_src_pts := u32 (shape1 fz_src) in
  if n_src_pts <? 2 then Err InsufficientData
  else
    let '(p0, p1) :=
      if direction <? 0 then (0, 1)
      else (u32 (n_src_pts - 2), u32 (n_src_pts - 1)) in
    z0 ← expect (zth z_src p0);
    z1 ← expect (zth z_src p1);
    frac ← checked_div (level - z0)%float (z1 - z0)%float;
    assign_rows (range m)
      (fun i =>
         f0 ← expect (grid_get fz_src i p0);
         f1 ← expect (grid_get fz_src i p1);
         Ok (f0 + frac * (f1 - f0))%float)
      fz_target.

Definition nan_data_extrap : extrap_kernel :=
  fun direction z_src fz_src level fz_target =>
  let m := u32 (shape0 fz_src) in
  assign_rows (range m) (fun i => Ok NAN) fz_target.

Definition _testable_direction_extrap : extrap_kernel :=
  fun direction z_src fz_src level fz_target =>
  let m := u32 (shape0 fz_src) in
  let value := if direction <? 0 then (- INFINITY)%float else INFINITY in
  assign_rows (range m) (fun i => Ok value) fz_target.

(** The kernels exposed to the user. *)
Definition INTERPOLATE_LINEAR : interp_kernel := linear_interp.
Definition INTERPOLATE_NEAREST : interp_kernel := nearest_interp.
Definition EXTRAPOLATE_NAN : extrap_kernel := nan_data_extrap.
Definition EXTRAPOLATE_NEAREST : extrap_kernel := nearest_edge_extrap.
Definition EXTRAPOLATE_LINEAR : extrap_kernel := linear_extrap.

(** ** The column marcher *)

(** The search window of [gridwise_interpolation]: its two edges, the index
    of the upper edge along [z_src] and the extrapolation mark ([-1] before
    the first source value, [0] inside the source, [1] past its end). *)
Record window : Type := Window {
  z_before : float;
  z_after : float;
  i_src : Z;
  extrapolating : Z
}.

(** The end of the body of the loop over the levels: the kernel has written
    its column, or has failed, and the lower edge of the window moves to the
    level just computed. *)
Definition settle (fz_target : grid cell) (z_current : float) (w : window)
    (written : result column) : grid cell * result window :=
  match written with
  | Err e => (fz_target, Err e)
  | Ok c => (column_of c, Ok (Window z_current (z_after w) (i_src w) (extrapolating w)))
  end.

Section Marcher.

Variables (z_target z_src : list float) (fz_src : grid float).
Variable increasing : bool.
Variable interpolation_kernel : interp_kernel.
Variable extrapolation_kernel : extrap_kernel.

Definition n_src : Z := u32 (Z.of_nat (length z_src)).
Definition n_target : Z := u32 (Z.of_nat (length z_target)).

Definition z_first : float := if increasing then (- INFINITY)%float else INFINITY.
Definition z_last : float := (- z_first)%float.

(** The scan for a source coordinate that has only NaN values:
    [for i in range(n_src): all_nans = isnan(z_src[i]); if not all_nans: break]. *)
Fixpoint scan_nans (ixs : list Z) (all_nans : bool) : result bool :=
  match ixs with
  | [] => Ok all_nans
  | i :: ixs' =>
      z ← expect (zth z_src i);
      if isnan z then scan_nans ixs' true else Ok false
  end.

(** [for i_target in range(n_target): fz_target[i, i_target] = NAN]. *)
Fixpoint nan_row (i : Z) (ixs : list Z) (fz_target : grid cell) : result (grid cell) :=
  match ixs with
  | [] => Ok fz_target
  | i_target :: ixs' =>
      g ← expect (grid_set fz_target i i_target NAN);
      nan_row i ixs' g
  end.

(** [for i in range(m): for i_target in range(n_target): ...]. *)
Fixpoint nan_rows (rows : list Z) (fz_target : grid cell) : result (grid cell) :=
  match rows with
  | [] => Ok fz_target
  | i :: rows' =>
      g ← nan_row i (range n_target) fz_target;
      nan_rows rows' g
  end.

(** The loop [while sign_before == sign_after], for the level [z_current].
    It yields the window and [sign_after] as they stand when the loop is
    left.  [fuel] bounds the number of times the body runs. *)
Fixpoint advance (fuel : nat) (z_current : float) (sign_before : Z)
    (w : window) (sign_after : Z) : result (window * Z) :=
  if sign_before =? sign_after then
    match fuel with
    | O => Err FuelExhausted
    | S fuel' =>
        let i := u32 (i_src w + 1) in
        if i <? n_src then
          z ← expect (zth z_src i);
          if isnan z then Err InvalidSource
          else advance fuel' z_current sign_before
                 (Window (z_before w) z i 0) (relative_sign z z_current)
        else
          Ok (Window (z_before w) z_last i 1, relative_sign z_last z_current)
    end
  else Ok (w, sign_after).

(** The body of [for i_target in range(n_target)]: one level.  The buffer
    is returned as it stands when the body is left, also on an error. *)
Definition level_step (w : window) (i_target : Z) (fz_target : grid cell)
  : grid cell * result window :=
  match zth z_target i_target with
  | None => (fz_target, Err OutOfBounds)
  | Some z_current =>
      if isnan z_current then (fz_target, Err InvalidTarget)
      else
        let sign_before := relative_sign (z_before w) z_current in
        let sign_after := relative_sign (z_after w) z_current in
        match advance (S (Z.to_nat n_src)) z_current sign_before w sign_after with
        | Err e => (fz_target, Err e)
        | Ok (w', sign_after') =>
            settle fz_target z_current w'
              (if (extrapolating w' =? 0) || (sign_after' =? 0) then
                 interpolation_kernel (i_src w') z_src fz_src z_current
                   (Column fz_target i_target)
               else
                 extrapolation_kernel (extrapolating w') z_src fz_src z_current
                   (Column fz_target i_target))
        end
  end.

Fixpoint levels (ixs : list Z) (w : window) (fz_target : grid cell)
  : grid cell * result window :=
  match ixs with
  | [] => (fz_target, Ok w)
  | i_target :: ixs' =>
      match level_step w i_target fz_target with
      | (g, Err e) => (g, Err e)
      | (g, Ok w') => levels ixs' w' g
      end
  end.

(** The window the march starts from. *)
Definition first_window (z0 : float) : window := Window z_first z0 0 (-1).

Definition gridwise_interpolation (fz_target : grid cell) : grid cell * result unit :=
  let all_nans :=
    if negb (n_target =? 0) then
      z0 ← expect (zth z_src 0);
      if isnan z0 then scan_nans (range n_src) true else Ok false
    else Ok false in
  match all_nans with
  | Err e => (fz_target, Err e)
  | Ok true =>
      let m := u32 (shape0 fz_target) in
      match nan_rows (range m) fz_target with
      | Err e => (fz_target, Err e)
      | Ok g => (g, Ok tt)
      end
  | Ok false =>
      match zth z_src 0 with
      | None => (fz_target, Err OutOfBounds)
      | Some z0 =>
          match levels (range n_target) (first_window z0) fz_target with
          | (g, Err e) => (g, Err e)
          | (g, Ok _) => (g, Ok tt)
          end
      end
  end.

End Marcher.

(** A fresh [rows] by [width] buffer, as [np.empty] gives it. *)
Definition empty_grid (rows width : nat) : grid cell :=
  Grid (replicate rows (replicate width None)) (Z.of_nat width).

(** ** The driver *)

(** A C-contiguous numpy array: its shape and its elements in row-major
    order.  [reshape] keeps the elements and changes the shape only. *)
Record ndarray (A : Type) : Type := NDArray {
  shape : list Z;
  flat : list A
}.
Arguments NDArray {A} shape flat.
Arguments shape {A} _.
Arguments flat {A} _.

Definition ndim {A : Type} (a : ndarray A) : Z := Z.of_nat (length (shape a)).

Definition product (s : list Z) : Z := foldr Z.mul 1 s.

Definition size {A : Type} (a : ndarray A) : Z := product (shape a).

Definition array_wf {A : Type} (a : ndarray A) : Prop :=
  Forall (fun d => 0 <= d) (shape a) /\ Z.of_nat (length (flat a)) = size a.

(** [t[i]] on a tuple or a list, with Python's negative indices. *)
Definition py_index {A : Type} (t : list A) (i : Z) : result A :=
  let k := if i <? 0 then i + Z.of_nat (length t) else i in
  match zth t k with
  | Some a => Ok a
  | None => Err IndexOutOfRange
  end.

(** [t[-k:]] on a tuple, for [0 <= k]. *)
Definition py_tail {A : Type} (t : list A) (k : Z) : list A :=
  if k =? 0 then t else drop (length t - Z.to_nat k) t.

(** [t[i] = v] on a list, for [0 <= i]. *)
Definition py_assign {A : Type} (t : list A) (i : Z) (v : A) : result (list A) :=
  match zth t i with
  | Some _ => Ok (<[Z.to_nat i := v]> t)
  | None => Err IndexOutOfRange
  end.

(** [list(np.cumprod(s))]. *)
Fixpoint cumprod_from (acc : Z) (s : list Z) : list Z :=
  match s with
  | [] => []
  | d :: s' => acc * d :: cumprod_from (acc * d) s'
  end.
Definition cumprod (s : list Z) : list Z := cumprod_from 1 s.

(** [a.reshape(new_shape)], where [new_shape] may hold one [-1]. *)
Definition reshape {A : Type} (a : ndarray A) (new_shape : list Z) : result (ndarray A) :=
  let known := product (filter (fun d => d <> -1) new_shape) in
  match length (filter (fun d => d = -1) new_shape) with
  | O =>
      if known =? size a then Ok (NDArray new_shape (flat a)) else Err CannotReshape
  | S O =>
      if (known =? 0) || negb (size a mod known =? 0) then Err CannotReshape
      else Ok (NDArray ((fun d => if d =? -1 then size a / known else d) <$> new_shape)
                       (flat a))
  | _ => Err CannotReshape
  end.

(** [a[index]] for a full tuple of integer indices, all [0 <= i]: numpy
    checks each against its dimension. *)
Fixpoint offset_of (dims index : list Z) (acc : Z) : result Z :=
  match dims, index with
  | [], [] => Ok acc
  | d :: dims', i :: index' =>
      if (0 <=? i) && (i <? d) then offset_of dims' index' (acc * d + i)
      else Err IndexOutOfRange
  | _, _ => Err IndexOutOfRange
  end.

Definition item {A : Type} (a : ndarray A) (index : list Z) : result A :=
  o ← offset_of (shape a) index 0;
  expect (zth (flat a) o).

Section Driver.

(** numpy's dtypes, [np.dtype('f8')] and [np.issubdtype(d, int)] are
    numpy's own: they are taken as they come. *)
Context {dtype : Type}.
Variable f8 : dtype.
Variable issubdtype_int : dtype -> bool.

(** numpy's cast of one float64 value to a dtype, [np.float64(v).astype(d)],
    is numpy's own as well.  The value after the cast is read as a double:
    a value of a narrower float dtype is a double, and so is a double cut to
    an integer. *)
Variable astype : dtype -> float -> float.

(** The attributes of an [_Interpolator]. *)
Record _Interpolator : Type := Interpolator {
  interpolation : interp_kernel;
  extrapolation : extrap_kernel;
  _target_dtype : dtype;
  rising : bool;
  z_target : ndarray float;
  orig_shape : list Z;
  axis : Z;
  _zp_reshaped : ndarray float;
  _fp_reshaped : ndarray float;
  _result_working_shape : list Z;
  result_shape : list Z
}.

(** The axis in absolute terms: [(fp_axis, zp_axis)]. *)
Definition resolve_axis (axis fz_ndim z_ndim : Z) : result (Z * Z) :=
  if fz_ndim =? 0 then Err ZeroDivision
  else
    let fp_axis := (axis + fz_ndim) mod fz_ndim in
    let zp_axis := fp_axis - (fz_ndim - z_ndim) in
    if negb ((0 <=? zp_axis) && (zp_axis <? z_ndim)) || (z_ndim <? axis)
    then Err AxisOutOfRange
    else Ok (fp_axis, zp_axis).

(** [_Interpolator.__init__].  [z_target] and [z_src] are the arguments
    as float64 arrays, [fz_src] is the data after [astype(np.float64)]
    and [fz_dtype] the dtype it had before. *)
Definition __init__ (z_target z_src : ndarray float)
    (fz_dtype : dtype) (fz_src : ndarray float) (axis : Z) (rising : option bool)
    (interpolation : interp_kernel) (extrapolation : extrap_kernel)
  : result _Interpolator :=
  let target_dtype := if issubdtype_int fz_dtype then f8 else fz_dtype in
  z_target_size ←
    (if ndim z_target =? 1 then py_index (shape z_target) 0
     else py_index (shape z_target) axis);
  '(fp_axis, zp_axis) ← resolve_axis axis (ndim fz_src) (ndim z_src);
  if negb (bool_decide (shape z_src = py_tail (shape fz_src) (ndim z_src)))
  then Err ShapeMismatch
  else
    lh_dim_size ← py_index (1 :: cumprod (shape z_src)) zp_axis;
    axis_size ← py_index (shape z_src) zp_axis;
    zp_reshaped ← reshape z_src [lh_dim_size; axis_size; -1];
    fp_reshaped ← reshape fz_src (-1 :: shape zp_reshaped);
    result_working_shape ← py_assign (shape fp_reshaped) 2 z_target_size;
    result_shape ← py_assign (shape fz_src) fp_axis z_target_size;
    rising' ←
      match rising with
      | Some b => Ok b
      | None =>
          if axis_size <? 2 then Err AmbiguousDirection
          else
            let indexer k := <[Z.to_nat zp_axis := k]> (replicate (length (shape z_src)) 0) in
            first ← item z_src (indexer 0);
            second ← item z_src (indexer 1);
            Ok (first <=? second)%float
      end;
    Ok (Interpolator interpolation extrapolation target_dtype rising' z_target
          (shape fz_src) axis zp_reshaped fp_reshaped result_working_shape
          result_shape).

(** The views [z_src[i, :, j]], [fz_src[:, i, :, j]] and
    [fz_target_view[:, i, :, j]] of the working arrays, and the cells of
    the working result that the last one aliases. *)
Definition column3 {A : Type} (cells : list A) (n nj i j : Z) : result (list A) :=
  expect (mapM (fun k => zth cells ((i * n + k) * nj + j)) (range n)).

Definition column4 {A : Type} (cells : list A) (m ni n nj i j : Z) : result (grid A) :=
  rows ← expect (mapM (fun r =>
                   mapM (fun k => zth cells (((r * ni + i) * n + k) * nj + j)) (range n))
                 (range m));
  Ok (Grid rows n).

Definition put_row (ni n nj r i j : Z) (row : list cell) (cells : list cell) : list cell :=
  foldl (fun acc kc => <[Z.to_nat (((r * ni + i) * n + kc.1) * nj + j) := kc.2]> acc)
        cells (zip (range n) row).

Definition put_column4 (ni n nj i j : Z) (g : grid cell) (cells : list cell) : list cell :=
  foldl (fun acc rrow => put_row ni n nj rrow.1 i j rrow.2 acc)
        cells (zip (range (shape0 g)) (grid_rows g)).

(** One call of [gridwise_interpolation] from the loop of [interpolate]. *)
Definition march_column (self : _Interpolator) (targets : list float)
    (m ni n_src n_target nj i j : Z) (cells : list cell) : result (list cell) :=
  z_col ← column3 (flat (_zp_reshaped self)) n_src nj i j;
  fz_col ← column4 (flat (_fp_reshaped self)) m ni n_src nj i j;
  out ← column4 cells m ni n_target nj i j;
  match gridwise_interpolation targets z_col fz_col (rising self)
          (interpolation self) (extrapolation self) out with
  | (_, Err e) => Err e
  | (out', Ok _) => Ok (put_column4 ni n_target nj i j out' cells)
  end.

Fixpoint march_i (self : _Interpolator) (targets : list float)
    (m ni n_src n_target nj j : Z) (ixs : list Z) (cells : list cell)
  : result (list cell) :=
  match ixs with
  | [] => Ok cells
  | i :: ixs' =>
      cells' ← march_column self targets m ni n_src n_target nj i j cells;
      march_i self targets m ni n_src n_target nj j ixs' cells'
  end.

Fixpoint march_j (self : _Interpolator) (targets : list float)
    (m ni n_src n_target nj : Z) (jxs : list Z) (cells : list cell)
  : result (list cell) :=
  match jxs with
  | [] => Ok cells
  | j :: jxs' =>
      cells' ← march_i self targets m ni n_src n_target nj j (range ni) cells;
      march_j self targets m ni n_src n_target nj jxs' cells'
  end.

(** What [interpolate] returns: the result array and its dtype.  The
    cells hold the values after the cast to that dtype. *)
Record interpolated : Type := Interpolated {
  result_dtype : dtype;
  result_array : ndarray cell
}.

(** The cast of a cell.  A cell that was never assigned stays as it is. *)
Definition cell_astype (d : dtype) (c : cell) : cell :=
  match c with
  | Some v => Some (astype d v)
  | None => None
  end.

(** [a.astype(d)] on a float64 array: the shape is kept and every value is
    cast. *)
Definition ndarray_astype (a : ndarray cell) (d : dtype) : ndarray cell :=
  NDArray (shape a) (cell_astype d <$> flat a).

(** [_Interpolator.interpolate]. *)
Definition _Interpolator_interpolate (self : _Interpolator) : result interpolated :=
  match _result_working_shape self, shape (_zp_reshaped self), shape (_fp_reshaped self) with
  | [m; d1; n_target; d3], [_; n_src; _], [_; _; _; _] =>
      let fz_target :=
        NDArray (_result_working_shape self)
                (replicate (Z.to_nat (product (_result_working_shape self))) (None : cell)) in
      ni ← as_unsigned_int d1;
      nj ← as_unsigned_int d3;
      if negb (ndim (z_target self) =? 1) then Err BufferDimensions
      else
        cells ← march_j self (flat (z_target self)) m ni n_src n_target nj
                  (range nj) (flat fz_target);
        out ← reshape (NDArray (shape fz_target) cells) (result_shape self);
        Ok (Interpolated (_target_dtype self)
              (ndarray_astype out (_target_dtype self)))
  | _, _, _ => Err BufferDimensions
  end.

(** [interpolate]. *)
Definition interpolate (z_target z_src : ndarray float)
    (fz_dtype : dtype) (fz_src : ndarray float) (axis : Z) (rising : option bool)
    (interpolation : interp_kernel) (extrapolation : extrap_kernel)
  : result interpolated :=
  interp ← __init__ z_target z_src fz_dtype fz_src axis rising interpolation extrapolation;
  _Interpolator_interpolate interp.

(** One call of [gridwise_interpolation] from the loop of
    [interpolate_z_target_nd]: the levels are the column [z_target[i, :, j]]
    of the reshaped target coordinate. *)
Definition march_column_nd (self : _Interpolator) (targets : list float)
    (m ni n_src n_target nj i j : Z) (cells : list cell) : result (list cell) :=
  z_tgt ← column3 targets n_target nj i j;
  march_column self z_tgt m ni n_src n_target nj i j cells.

Fixpoint march_i_nd (self : _Interpolator) (targets : list float)
    (m ni n_src n_target nj j : Z) (ixs : list Z) (cells : list cell)
  : result (list cell) :=
  match ixs with
  | [] => Ok cells
  | i :: ixs' =>
      cells' ← march_column_nd self targets m ni n_src n_target nj i j cells;
      march_i_nd self targets m ni n_src n_target nj j ixs' cells'
  end.

Fixpoint march_j_nd (self : _Interpolator) (targets : list float)
    (m ni n_src n_target nj : Z) (jxs : list Z) (cells : list cell)
  : result (list cell) :=
  match jxs with
  | [] => Ok cells
  | j :: jxs' =>
      cells' ← march_i_nd self targets m ni n_src n_target nj j (range ni) cells;
      march_j_nd self targets m ni n_src n_target nj jxs' cells'
  end.

(** [_Interpolator.interpolate_z_target_nd]. *)
Definition interpolate_z_target_nd (self : _Interpolator) : result interpolated :=
  match _result_working_shape self, shape (_zp_reshaped self), shape (_fp_reshaped self) with
  | [m; d1; n_target; d3], [_; n_src; _], [_; _; _; _] =>
      let fz_target :=
        NDArray (_result_working_shape self)
                (replicate (Z.to_nat (product (_result_working_shape self))) (None : cell)) in
      ni ← as_unsigned_int d1;
      nj ← as_unsigned_int d3;
      z_target_reshaped ← reshape (z_target self) (drop 1 (_result_working_shape self));
      cells ← march_j_nd self (flat z_target_reshaped) m ni n_src n_target nj
                (range nj) (flat fz_target);
      out ← reshape (NDArray (shape fz_target) cells) (result_shape self);
      Ok (Interpolated (_target_dtype self)
            (ndarray_astype out (_target_dtype self)))
  | _, _, _ => Err BufferDimensions
  end.

End Driver.

(** ** Notions used to state the properties *)

(** The column [k] of a source grid: [fz_src[:, k]]. *)
Definition source_column (fz_src : grid float) (k : Z) : option (list float) :=
  mapM (fun row => zth row k) (grid_rows fz_src).

(** [vals] written down column [t] of the rows, from the first row on. *)
Fixpoint paste (t : nat) (vals : list float) (rows : list (list cell)) : list (list cell) :=
  match vals, rows with
  | v :: vals', row :: rows' => <[t := Some v]> row :: paste t vals' rows'
  | _, _ => rows
  end.

Definition with_column (g : grid cell) (t : Z) (vals : list float) : grid cell :=
  Grid (paste (Z.to_nat t) vals (grid_rows g)) (grid_width g).

(** The buffer has a column [t] that is at least [m] rows long. *)
Definition holds_column (g : grid cell) (t m : Z) : Prop :=
  grid_wf g /\ 0 <= t < grid_width g /\ m <= shape0 g.

(** The windows the march of a column passes through, at the head of the
    loop over the levels: the first window, and every window a level leaves
    behind. *)
Inductive marching (z_target z_src : list float) (fz_src : grid float)
    (increasing : bool) (ik : interp_kernel) (ek : extrap_kernel) : window -> Prop :=
| marching_first (z0 : float) :
    zth z_src 0 = Some z0 ->
    marching z_target z_src fz_src increasing ik ek (first_window increasing z0)
| marching_step (w w' : window) (i_target : Z) (g g' : grid cell) :
    marching z_target z_src fz_src increasing ik ek w ->
    level_step z_target z_src fz_src increasing ik ek w i_target g = (g', Ok w') ->
    marching z_target z_src fz_src increasing ik ek w'.

(** What the extrapolation mark of a window stands for. *)
Definition window_ok (z_src : list float) (increasing : bool) (w : window) : Prop :=
  (extrapolating w = -1 /\ i_src w = 0 /\ zth z_src 0 = Some (z_after w)) \/
  (extrapolating w = 0 /\ 0 <= i_src w < n_src z_src /\
   zth z_src (i_src w) = Some (z_after w)) \/
  (extrapolating w = 1 /\ n_src z_src <= i_src w < 2 ^ 32 /\
   z_after w = z_last increasing).

(** Some level separates the two source values of the bracket
    [(i_src - 1, i_src)] of a window whose index is inside the source. *)
Definition bracketed (z_src : list float) (w : window) : Prop :=
  1 <= i_src w < n_src z_src ->
  exists zp zk t0,
    zth z_src (i_src w - 1) = Some zp /\ zth z_src (i_src w) = Some zk /\
    relative_sign zp t0 <> relative_sign zk t0.

(** The source values strictly between the indices [i] and [k] are not NaN
    and all lie on the side [sign] of the level [z_current]. *)
Definition same_side (z_src : list float) (z_current : float) (sign : Z) (i k : Z) : Prop :=
  forall j, i < j < k ->
    exists z, zth z_src j = Some z /\ isnan z = false /\ relative_sign z z_current = sign.

(** Four of numpy's dtypes, to run the driver on examples, with numpy's
    answers on them.  [np.issubdtype(d, int)] compares the dtype with the
    dtype of Python's [int], which is int64 where a C long has 64 bits: it
    holds for int64 and not for int32. *)
Inductive numpy_dtype : Type := int32 | int64 | float32 | float64.

Definition numpy_issubdtype_int (d : numpy_dtype) : bool :=
  match d with
  | int64 => true
  | int32 | float32 | float64 => false
  end.


(** The double that is the integer [z], for an integer that is one. *)
Definition double_of_Z (z : Z) : float :=
  SF2Prim (binary_normalize prec emax z 0 false).

(** The cast of a double to a float32, the C conversion [(float)x]: the
    value is rounded to 24 bits, to nearest and to even on a tie, and to an
    infinity beyond the range of float32. *)
Definition to_float32 (x : float) : float :=
  match Prim2SF x with
  | S754_finite s m e =>
      match binary_normalize 24 128 (cond_Zopp s (Zpos m)) e s with
      | S754_finite s' m' e' =>
          SF2Prim (binary_normalize prec emax (cond_Zopp s' (Zpos m')) e' s')
      | y => SF2Prim y
      end
  | _ => x
  end.

(** The cast of a double to a signed integer of [bits] bits, the C
    conversion [(intN_t)x]: the fraction is dropped.  For a NaN, an infinity
    and a value outside the range the conversion is undefined in C; the
    least integer, which numpy gives on x86-64, is written here. *)
Definition to_signed (bits : Z) (x : float) : float :=
  let least := - 2 ^ (bits - 1) in
  match Prim2SF x with
  | S754_zero _ => double_of_Z 0
  | S754_finite s m e =>
      let z := cond_Zopp s (Z.shiftl (Zpos m) e) in
      if (least <=? z) && (z <? 2 ^ (bits - 1)) then double_of_Z z
      else double_of_Z least
  | _ => double_of_Z least
  end.

(** [np.float64(v).astype(d)] on these dtypes. *)
Definition numpy_astype (d : numpy_dtype) (v : float) : float :=
  match d with
  | int32 => to_signed 32 v
  | int64 => to_signed 64 v
  | float32 => to_float32 v
  | float64 => v
  end.

(** The kernels that the [InterpKernel] and the [ExtrapKernel] classes of
    the module carry. *)
Definition interp_kernels : list interp_kernel :=
  [linear_interp; nearest_interp; _testable_indez_interp].

Definition extrap_kernels : list extrap_kernel :=
  [nan_data_extrap; nearest_edge_extrap; linear_extrap; _testable_direction_extrap].

(** Every cell of the buffer has been assigned. *)
Definition assigned (g : grid cell) : Prop := Forall (Forall is_Some) (grid_rows g).

(** A kernel that, whenever it returns normally, has written one value in
    each row of its column of the buffer and has left the other columns as
    they were. *)
Definition writes_column
    (k : Z -> list float -> grid float -> float -> column -> result column) : Prop :=
  forall (index : Z) (z_src : list float) (fz_src : grid float) (level : float)
         (g : grid cell) (t : Z) (c : column),
    shape0 fz_src < 2 ^ 32 ->
    holds_column g t (shape0 fz_src) ->
    k index z_src fz_src level (Column g t) = Ok c ->
    exists vals : list float,
      length vals = length (grid_rows fz_src) /\ c = Column (with_column g t vals) t.

(** What the march keeps true of its window when the leading source value
    is not NaN: the mark of the window means what it stands for, the bracket
    of a window inside the source is separated by some level and starts at
    an index of the source, and the upper edge of the first window is not
    NaN. *)
Definition window_safe (z_src : list float) (increasing : bool) (w : window) : Prop :=
  window_ok z_src increasing w /\ bracketed z_src w /\
  (extrapolating w = 0 -> 1 <= i_src w) /\
  (extrapolating w = -1 -> isnan (z_after w) = false).

(** A grid with [f] applied to every cell. *)
Definition grid_map {A B : Type} (f : A -> B) (g : grid A) : grid B :=
  Grid (fmap (M := list) (fmap (M := list) f) (grid_rows g)) (grid_width g).

(** Column [(i, j)] of the working result [cells] holds what the march of
    the column [(i, j)] of the source gives on a fresh buffer. *)
Definition column_marched {dtype : Type} (self : @_Interpolator dtype)
    (targets : list float) (m ni n_src n_target nj : Z) (cells : list cell)
    (i j : Z) : Prop :=
  exists (z_col : list float) (fz_col : grid float) (out : grid cell),
    column3 (flat (_zp_reshaped self)) n_src nj i j = Ok z_col /\
    column4 (flat (_fp_reshaped self)) m ni n_src nj i j = Ok fz_col /\
    gridwise_interpolation targets z_col fz_col (rising self)
      (interpolation self) (extrapolation self)
      (empty_grid (Z.to_nat m) (Z.to_nat n_target)) = (out, Ok tt) /\
    column4 cells m ni n_target nj i j = Ok out.

(** The working result after the columns before the place [count] of the
    loops of [interpolate] (the place of the column [(i, j)] is
    [j * ni + i]) have been marched: these columns hold their march and the
    others are as [np.empty] gave them. *)
Definition marched_upto {dtype : Type} (self : @_Interpolator dtype)
    (targets : list float) (m ni n_src n_target nj : Z) (cells : list cell)
    (count : Z) : Prop :=
  Z.of_nat (length cells) = m * (ni * n_target * nj) /\
  forall i j : Z, 0 <= i < ni -> 0 <= j < nj ->
    (j * ni + i < count ->
     column_marched self targets m ni n_src n_target nj cells i j) /\
    (count <= j * ni + i ->
     column4 cells m ni n_target nj i j
     = Ok (empty_grid (Z.to_nat m) (Z.to_nat n_target))).

(** The same for [interpolate_z_target_nd], where the levels of the column
    [(i, j)] are the column [(i, j)] of the target coordinate, taken as
    [ni] by [n_target] by [nj] values. *)
Definition column_marched_nd {dtype : Type} (self : @_Interpolator dtype)
    (targets : list float) (m ni n_src n_target nj : Z) (cells : list cell)
    (i j : Z) : Prop :=
  exists (z_lev z_col : list float) (fz_col : grid float) (out : grid cell),
    column3 targets n_target nj i j = Ok z_lev /\
    column3 (flat (_zp_reshaped self)) n_src nj i j = Ok z_col /\
    column4 (flat (_fp_reshaped self)) m ni n_src nj i j = Ok fz_col /\
    gridwise_interpolation z_lev z_col fz_col (rising self)
      (interpolation self) (extrapolation self)
      (empty_grid (Z.to_nat m) (Z.to_nat n_target)) = (out, Ok tt) /\
    column4 cells m ni n_target nj i j = Ok out.

Definition marched_upto_nd {dtype : Type} (self : @_Interpolator dtype)
    (targets : list float) (m ni n_src n_target nj : Z) (cells : list cell)
    (count : Z) : Prop :=
  Z.of_nat (length cells) = m * (ni * n_target * nj) /\
  forall i j : Z, 0 <= i < ni -> 0 <= j < nj ->
    (j * ni + i < count ->
     column_marched_nd self targets m ni n_src n_target nj cells i j) /\
    (count <= j * ni + i ->
     column4 cells m ni n_target nj i j
     = Ok (empty_grid (Z.to_nat m) (Z.to_nat n_target))).

(** The place of a double in the order of the doubles: an integer that
    grows with the value.  It is the value counted in units of the least
    positive double, [2 ^ -1074], and [2 ^ 2098], which is beyond the largest
    double, for an infinity.  NaN has no place in the order; it is given
    [0]. *)
Definition float_key (x : float) : Z :=
  match Prim2SF x with
  | S754_zero _ => 0
  | S754_infinity s => cond_Zopp s (2 ^ 2098)
  | S754_nan => 0
  | S754_finite s m e => cond_Zopp s (Zpos m * 2 ^ (e + 1074))
  end.

(** [a] comes before [b] in the direction of the march. *)
Definition before (increasing : bool) (a b : float) : bool :=
  if increasing then (a <? b)%float else (b <? a)%float.

(** A sequence of values that goes strictly forwards in the direction of
    the march: strictly rising for a rising march, strictly falling for a
    falling one. *)
Definition forwards (increasing : bool) (l : list float) : Prop :=
  forall (i j : nat) (a b : float),
    (i < j)%nat -> l !! i = Some a -> l !! j = Some b -> before increasing a b = true.

(** The number of source values that come before a level. *)
Definition rank (increasing : bool) (z_src : list float) (t : float) : Z :=
  Z.of_nat (length (filter (fun z => before increasing z t = true) z_src)).

(** The kernel call that the place of a level in a source that goes
    forwards asks for: the interpolation kernel at the index of the first
    source value that does not come before the level, when there is such a
    value and it is not the first one, or when the level is exactly on the
    first one; the extrapolation kernel otherwise, at the bottom edge for a
    level before the first source value and at the top edge for a level after
    the last one. *)
Definition bracket_dispatch (z_src : list float) (fz_src : grid float)
    (increasing : bool) (ik : interp_kernel) (ek : extrap_kernel)
    (t : float) (c : column) : result column :=
  let r := rank increasing z_src t in
  if r =? 0 then
    match z_src with
    | z0 :: _ =>
        if (t =? z0)%float then ik 0 z_src fz_src t c else ek (-1) z_src fz_src t c
    | [] => Err OutOfBounds
    end
  else if r <? Z.of_nat (length z_src) then ik r z_src fz_src t c
  else ek 1 z_src fz_src t c.

(** What the march keeps true of its window when the source and the
    levels go forwards: the lower edge is not NaN, the source values below the
    index of the window come before the lower edge, and the mark of the window
    means what it stands for. *)
Definition window_follows (z_src : list float) (increasing : bool) (w : window) : Prop :=
  isnan (z_before w) = false /\
  (forall (j : Z) (zj : float),
     0 <= j < i_src w -> zth z_src j = Some zj ->
     before increasing zj (z_before w) = true) /\
  window_ok z_src increasing w /\
  (extrapolating w = 0 -> 1 <= i_src w).

(** The sign, relative to a level, of a value that comes before the level
    in the direction of the march. *)
Definition side_before (increasing : bool) : Z := if increasing then -1 else 1.

(** The march of a column written level by level from the place of each
    level in the source: every level, in turn, gets the kernel call of
    [bracket_dispatch] on its column of the buffer, and the first error
    ends the march.  There is no window: a level is placed in the whole
    source, whatever the levels before it were. *)
Fixpoint bracket_levels (z_src : list float) (fz_src : grid float) (increasing : bool)
    (ik : interp_kernel) (ek : extrap_kernel) (targets : list (Z * float))
    (fz_target : grid cell) : grid cell * result unit :=
  match targets with
  | [] => (fz_target, Ok tt)
  | (i_target, t) :: rest =>
      match bracket_dispatch z_src fz_src increasing ik ek t
              (Column fz_target i_target) with
      | Ok c => bracket_levels z_src fz_src increasing ik ek rest (column_of c)
      | Err e => (fz_target, Err e)
      end
  end.

Definition bracket_march (z_target z_src : list float) (fz_src : grid float)
    (increasing : bool) (ik : interp_kernel) (ek : extrap_kernel)
    (fz_target : grid cell) : grid cell * result unit :=
  bracket_levels z_src fz_src increasing ik ek
    (zip (range (Z.of_nat (length z_target))) z_target) fz_target.

(** * Properties *)

(** ** Lists, views and buffers *)

Lemma u32_small (z : Z) : 0 <= z < 2 ^ 32 -> u32 z = z.
Proof. intros H. unfold u32. apply Z.mod_small. exact H. Qed.

Lemma u32_range (z : Z) : 0 <= u32 z < 2 ^ 32.
Proof. unfold u32. apply Z.mod_pos_bound. lia. Qed.

Lemma zth_nat {A : Type} (l : list A) (i : nat) : zth l (Z.of_nat i) = l !! i.
Proof.
  unfold zth. destruct (Z.ltb_spec (Z.of_nat i) 0); [lia|].
  now rewrite Nat2Z.id.
Qed.

Lemma zth_Some {A : Type} (l : list A) (i : Z) (a : A) :
  zth l i = Some a -> 0 <= i < Z.of_nat (length l) /\ l !! Z.to_nat i = Some a.
Proof.
  unfold zth. destruct (Z.ltb_spec i 0) as [Hi|Hi]; [discriminate|].
  intros Hl. split; [|exact Hl].
  apply lookup_lt_Some in Hl. lia.
Qed.

Lemma zth_lookup {A : Type} (l : list A) (i : Z) :
  0 <= i -> zth l i = l !! Z.to_nat i.
Proof. intros H. unfold zth. destruct (Z.ltb_spec i 0); [lia|reflexivity]. Qed.

Lemma range_length (n : Z) : length (range n) = Z.to_nat n.
Proof. unfold range. now rewrite length_fmap, length_seq. Qed.

Lemma assign_rows_from (body : Z -> result float) (t : Z) (w : Z) :
  0 <= t ->
  forall (vals : list float) (k : nat) (rows : list (list cell)),
    (forall i v, vals !! i = Some v -> body (Z.of_nat (k + i)) = Ok v) ->
    (forall i, (i < length vals)%nat ->
               exists row, rows !! (k + i)%nat = Some row /\ (Z.to_nat t < length row)%nat) ->
    assign_rows (Z.of_nat <$> seq k (length vals)) body (Column (Grid rows w) t)
    = Ok (Column (Grid (take k rows ++ paste (Z.to_nat t) vals (drop k rows)) w) t).
Proof.
  intros Ht vals. induction vals as [|v vals IH]; intros k rows Hbody Hrows.
  - cbn. now rewrite take_drop.
  - cbn [length seq fmap list_fmap assign_rows].
    specialize (Hbody 0%nat v eq_refl) as Hb. rewrite Nat.add_0_r in Hb.
    rewrite Hb. cbn [mbind result_bind].
    destruct (Hrows 0%nat) as (row & Hrow & Hlen); [cbn; lia|].
    rewrite Nat.add_0_r in Hrow.
    unfold column_store, grid_set. cbn [column_of column_at grid_rows grid_width].
    rewrite zth_nat, Hrow. cbn [mbind option_bind].
    rewrite zth_lookup by lia.
    destruct (lookup_lt_is_Some_2 row (Z.to_nat t) Hlen) as [c Hc].
    rewrite Hc. cbn [mbind option_bind expect result_bind].
    rewrite Nat2Z.id.
    rewrite (IH (S k)).
    + f_equal. f_equal. f_equal.
      rewrite (drop_S rows row k Hrow). cbn [paste].
      erewrite take_S_r by (apply list_lookup_insert_eq; eapply lookup_lt_Some; eauto).
      rewrite take_insert_ge by lia.
      rewrite drop_insert_lt by lia.
      now rewrite <- app_assoc.
    + intros i v' Hv'. replace (S k + i)%nat with (k + S i)%nat by lia.
      now apply Hbody.
    + intros i Hi. destruct (Hrows (S i)) as (row' & Hrow' & Hlen'); [cbn; lia|].
      exists row'. split; [|exact Hlen'].
      rewrite list_lookup_insert_ne by lia.
      now replace (S k + i)%nat with (k + S i)%nat by lia.
Qed.

Lemma assign_rows_column (body : Z -> result float) (g : grid cell) (t m : Z)
    (vals : list float) :
  holds_column g t m ->
  length vals = Z.to_nat m ->
  (forall i v, vals !! i = Some v -> body (Z.of_nat i) = Ok v) ->
  assign_rows (range m) body (Column g t) = Ok (Column (with_column g t vals) t).
Proof.
  intros (Hwf & Ht & Hm) Hlen Hbody. destruct g as [rows w].
  unfold range, with_column, shape0 in *. cbn [grid_rows grid_width] in *.
  rewrite <- Hlen.
  rewrite (assign_rows_from body t w) with (vals := vals) (k := 0%nat) (rows := rows).
  - now rewrite take_0, drop_0.
  - lia.
  - exact Hbody.
  - intros i Hi. cbn.
    destruct (lookup_lt_is_Some_2 rows i) as [row Hrow]; [lia|].
    exists row. split; [exact Hrow|].
    unfold grid_wf in Hwf. cbn in Hwf.
    rewrite Forall_lookup in Hwf. specialize (Hwf i row Hrow). lia.
Qed.

Lemma source_column_lookup (fz_src : grid float) (k : Z) (vals : list float) :
  source_column fz_src k = Some vals ->
  length vals = length (grid_rows fz_src) /\
  forall i v, vals !! i = Some v -> grid_get fz_src (Z.of_nat i) k = Some v.
Proof.
  unfold source_column. intros H. apply mapM_Some in H. split.
  - symmetry. eapply Forall2_length, H.
  - intros i v Hv. destruct (Forall2_lookup_r _ _ _ _ _ H Hv) as (row & Hrow & Hk).
    unfold grid_get. rewrite zth_nat, Hrow. exact Hk.
Qed.

(** Copying [fz_src[:, k]] into the column, as the kernels do. *)
Lemma copy_column (fz_src : grid float) (k : Z) (g : grid cell) (t : Z)
    (vals : list float) :
  shape0 fz_src < 2 ^ 32 ->
  source_column fz_src k = Some vals ->
  holds_column g t (shape0 fz_src) ->
  assign_rows (range (u32 (shape0 fz_src)))
    (fun i => expect (grid_get fz_src i k)) (Column g t)
  = Ok (Column (with_column g t vals) t).
Proof.
  intros Hm Hcol Hg. destruct (source_column_lookup _ _ _ Hcol) as [Hlen Hget].
  rewrite u32_small by (unfold shape0 in *; lia).
  apply assign_rows_column; [exact Hg| |].
  - unfold shape0. now rewrite Nat2Z.id.
  - intros i v Hv. now rewrite (Hget i v Hv).
Qed.

(** ** Comparisons of doubles *)

Lemma eqb_leb (a b : float) : (a =? b)%float = true -> (a <=? b)%float = true.
Proof.
  rewrite FloatAxioms.eqb_spec, FloatAxioms.leb_spec. unfold SFeqb, SFleb.
  now destruct (SFcompare (Prim2SF a) (Prim2SF b)) as [[]|].
Qed.

(** ** Nearest-neighbour ties *)

(** C1, as the specification states it, fails: with [z_src = [0, 2]],
    [fz_src = [[10, 20]]] and the level [1], which is as far from [0] as
    from [2], the kernel called with the index [1] copies [fz_src[:, 0]]. *)
Lemma nearest_tie_takes_lower_index :
  (fabs (1 - 0) =? fabs (1 - 2))%float = true /\
  nearest_interp 1 [0%float; 2%float] (Grid [[10%float; 20%float]] 2) 1%float
    (Column (Grid [[None]] 1) 0)
  = Ok (Column (Grid [[Some 10%float]] 1) 0) /\
  source_column (Grid [[10%float; 20%float]] 2) 1 = Some [20%float].
Proof. vm_compute. auto. Qed.

(** C1, amended: called with an index [1 <= index], on a level that is as
    far from [z_src[index - 1]] as from [z_src[index]], nearest-neighbour
    interpolation resolves the tie to [index - 1]: every data row of the
    output copies [fz_src[:, index - 1]]. *)
Theorem nearest_interp_tie (index : Z) (z_src : list float) (fz_src : grid float)
    (level z_prev z_index : float) (g : grid cell) (t : Z) (vals : list float) :
  1 <= index < 2 ^ 32 ->
  zth z_src (index - 1) = Some z_prev ->
  zth z_src index = Some z_index ->
  (fabs (level - z_prev) =? fabs (level - z_index))%float = true ->
  shape0 fz_src < 2 ^ 32 ->
  source_column fz_src (index - 1) = Some vals ->
  holds_column g t (shape0 fz_src) ->
  nearest_interp index z_src fz_src level (Column g t)
  = Ok (Column (with_column g t vals) t).
Proof.
  intros Hi Hprev Hindex Htie Hm Hcol Hg. unfold nearest_interp.
  destruct (Z.eqb_spec index 0) as [->|_]; [lia|].
  rewrite (u32_small (index - 1)) by lia.
  rewrite Hprev, Hindex. cbn [expect mbind result_bind].
  rewrite (eqb_leb _ _ Htie). cbn [mbind result_bind].
  now apply copy_column.
Qed.

Lemma nearest_interp_tie_witness :
  nearest_interp 1 [0%float; 2%float] (Grid [[10%float; 20%float]] 2) 1%float
    (Column (Grid [[None]] 1) 0)
  = Ok (Column (with_column (Grid [[None]] 1) 0 [10%float]) 0).
Proof.
  apply (nearest_interp_tie 1 [0%float; 2%float] (Grid [[10%float; 20%float]] 2)
           1%float 0%float 2%float (Grid [[None]] 1) 0 [10%float]).
  - lia.
  - reflexivity.
  - reflexivity.
  - reflexivity.
  - reflexivity.
  - reflexivity.
  - unfold holds_column, grid_wf, shape0. cbn.
    split; [repeat constructor|lia].
Defined.

(** ** The order of the target levels *)

(** C3: with [z_src = [2, 4, 6]], [fz_src = [[2, 4, 6]]], a rising
    coordinate and linear interpolation, the levels [[3, 5]] give [[3, 5]]
    (under NaN and under linear extrapolation), and the levels [[5, 3]] give
    [[5, NaN]] under NaN extrapolation: once the level 5 is computed the
    window is [5, 6] at the last source index, the level 3 is on the same
    side of both edges, the march runs off the end of the source and the
    extrapolation kernel is called with direction 1.  The driver gives the
    same values on the arrays of shape (3,) and (1, 3). *)
Theorem target_order_scenario :
  gridwise_interpolation [3%float; 5%float] [2%float; 4%float; 6%float]
    (Grid [[2%float; 4%float; 6%float]] 3) true linear_interp nan_data_extrap
    (empty_grid 1 2)
  = (Grid [[Some 3%float; Some 5%float]] 2, Ok tt) /\
  gridwise_interpolation [3%float; 5%float] [2%float; 4%float; 6%float]
    (Grid [[2%float; 4%float; 6%float]] 3) true linear_interp linear_extrap
    (empty_grid 1 2)
  = (Grid [[Some 3%float; Some 5%float]] 2, Ok tt) /\
  gridwise_interpolation [5%float; 3%float] [2%float; 4%float; 6%float]
    (Grid [[2%float; 4%float; 6%float]] 3) true linear_interp nan_data_extrap
    (empty_grid 1 2)
  = (Grid [[Some 5%float; Some NAN]] 2, Ok tt) /\
  levels [5%float; 3%float] [2%float; 4%float; 6%float]
    (Grid [[2%float; 4%float; 6%float]] 3) true linear_interp nan_data_extrap
    [0] (first_window true 2%float) (empty_grid 1 2)
  = (Grid [[Some 5%float; None]] 2, Ok (Window 5%float 6%float 2 0)) /\
  relative_sign 5%float 3%float = 1 /\
  relative_sign 6%float 3%float = 1 /\
  advance [2%float; 4%float; 6%float] true 4 3%float 1
    (Window 5%float 6%float 2 0) 1
  = Ok (Window 5%float INFINITY 3 1, 1) /\
  interpolate float64 numpy_issubdtype_int numpy_astype
    (NDArray [2] [3%float; 5%float]) (NDArray [3] [2%float; 4%float; 6%float])
    float64 (NDArray [1; 3] [2%float; 4%float; 6%float]) (-1) (Some true)
    linear_interp nan_data_extrap
  = Ok (Interpolated float64 (NDArray [1; 2] [Some 3%float; Some 5%float])) /\
  interpolate float64 numpy_issubdtype_int numpy_astype
    (NDArray [2] [5%float; 3%float]) (NDArray [3] [2%float; 4%float; 6%float])
    float64 (NDArray [1; 3] [2%float; 4%float; 6%float]) (-1) (Some true)
    linear_interp nan_data_extrap
  = Ok (Interpolated float64 (NDArray [1; 2] [Some 5%float; Some NAN])).
Proof. vm_compute. repeat split. Qed.

(** ** The interpolation axis *)










(** ** Source columns that hold only NaN *)

Lemma scan_nans_all (z_src : list float) (ixs : list Z) :
  Forall (fun i => exists z, zth z_src i = Some z /\ isnan z = true) ixs ->
  scan_nans z_src ixs true = Ok true.
Proof.
  induction 1 as [|i ixs (z & Hz & Hnan) _ IH]; cbn; [reflexivity|].
  rewrite Hz. cbn. now rewrite Hnan.
Qed.

Lemma range_lookup (n : Z) (i : Z) : i ∈ range n -> 0 <= i < n.
Proof.
  unfold range. intros H. apply list_elem_of_fmap in H as (k & -> & Hk).
  apply elem_of_seq in Hk. lia.
Qed.

Lemma nan_row_from (i : nat) (w : Z) :
  forall (n k : nat) (row : list cell) (rows : list (list cell)),
    rows !! i = Some row ->
    (k + n <= length row)%nat ->
    nan_row (Z.of_nat i) (Z.of_nat <$> seq k n) (Grid rows w)
    = Ok (Grid (<[i := take k row ++ replicate n (Some NAN) ++ drop (k + n) row]> rows) w).
Proof.
  induction n as [|n IH]; intros k row rows Hrow Hlen.
  - cbn. rewrite Nat.add_0_r, take_drop. now rewrite list_insert_id.
  - cbn [seq fmap list_fmap nan_row].
    unfold grid_set. cbn [grid_rows grid_width].
    rewrite zth_nat, Hrow. cbn [mbind option_bind].
    destruct (lookup_lt_is_Some_2 row k) as [c Hc]; [lia|].
    rewrite zth_nat, Hc. cbn [mbind option_bind result_bind expect].
    rewrite !Nat2Z.id.
    rewrite (IH (S k) (<[k := Some NAN]> row)).
    + rewrite list_insert_insert_eq. f_equal. f_equal. f_equal.
      erewrite take_S_r by (apply list_lookup_insert_eq; lia).
      rewrite take_insert_ge by lia.
      rewrite drop_insert_lt by lia.
      cbn [replicate]. rewrite <- app_assoc. cbn.
      now replace (k + S n)%nat with (S (k + n)) by lia.
    + apply list_lookup_insert_eq. eapply lookup_lt_Some, Hrow.
    + rewrite length_insert. lia.
Qed.

Lemma nan_rows_from (z_target : list float) (w : Z) :
  Z.of_nat (length z_target) < 2 ^ 32 ->
  forall (cnt k : nat) (rows : list (list cell)),
    (k + cnt <= length rows)%nat ->
    Forall (fun row => length row = length z_target) rows ->
    nan_rows z_target (Z.of_nat <$> seq k cnt) (Grid rows w)
    = Ok (Grid (take k rows ++ replicate cnt (replicate (length z_target) (Some NAN))
                  ++ drop (k + cnt) rows) w).
Proof.
  intros Hsmall. induction cnt as [|cnt IH]; intros k rows Hlen Hwf.
  - cbn. now rewrite Nat.add_0_r, take_drop.
  - cbn [seq fmap list_fmap nan_rows].
    destruct (lookup_lt_is_Some_2 rows k) as [row Hrow]; [lia|].
    assert (length row = length z_target) as Hrowlen
      by (rewrite Forall_lookup in Hwf; eauto).
    unfold range, n_target. rewrite u32_small by lia. rewrite Nat2Z.id.
    rewrite (nan_row_from k w (length z_target) 0 row rows Hrow) by lia.
    cbn [mbind result_bind take app].
    rewrite Nat.add_0_l, <- Hrowlen, drop_all, app_nil_r, Hrowlen.
    rewrite IH.
    + f_equal. f_equal.
      erewrite take_S_r by (apply list_lookup_insert_eq; eapply lookup_lt_Some, Hrow).
      rewrite take_insert_ge by lia.
      rewrite drop_insert_lt by lia.
      cbn [replicate]. rewrite <- app_assoc. cbn.
      now replace (k + S cnt)%nat with (S k + cnt)%nat by lia.
    + rewrite length_insert. lia.
    + apply Forall_insert; [exact Hwf|]. apply length_replicate.
Qed.

(** C6: a source coordinate column whose values are all NaN, marched for a
    non-empty sequence of targets, fills every slot of the output (all rows,
    all targets) with NaN and returns without error, whatever the data, the
    direction and the kernels are.  The counters of the source are
    [unsigned int]: the lengths are below [2 ^ 32]. *)
Theorem all_nan_column (z_target z_src : list float) (fz_src : grid float)
    (increasing : bool) (ik : interp_kernel) (ek : extrap_kernel) (g : grid cell) :
  z_src <> [] ->
  Forall (fun z => isnan z = true) z_src ->
  z_target <> [] ->
  Z.of_nat (length z_src) < 2 ^ 32 ->
  Z.of_nat (length z_target) < 2 ^ 32 ->
  shape0 g < 2 ^ 32 ->
  grid_wf g ->
  grid_width g = Z.of_nat (length z_target) ->
  gridwise_interpolation z_target z_src fz_src increasing ik ek g
  = (Grid (replicate (length (grid_rows g))
             (replicate (length z_target) (Some NAN))) (grid_width g), Ok tt).
Proof.
  intros Hsrc Hnan Htgt Hns Hnt Hm Hwf Hw.
  unfold gridwise_interpolation, n_target, n_src.
  rewrite !u32_small by lia.
  destruct (Z.eqb_spec (Z.of_nat (length z_target)) 0) as [E|_].
  { destruct z_target; [contradiction|discriminate]. }
  cbn [negb].
  destruct z_src as [|z0 zs] eqn:Ez; [contradiction|]. rewrite <- Ez in *.
  assert (zth z_src 0 = Some z0) as Hz0 by (now rewrite Ez).
  rewrite Hz0. cbn [expect mbind result_bind].
  assert (isnan z0 = true) as ->.
  { rewrite Ez in Hnan. now inversion Hnan. }
  rewrite scan_nans_all.
  - destruct g as [rows w]. unfold shape0 in *. cbn [grid_rows grid_width] in *.
    rewrite u32_small by lia. unfold range. rewrite Nat2Z.id.
    rewrite (nan_rows_from z_target w Hnt (length rows) 0 rows).
    + cbn [take app]. now rewrite Nat.add_0_l, drop_all, app_nil_r.
    + lia.
    + unfold grid_wf in Hwf. cbn in Hwf.
      eapply Forall_impl; [exact Hwf|]. cbn. intros row Hrow. lia.
  - apply Forall_forall. intros i Hi. apply range_lookup in Hi.
    rewrite zth_lookup by lia.
    destruct (lookup_lt_is_Some_2 z_src (Z.to_nat i)) as [z Hz]; [lia|].
    exists z. split; [exact Hz|].
    rewrite Forall_lookup in Hnan. eapply Hnan, Hz.
Qed.

Lemma all_nan_column_witness :
  gridwise_interpolation [1%float; 2%float] [NAN; NAN]
    (Grid [[7%float; 8%float]] 2) true linear_interp linear_extrap
    (Grid [[None; None]] 2)
  = (Grid [[Some NAN; Some NAN]] 2, Ok tt).
Proof.
  apply (all_nan_column [1%float; 2%float] [NAN; NAN]
           (Grid [[7%float; 8%float]] 2) true linear_interp linear_extrap
           (Grid [[None; None]] 2)).
  - discriminate.
  - repeat constructor.
  - discriminate.
  - reflexivity.
  - reflexivity.
  - reflexivity.
  - repeat constructor.
  - reflexivity.
Defined.

(** ** The march: windows and dispatch *)

Section MarchProperties.

Variables (z_target z_src : list float) (fz_src : grid float).
Variable increasing : bool.
Variable ik : interp_kernel.
Variable ek : extrap_kernel.

(** The fuel [level_step] gives the loop is enough. *)
Lemma advance_fuel (fuel : nat) (t : float) (sb : Z) (w : window) (sa : Z) :
  (if u32 (i_src w + 1) <? n_src z_src
   then n_src z_src - u32 (i_src w + 1) + 1 else 1) <= Z.of_nat fuel ->
  advance z_src increasing fuel t sb w sa <> Err FuelExhausted.
Proof.
  revert w sa. induction fuel as [|fuel IH]; intros w sa Hfuel; cbn [advance].
  - destruct (sb =? sa); [|discriminate].
    pose proof (u32_range (i_src w + 1)).
    destruct (Z.ltb_spec (u32 (i_src w + 1)) (n_src z_src)); lia.
  - destruct (sb =? sa); [|discriminate].
    pose proof (u32_range (i_src w + 1)) as Hi.
    destruct (Z.ltb_spec (u32 (i_src w + 1)) (n_src z_src)) as [Hlt|Hge];
      [|discriminate].
    destruct (zth z_src (u32 (i_src w + 1))); cbn [expect mbind result_bind];
      [|discriminate].
    destruct (isnan f); [discriminate|].
    apply IH. cbn [i_src].
    pose proof (u32_range (Z.of_nat (length z_src))) as Hn. fold (n_src z_src) in Hn.
    rewrite (u32_small (u32 (i_src w + 1) + 1)) by lia.
    destruct (Z.ltb_spec (u32 (i_src w + 1) + 1) (n_src z_src)); lia.
Qed.

(** The while loop of [level_step] always comes to an end. *)
Lemma advance_total (t : float) (sb : Z) (w : window) (sa : Z) :
  advance z_src increasing (S (Z.to_nat (n_src z_src))) t sb w sa <> Err FuelExhausted.
Proof.
  apply advance_fuel.
  pose proof (u32_range (i_src w + 1)).
  pose proof (u32_range (Z.of_nat (length z_src))) as Hn. fold (n_src z_src) in Hn.
  destruct (Z.ltb_spec (u32 (i_src w + 1)) (n_src z_src)); lia.
Qed.

Lemma advance_window (fuel : nat) (t : float) (sb : Z) :
  forall (w : window) (sa : Z) (w' : window) (sa' : Z),
    window_ok z_src increasing w ->
    sa = relative_sign (z_after w) t ->
    advance z_src increasing fuel t sb w sa = Ok (w', sa') ->
    window_ok z_src increasing w' /\
    z_before w' = z_before w /\
    sa' = relative_sign (z_after w') t /\
    (extrapolating w' = -1 -> w' = w).
Proof.
  induction fuel as [|fuel IH]; intros w sa w' sa' Hok Hsa; cbn [advance].
  - destruct (sb =? sa); [discriminate|]. intros [= <- <-]. auto.
  - destruct (sb =? sa); [|intros [= <- <-]; auto].
    pose proof (u32_range (i_src w + 1)) as Hi.
    destruct (Z.ltb_spec (u32 (i_src w + 1)) (n_src z_src)) as [Hlt|Hge].
    + destruct (zth z_src (u32 (i_src w + 1))) as [z|] eqn:Hz;
        cbn [expect mbind result_bind]; [|discriminate].
      destruct (isnan z); [discriminate|].
      intros Hadv. apply IH in Hadv as (Hok' & Hzb & Hsa' & Hext).
      * repeat split; try assumption.
        intros E. specialize (Hext E). subst w'. discriminate.
      * right. left. cbn. repeat split; [lia|lia|exact Hz].
      * reflexivity.
    + intros [= <- <-]. repeat split.
      * right. right. cbn. repeat split; lia.
      * discriminate.
Qed.

Lemma level_step_Ok (w w'' : window) (i_target : Z) (g g' : grid cell) :
  level_step z_target z_src fz_src increasing ik ek w i_target g = (g', Ok w'') ->
  exists (t : float) (w' : window) (sa' : Z) (c : column),
    zth z_target i_target = Some t /\
    isnan t = false /\
    advance z_src increasing (S (Z.to_nat (n_src z_src))) t
      (relative_sign (z_before w) t) w (relative_sign (z_after w) t) = Ok (w', sa') /\
    (if (extrapolating w' =? 0) || (sa' =? 0)
     then ik (i_src w') z_src fz_src t (Column g i_target)
     else ek (extrapolating w') z_src fz_src t (Column g i_target)) = Ok c /\
    g' = column_of c /\
    w'' = Window t (z_after w') (i_src w') (extrapolating w').
Proof.
  unfold level_step.
  destruct (zth z_target i_target) as [t|]; [|discriminate].
  destruct (isnan t) eqn:Hnan; [discriminate|].
  destruct (advance z_src increasing _ t _ w _) as [[w' sa']|e] eqn:Hadv;
    [|discriminate].
  unfold settle.
  match goal with
  | |- context [match ?K with Ok _ => _ | Err _ => _ end] =>
      destruct K as [c|e] eqn:Hk; [|discriminate]
  end.
  intros [= <- <-]. exists t, w', sa', c. repeat split; auto.
Qed.

Lemma first_window_ok (z0 : float) :
  zth z_src 0 = Some z0 -> window_ok z_src increasing (first_window increasing z0).
Proof. intros H. left. cbn. auto. Qed.

Lemma marching_window_ok (w : window) :
  marching z_target z_src fz_src increasing ik ek w -> window_ok z_src increasing w.
Proof.
  induction 1 as [z0 Hz0|w w'' i_target g g' _ IH Hstep].
  - now apply first_window_ok.
  - apply level_step_Ok in Hstep as (t & w' & sa' & c & _ & _ & Hadv & _ & _ & ->).
    apply advance_window in Hadv as (Hok & _); [|exact IH|reflexivity].
    destruct Hok as [(?&?&?)|[(?&?&?)|(?&?&?)]];
      [left|right; left|right; right]; cbn; auto.
Qed.

(** C8: for every level the march processes, once the window has been
    moved for it, the interpolation kernel is called at the current source
    index exactly when the extrapolation mark is cleared (the upper edge is
    then a source value inside the source) or the level is exactly on the
    upper edge (sign zero, whatever the mark is); otherwise the
    extrapolation kernel is called, with direction -1 when the window is
    still the first one, at index 0, and with direction 1 when the march
    ran off the end of the source. *)
Theorem kernel_dispatch (w : window) (i_target : Z) (t : float) (g : grid cell)
    (w' : window) (sa' : Z) :
  marching z_target z_src fz_src increasing ik ek w ->
  zth z_target i_target = Some t ->
  isnan t = false ->
  advance z_src increasing (S (Z.to_nat (n_src z_src))) t
    (relative_sign (z_before w) t) w (relative_sign (z_after w) t) = Ok (w', sa') ->
  sa' = relative_sign (z_after w') t /\
  (extrapolating w' = 0 ->
   0 <= i_src w' < n_src z_src /\ zth z_src (i_src w') = Some (z_after w')) /\
  (((extrapolating w' = 0 \/ sa' = 0) /\
    level_step z_target z_src fz_src increasing ik ek w i_target g
    = settle g t w' (ik (i_src w') z_src fz_src t (Column g i_target))) \/
   (~ (extrapolating w' = 0 \/ sa' = 0) /\
    extrapolating w' = -1 /\ w' = w /\ i_src w' = 0 /\
    level_step z_target z_src fz_src increasing ik ek w i_target g
    = settle g t w' (ek (-1) z_src fz_src t (Column g i_target))) \/
   (~ (extrapolating w' = 0 \/ sa' = 0) /\
    extrapolating w' = 1 /\ n_src z_src <= i_src w' /\
    z_after w' = z_last increasing /\
    level_step z_target z_src fz_src increasing ik ek w i_target g
    = settle g t w' (ek 1 z_src fz_src t (Column g i_target)))).
Proof.
  intros Hmarch Ht Hnan Hadv.
  pose proof (marching_window_ok w Hmarch) as Hok.
  destruct (advance_window _ _ _ _ _ _ _ Hok eq_refl Hadv) as (Hok' & _ & Hsa' & Hfirst).
  split; [exact Hsa'|]. split.
  { intros E. destruct Hok' as [(?&?&?)|[(?&?&?)|(?&?&?)]]; [lia|auto|lia]. }
  unfold level_step. rewrite Ht, Hnan, Hadv.
  destruct (Z.eqb_spec (extrapolating w') 0) as [E0|E0]; cbn [orb].
  { left. auto. }
  destruct (Z.eqb_spec sa' 0) as [Es|Es].
  { left. auto. }
  right. destruct Hok' as [(E&?&?)|[(?&?&?)|(E&?&?)]]; [left|lia|right]; rewrite E.
  - repeat split; try tauto; lia.
  - repeat split; try tauto; lia.
Qed.

End MarchProperties.

Lemma kernel_dispatch_witness :
  level_step [5%float; 3%float] [2%float; 4%float; 6%float]
    (Grid [[2%float; 4%float; 6%float]] 3) true linear_interp nan_data_extrap
    (first_window true 2%float) 0 (empty_grid 1 2)
  = settle (empty_grid 1 2) 5%float (Window (- INFINITY)%float 6%float 2 0)
      (linear_interp 2 [2%float; 4%float; 6%float]
         (Grid [[2%float; 4%float; 6%float]] 3) 5%float (Column (empty_grid 1 2) 0)).
Proof.
  destruct (kernel_dispatch [5%float; 3%float] [2%float; 4%float; 6%float]
              (Grid [[2%float; 4%float; 6%float]] 3) true linear_interp nan_data_extrap
              (first_window true 2%float) 0 5%float (empty_grid 1 2)
              (Window (- INFINITY)%float 6%float 2 0) 1)
    as (_ & _ & [(_ & H)|[(H & _)|(H & _)]]).
  - constructor. reflexivity.
  - reflexivity.
  - reflexivity.
  - vm_compute. reflexivity.
  - exact H.
  - exfalso. apply H. left. reflexivity.
  - exfalso. apply H. left. reflexivity.
Defined.

(** ** NaN in the source and in the target coordinate *)

Lemma range_split (n k : Z) :
  0 <= k < n -> range n = range k ++ k :: (Z.of_nat <$> seq (S (Z.to_nat k)) (Z.to_nat (n - k - 1))).
Proof.
  intros H. unfold range.
  replace (Z.to_nat n) with (Z.to_nat k + S (Z.to_nat (n - k - 1)))%nat by lia.
  rewrite seq_app, fmap_app. cbn [seq fmap list_fmap]. rewrite Nat.add_0_l.
  now rewrite Z2Nat.id by lia.
Qed.

Section NanProperties.

Variables (z_target z_src : list float) (fz_src : grid float).
Variable increasing : bool.
Variable ik : interp_kernel.
Variable ek : extrap_kernel.

Lemma levels_app (ixs1 ixs2 : list Z) (w : window) (g : grid cell) :
  levels z_target z_src fz_src increasing ik ek (ixs1 ++ ixs2) w g
  = match levels z_target z_src fz_src increasing ik ek ixs1 w g with
    | (g', Ok w') => levels z_target z_src fz_src increasing ik ek ixs2 w' g'
    | (g', Err e) => (g', Err e)
    end.
Proof.
  revert w g. induction ixs1 as [|i ixs1 IH]; intros w g; cbn [app levels].
  - reflexivity.
  - destruct (level_step _ _ _ _ _ _ w i g) as [g' [w'|e]]; [apply IH|reflexivity].
Qed.

Lemma levels_marching (ixs : list Z) (w w' : window) (g g' : grid cell) :
  marching z_target z_src fz_src increasing ik ek w ->
  levels z_target z_src fz_src increasing ik ek ixs w g = (g', Ok w') ->
  marching z_target z_src fz_src increasing ik ek w'.
Proof.
  revert w g. induction ixs as [|i ixs IH]; intros w g Hm; cbn [levels].
  - now intros [= <- <-].
  - destruct (level_step _ _ _ _ _ _ w i g) as [g1 [w1|e]] eqn:Hstep; [|discriminate].
    apply IH. eapply marching_step; eauto.
Qed.

(** The march of the levels before position [length pre], then the level at
    that position. *)
Lemma levels_upto (pre post : list float) (t : float) (w0 : window) (g : grid cell) :
  z_target = pre ++ t :: post ->
  Z.of_nat (length z_target) < 2 ^ 32 ->
  levels z_target z_src fz_src increasing ik ek (range (n_target z_target)) w0 g
  = match levels z_target z_src fz_src increasing ik ek
            (range (Z.of_nat (length pre))) w0 g with
    | (g', Ok w) =>
        match level_step z_target z_src fz_src increasing ik ek w
                (Z.of_nat (length pre)) g' with
        | (g'', Ok w') =>
            levels z_target z_src fz_src increasing ik ek
              (Z.of_nat <$> seq (S (Z.to_nat (Z.of_nat (length pre))))
                 (Z.to_nat (n_target z_target - Z.of_nat (length pre) - 1))) w' g''
        | (g'', Err e) => (g'', Err e)
        end
    | (g', Err e) => (g', Err e)
    end.
Proof.
  intros Hz Hlen. unfold n_target. rewrite u32_small by lia.
  rewrite (range_split (Z.of_nat (length z_target)) (Z.of_nat (length pre))).
  - rewrite levels_app. destruct (levels _ _ _ _ _ _ _ w0 g) as [g' [w|e]]; reflexivity.
  - rewrite Hz, length_app. cbn [length]. lia.
Qed.

Lemma target_at (pre post : list float) (t : float) :
  z_target = pre ++ t :: post -> zth z_target (Z.of_nat (length pre)) = Some t.
Proof.
  intros ->. rewrite zth_nat. now rewrite lookup_app_r, Nat.sub_diag by lia.
Qed.

Lemma advance_reaches_nan (t : float) (sb : Z) (k : Z) (zk : float) :
  k < n_src z_src ->
  zth z_src k = Some zk ->
  isnan zk = true ->
  forall (fuel : nat) (w : window),
    0 <= i_src w < k ->
    k - i_src w <= Z.of_nat fuel ->
    same_side z_src t sb (i_src w) k ->
    advance z_src increasing fuel t sb w sb = Err InvalidSource.
Proof.
  intros Hk Hzk Hnan. induction fuel as [|fuel IH]; intros w Hi Hfuel Hside; [lia|].
  cbn [advance]. rewrite Z.eqb_refl.
  pose proof (u32_range (Z.of_nat (length z_src))) as Hn. fold (n_src z_src) in Hn.
  rewrite u32_small by lia.
  destruct (Z.ltb_spec (i_src w + 1) (n_src z_src)) as [_|]; [|lia].
  destruct (Z.eq_dec (i_src w + 1) k) as [E|E].
  - rewrite E, Hzk. cbn [expect mbind result_bind]. now rewrite Hnan.
  - destruct (Hside (i_src w + 1)) as (z & Hz & Hznan & Hzs); [lia|].
    rewrite Hz. cbn [expect mbind result_bind]. rewrite Hznan, Hzs.
    apply IH; cbn [i_src]; [lia|lia|].
    intros j Hj. apply Hside. lia.
Qed.

(** The scan for an all-NaN column finds a value that is not NaN. *)
Lemma scan_nans_found (ixs : list Z) (b : bool) :
  Forall (fun i => is_Some (zth z_src i)) ixs ->
  Exists (fun i => exists z, zth z_src i = Some z /\ isnan z = false) ixs ->
  scan_nans z_src ixs b = Ok false.
Proof.
  intros Hall Hex. revert b. induction Hex as [i ixs (z & Hz & Hnan)|i ixs Hex IH];
    intros b; cbn [scan_nans].
  - rewrite Hz. cbn. now rewrite Hnan.
  - inversion Hall as [|? ? [z Hz] Hall']; subst. rewrite Hz. cbn.
    destruct (isnan z); [now apply IH|reflexivity].
Qed.

Lemma not_all_nans (z0 : float) :
  Z.of_nat (length z_src) < 2 ^ 32 ->
  zth z_src 0 = Some z0 ->
  Exists (fun z => isnan z = false) z_src ->
  (if isnan z0 then scan_nans z_src (range (n_src z_src)) true else Ok false) = Ok false.
Proof.
  intros Hlen Hz0 Hex. destruct (isnan z0); [|reflexivity].
  unfold n_src. rewrite u32_small by lia.
  apply scan_nans_found.
  - apply Forall_forall. intros i Hi. apply range_lookup in Hi.
    rewrite zth_lookup by lia. apply lookup_lt_is_Some_2. lia.
  - apply Exists_exists in Hex as (z & Hin & Hnan).
    apply list_elem_of_lookup in Hin as [i Hi].
    apply Exists_exists. exists (Z.of_nat i). split.
    + unfold range. apply list_elem_of_fmap. exists i. split; [reflexivity|].
      apply elem_of_seq. apply lookup_lt_Some in Hi. lia.
    + exists z. now rewrite zth_nat.
Qed.

(** The march of a column that is not the all-NaN special case. *)
Lemma gridwise_levels (z0 : float) (g : grid cell) :
  z_target <> [] ->
  Z.of_nat (length z_target) < 2 ^ 32 ->
  Z.of_nat (length z_src) < 2 ^ 32 ->
  zth z_src 0 = Some z0 ->
  Exists (fun z => isnan z = false) z_src ->
  gridwise_interpolation z_target z_src fz_src increasing ik ek g
  = match levels z_target z_src fz_src increasing ik ek (range (n_target z_target))
            (first_window increasing z0) g with
    | (g', Err e) => (g', Err e)
    | (g', Ok _) => (g', Ok tt)
    end.
Proof.
  intros Hne Hlt Hls Hz0 Hex. unfold gridwise_interpolation.
  assert ((n_target z_target =? 0) = false) as ->.
  { unfold n_target. rewrite u32_small by lia. apply Z.eqb_neq.
    destruct z_target; [contradiction|]. cbn [length]. lia. }
  cbn [negb]. rewrite Hz0. cbn [expect mbind result_bind].
  now rewrite (not_all_nans z0 Hls Hz0 Hex).
Qed.

(** C7, amended: the marcher fails with InvalidSource when, moving the
    window for a level that is not NaN, it reaches a source value that is
    NaN: the leading source value is not NaN, the earlier levels were marched
    without error and left the window [w], the level [t] is on one side of
    both edges of [w], the source values after the upper edge and before the
    index [k] are not NaN and on that same side, and [z_src[k]] is NaN.  The
    buffer is then as the earlier levels left it.  A NaN that the window does
    not reach is not looked at. *)
Theorem nan_source_reached (pre post : list float) (t z0 : float)
    (g g' : grid cell) (w : window) (k : Z) (zk : float) :
  z_target = pre ++ t :: post ->
  Z.of_nat (length z_target) < 2 ^ 32 ->
  Z.of_nat (length z_src) < 2 ^ 32 ->
  zth z_src 0 = Some z0 ->
  isnan z0 = false ->
  levels z_target z_src fz_src increasing ik ek (range (Z.of_nat (length pre)))
    (first_window increasing z0) g = (g', Ok w) ->
  isnan t = false ->
  relative_sign (z_after w) t = relative_sign (z_before w) t ->
  i_src w < k < n_src z_src ->
  same_side z_src t (relative_sign (z_before w) t) (i_src w) k ->
  zth z_src k = Some zk ->
  isnan zk = true ->
  gridwise_interpolation z_target z_src fz_src increasing ik ek g
  = (g', Err InvalidSource).
Proof.
  intros Hz Hlt Hls Hz0 Hnan0 Hpre Ht Hsign Hk Hside Hzk Hnank.
  rewrite (gridwise_levels z0); try assumption.
  - rewrite (levels_upto pre post t _ _ Hz Hlt), Hpre.
    unfold level_step. rewrite (target_at pre post t Hz), Ht, Hsign.
    assert (0 <= i_src w) as Hi.
    { assert (window_ok z_src increasing w) as Hok.
      { eapply marching_window_ok, levels_marching; [|exact Hpre].
        now apply marching_first. }
      pose proof (u32_range (Z.of_nat (length z_src))) as Hn. fold (n_src z_src) in Hn.
      destruct Hok as [(?&?&?)|[(?&?&?)|(?&?&?)]]; lia. }
    rewrite (advance_reaches_nan t _ k zk); try assumption; [reflexivity|lia|lia|lia].
  - rewrite Hz. now destruct pre.
  - destruct z_src as [|z zs]; [discriminate|]. cbn in Hz0. injection Hz0 as ->.
    now apply Exists_cons_hd.
Qed.

(** A NaN target makes the march of a column that is not entirely NaN fail. *)
Lemma nan_target_fails (pre post : list float) (t z0 : float) (g : grid cell) :
  z_target = pre ++ t :: post ->
  Z.of_nat (length z_target) < 2 ^ 32 ->
  Z.of_nat (length z_src) < 2 ^ 32 ->
  zth z_src 0 = Some z0 ->
  Exists (fun z => isnan z = false) z_src ->
  isnan t = true ->
  exists g' e,
    gridwise_interpolation z_target z_src fz_src increasing ik ek g = (g', Err e).
Proof.
  intros Hz Hlt Hls Hz0 Hex Ht.
  rewrite (gridwise_levels z0); try assumption.
  - rewrite (levels_upto pre post t _ _ Hz Hlt).
    destruct (levels _ _ _ _ _ _ _ _ g) as [g' [w|e]]; [|eauto].
    unfold level_step. rewrite (target_at pre post t Hz), Ht. eauto.
  - rewrite Hz. now destruct pre.
Qed.

(** C2, amended: when a value of the target coordinate is NaN and the source
    column is not entirely NaN, the march of that column fails.  If the
    earlier levels are marched without error the failure is InvalidTarget,
    raised when the NaN level is reached, with the output of the earlier
    levels already written to the buffer; if an earlier level fails, that
    failure is the result.  (A column that is entirely NaN is filled with NaN
    without looking at the targets.) *)
Theorem nan_target_reached (pre post : list float) (t z0 : float) (g : grid cell) :
  z_target = pre ++ t :: post ->
  Z.of_nat (length z_target) < 2 ^ 32 ->
  Z.of_nat (length z_src) < 2 ^ 32 ->
  zth z_src 0 = Some z0 ->
  Exists (fun z => isnan z = false) z_src ->
  isnan t = true ->
  gridwise_interpolation z_target z_src fz_src increasing ik ek g
  = match levels z_target z_src fz_src increasing ik ek
            (range (Z.of_nat (length pre))) (first_window increasing z0) g with
    | (g', Ok _) => (g', Err InvalidTarget)
    | (g', Err e) => (g', Err e)
    end.
Proof.
  intros Hz Hlt Hls Hz0 Hex Ht.
  rewrite (gridwise_levels z0); try assumption.
  - rewrite (levels_upto pre post t _ _ Hz Hlt).
    destruct (levels _ _ _ _ _ _ _ _ g) as [g' [w|e]]; [|reflexivity].
    unfold level_step. now rewrite (target_at pre post t Hz), Ht.
  - rewrite Hz. now destruct pre.
Qed.

End NanProperties.

(** C7, as the specification states it, fails: in [z_src = [1, NaN]] the
    leading value is not NaN and a later one is, and the march for the level
    [0] of a rising coordinate returns without error: the level is below the
    first source value and the window never reaches the NaN. *)
Lemma nan_source_not_reached :
  gridwise_interpolation [0%float] [1%float; NAN] (Grid [[10%float; 20%float]] 2)
    true linear_interp nearest_edge_extrap (empty_grid 1 1)
  = (Grid [[Some 10%float]] 1, Ok tt).
Proof. vm_compute. reflexivity. Qed.

Lemma nan_source_reached_witness :
  gridwise_interpolation [0%float; 3%float] [1%float; 2%float; NAN]
    (Grid [[10%float; 20%float; 30%float]] 3)
    true linear_interp nearest_edge_extrap (empty_grid 1 2)
  = (Grid [[Some 10%float; None]] 2, Err InvalidSource).
Proof.
  apply (nan_source_reached [0%float; 3%float] [1%float; 2%float; NAN]
           (Grid [[10%float; 20%float; 30%float]] 3)
           true linear_interp nearest_edge_extrap
           [0%float] [] 3%float 1%float (empty_grid 1 2)
           (Grid [[Some 10%float; None]] 2)
           (Window 0%float 1%float 0 (-1)) 2 NAN).
  - reflexivity.
  - reflexivity.
  - reflexivity.
  - reflexivity.
  - reflexivity.
  - vm_compute. reflexivity.
  - reflexivity.
  - vm_compute. reflexivity.
  - vm_compute. split; reflexivity.
  - intros j Hj. assert (j = 1) as -> by (cbn in Hj; lia).
    exists 2%float. vm_compute. repeat split.
  - reflexivity.
  - reflexivity.
Defined.

(** C2, as the specification states it, fails.  With the target [[NaN]] and
    the source coordinate [[NaN, NaN]], [interpolate] raises nothing and
    returns [[NaN]].  With the targets [[3, NaN]] and the source coordinate
    [[2, 4, 6]], the march fails with InvalidTarget after the output of the
    level 3 is written. *)
Lemma nan_target_not_always_fatal :
  interpolate float64 numpy_issubdtype_int numpy_astype
    (NDArray [1] [NAN]) (NDArray [2] [NAN; NAN])
    float64 (NDArray [2] [7%float; 8%float]) (-1) None
    linear_interp nan_data_extrap
  = Ok (Interpolated float64 (NDArray [1] [Some NAN])) /\
  gridwise_interpolation [3%float; NAN] [2%float; 4%float; 6%float]
    (Grid [[2%float; 4%float; 6%float]] 3) true linear_interp nan_data_extrap
    (empty_grid 1 2)
  = (Grid [[Some 3%float; None]] 2, Err InvalidTarget).
Proof. vm_compute. split; reflexivity. Qed.

Lemma nan_target_reached_witness :
  gridwise_interpolation [3%float; NAN] [2%float; 4%float; 6%float]
    (Grid [[2%float; 4%float; 6%float]] 3) true linear_interp nan_data_extrap
    (empty_grid 1 2)
  = match levels [3%float; NAN] [2%float; 4%float; 6%float]
            (Grid [[2%float; 4%float; 6%float]] 3) true linear_interp nan_data_extrap
            (range (Z.of_nat (length [3%float]))) (first_window true 2%float)
            (empty_grid 1 2) with
    | (g', Ok _) => (g', Err InvalidTarget)
    | (g', Err e) => (g', Err e)
    end.
Proof.
  apply (nan_target_reached [3%float; NAN] [2%float; 4%float; 6%float]
           (Grid [[2%float; 4%float; 6%float]] 3) true linear_interp nan_data_extrap
           [3%float] [] NAN 2%float (empty_grid 1 2)).
  - reflexivity.
  - reflexivity.
  - reflexivity.
  - reflexivity.
  - apply Exists_cons_hd. reflexivity.
  - reflexivity.
Defined.

(** ** Shapes *)

Lemma filter_unknown_none (s : list Z) :
  Forall (fun d => 0 <= d) s ->
  filter (fun d => d = -1) s = [] /\ filter (fun d => d <> -1) s = s.
Proof.
  induction 1 as [|d s Hd _ [IH1 IH2]]; [split; reflexivity|].
  rewrite !filter_cons. destruct (decide (d = -1)) as [E|E]; [lia|].
  destruct (decide (d <> -1)) as [_|E']; [|contradiction].
  now rewrite IH1, IH2.
Qed.

Lemma product_nonneg (s : list Z) : Forall (fun d => 0 <= d) s -> 0 <= product s.
Proof. induction 1; cbn; [lia|]. unfold product in *. lia. Qed.

Lemma reshape_plain {A : Type} (a : ndarray A) (s : list Z) :
  Forall (fun d => 0 <= d) s ->
  reshape a s = if product s =? size a then Ok (NDArray s (flat a)) else Err CannotReshape.
Proof.
  intros Hs. unfold reshape. destruct (filter_unknown_none s Hs) as [-> ->].
  reflexivity.
Qed.

Lemma reshape_trailing {A : Type} (a : ndarray A) (lh n : Z) :
  0 <= lh -> 0 <= n ->
  reshape a [lh; n; -1]
  = if (lh * n =? 0) || negb (size a mod (lh * n) =? 0) then Err CannotReshape
    else Ok (NDArray [lh; n; size a / (lh * n)] (flat a)).
Proof.
  intros Hlh Hn. unfold reshape. rewrite !filter_cons, !filter_nil.
  destruct (decide (lh = -1)) as [E|_]; [lia|].
  destruct (decide (n = -1)) as [E|_]; [lia|].
  destruct (decide (lh <> -1)) as [_|E]; [|lia].
  destruct (decide (n <> -1)) as [_|E]; [|lia].
  cbn [decide_rel length product foldr fmap list_fmap].
  destruct (decide (-1 = -1)) as [_|E]; [|contradiction].
  destruct (decide (-1 <> -1)) as [E|_]; [contradiction|].
  cbn [length product foldr fmap list_fmap].
  replace (lh * (n * 1)) with (lh * n) by lia.
  destruct (Z.eqb_spec lh (-1)); [lia|]. destruct (Z.eqb_spec n (-1)); [lia|].
  reflexivity.
Qed.

Lemma reshape_leading {A : Type} (a : ndarray A) (lh n nj : Z) :
  0 <= lh -> 0 <= n -> 0 <= nj ->
  reshape a [-1; lh; n; nj]
  = if (lh * n * nj =? 0) || negb (size a mod (lh * n * nj) =? 0) then Err CannotReshape
    else Ok (NDArray [size a / (lh * n * nj); lh; n; nj] (flat a)).
Proof.
  intros Hlh Hn Hnj. unfold reshape. rewrite !filter_cons, !filter_nil.
  destruct (decide (lh = -1)) as [E|_]; [lia|].
  destruct (decide (n = -1)) as [E|_]; [lia|].
  destruct (decide (nj = -1)) as [E|_]; [lia|].
  destruct (decide (lh <> -1)) as [_|E]; [|lia].
  destruct (decide (n <> -1)) as [_|E]; [|lia].
  destruct (decide (nj <> -1)) as [_|E]; [|lia].
  destruct (decide (-1 = -1)) as [_|E]; [|contradiction].
  destruct (decide (-1 <> -1)) as [E|_]; [contradiction|].
  cbn [length product foldr fmap list_fmap].
  replace (lh * (n * (nj * 1))) with (lh * n * nj) by lia.
  destruct (Z.eqb_spec lh (-1)); [lia|]. destruct (Z.eqb_spec n (-1)); [lia|].
  destruct (Z.eqb_spec nj (-1)); [lia|].
  reflexivity.
Qed.

Lemma cumprod_from_nonneg (s : list Z) :
  Forall (fun d => 0 <= d) s ->
  forall acc, 0 <= acc -> Forall (fun d => 0 <= d) (cumprod_from acc s).
Proof.
  induction 1 as [|d s Hd _ IH]; intros acc Hacc; cbn; constructor.
  - lia.
  - apply IH. lia.
Qed.

Lemma py_index_nonneg (t : list Z) (i v : Z) :
  Forall (fun d => 0 <= d) t -> py_index t i = Ok v -> 0 <= v.
Proof.
  unfold py_index. intros Ht.
  destruct (zth t _) as [x|] eqn:E; [|discriminate].
  intros [= <-]. apply zth_Some in E as [_ E].
  rewrite Forall_lookup in Ht. eapply Ht, E.
Qed.

Lemma resolve_axis_Ok (axis fz_ndim z_ndim fp_axis zp_axis : Z) :
  0 <= fz_ndim ->
  resolve_axis axis fz_ndim z_ndim = Ok (fp_axis, zp_axis) ->
  fp_axis = (axis + fz_ndim) mod fz_ndim /\ 0 <= fp_axis < fz_ndim /\
  zp_axis = fp_axis - (fz_ndim - z_ndim) /\ 0 <= zp_axis < z_ndim /\ axis <= z_ndim.
Proof.
  intros Hn. unfold resolve_axis.
  destruct (Z.eqb_spec fz_ndim 0) as [|Hne]; [discriminate|].
  destruct (Z.leb_spec 0 ((axis + fz_ndim) mod fz_ndim - (fz_ndim - z_ndim))),
    (Z.ltb_spec ((axis + fz_ndim) mod fz_ndim - (fz_ndim - z_ndim)) z_ndim),
    (Z.ltb_spec z_ndim axis); cbn; try discriminate.
  intros [= <- <-].
  pose proof (Z.mod_pos_bound (axis + fz_ndim) fz_ndim ltac:(lia)).
  repeat split; lia.
Qed.

Lemma py_assign_third {A : Type} (a b c d v : A) :
  py_assign [a; b; c; d] 2 v = Ok [a; b; v; d].
Proof. reflexivity. Qed.

Section DriverProperties.

Context {dtype : Type}.
Variable f8 : dtype.
Variable issubdtype_int : dtype -> bool.
Variable astype : dtype -> float -> float.

(** What a successful [__init__] has established. *)
Lemma init_Ok (z_tgt z_src : ndarray float) (fz_dtype : dtype)
    (fz_src : ndarray float) (ax : Z) (up : option bool)
    (ik : interp_kernel) (ek : extrap_kernel) (self : _Interpolator) :
  Forall (fun d => 0 <= d) (shape z_src) ->
  Forall (fun d => 0 <= d) (shape fz_src) ->
  __init__ f8 issubdtype_int z_tgt z_src fz_dtype fz_src ax up ik ek = Ok self ->
  exists z_target_size fp_axis lh n nj m,
    (if ndim z_tgt =? 1 then py_index (shape z_tgt) 0
     else py_index (shape z_tgt) ax) = Ok z_target_size /\
    fp_axis = (ax + ndim fz_src) mod ndim fz_src /\
    0 <= fp_axis < ndim fz_src /\
    0 < lh /\ 0 < n /\ 0 < nj /\ 0 <= m /\
    size z_src = lh * n * nj /\
    size fz_src = m * (lh * n * nj) /\
    _zp_reshaped self = NDArray [lh; n; nj] (flat z_src) /\
    _fp_reshaped self = NDArray [m; lh; n; nj] (flat fz_src) /\
    _result_working_shape self = [m; lh; z_target_size; nj] /\
    result_shape self = <[Z.to_nat fp_axis := z_target_size]> (shape fz_src) /\
    z_target self = z_tgt /\
    _target_dtype self = (if issubdtype_int fz_dtype then f8 else fz_dtype) /\
    interpolation self = ik /\ extrapolation self = ek.
Proof.
  intros Hzs Hfs. unfold __init__.
  destruct (if ndim z_tgt =? 1 then _ else _) as [z_target_size|] eqn:Hsize;
    cbn [mbind result_bind]; [|discriminate].
  destruct (resolve_axis _ _ _) as [[fp_axis zp_axis]|] eqn:Haxis;
    cbn [mbind result_bind]; [|discriminate].
  apply resolve_axis_Ok in Haxis as (Hfp & Hfpr & Hzp & Hzpr & _);
    [|unfold ndim; lia].
  destruct (negb _); [discriminate|].
  destruct (py_index (1 :: cumprod (shape z_src)) zp_axis) as [lh|] eqn:Hlh;
    cbn [mbind result_bind]; [|discriminate].
  destruct (py_index (shape z_src) zp_axis) as [n|] eqn:Hn;
    cbn [mbind result_bind]; [|discriminate].
  assert (0 <= lh) as Hlh0.
  { eapply py_index_nonneg; [|exact Hlh]. constructor; [lia|].
    apply cumprod_from_nonneg; [exact Hzs|lia]. }
  assert (0 <= n) as Hn0 by (eapply py_index_nonneg; [exact Hzs|exact Hn]).
  rewrite reshape_trailing by assumption.
  destruct (Z.eqb_spec (lh * n) 0) as [|Hlhn]; [discriminate|].
  destruct (Z.eqb_spec (size z_src mod (lh * n)) 0) as [Hmod|]; [|discriminate].
  cbn [orb negb mbind result_bind shape].
  assert (0 <= size z_src) as Hsz by (now apply product_nonneg).
  assert (0 <= size z_src / (lh * n)) as Hnj0 by (apply Z.div_pos; nia).
  rewrite reshape_leading by assumption.
  destruct (Z.eqb_spec (lh * n * (size z_src / (lh * n))) 0) as [|Hknown];
    [discriminate|].
  destruct (Z.eqb_spec (size fz_src mod (lh * n * (size z_src / (lh * n)))) 0)
    as [Hmod'|]; [|discriminate].
  cbn [orb negb mbind result_bind shape].
  rewrite py_assign_third. cbn [mbind result_bind].
  unfold py_assign.
  destruct (zth (shape fz_src) fp_axis) as [d|]; cbn [mbind result_bind];
    [|discriminate].
  match goal with
  | |- (?X ≫= _) = _ -> _ => destruct X as [up'|]; cbn [mbind result_bind];
                              [|discriminate]
  end.
  intros Hself. injection Hself as <-. cbn.
  exists z_target_size, fp_axis, lh, n, (size z_src / (lh * n)),
    (size fz_src / (lh * n * (size z_src / (lh * n)))).
  assert (0 <= size fz_src) by (now apply product_nonneg).
  assert (size z_src = lh * n * (size z_src / (lh * n))) as Hsplit.
  { rewrite (Z.div_mod (size z_src) (lh * n)) at 1 by lia. lia. }
  repeat split; try assumption; try reflexivity; try lia.
  - apply Z.div_pos; nia.
  - rewrite (Z.div_mod (size fz_src) (lh * n * (size z_src / (lh * n)))) at 1 by lia.
    lia.
Qed.


End DriverProperties.




(** ** An empty target coordinate *)

Lemma u32_le (z : Z) : 0 <= z -> u32 z <= z.
Proof. intros H. unfold u32. apply Z.mod_le; lia. Qed.

Lemma product_insert_zero (s : list Z) (k : nat) :
  (k < length s)%nat -> product (<[k := 0]> s) = 0.
Proof.
  revert k. induction s as [|d s IH]; intros k Hk; [cbn in Hk; lia|].
  destruct k as [|k]; cbn.
  - lia.
  - fold (product (<[k := 0]> s)). rewrite IH by (cbn in Hk; lia). lia.
Qed.

Lemma offset3_bound (lh n nj i k j : Z) :
  0 <= i < lh -> 0 <= k < n -> 0 <= j < nj ->
  0 <= (i * n + k) * nj + j < lh * n * nj.
Proof.
  intros Hi Hk Hj.
  assert (0 <= i * n) by nia.
  assert (i * n + k + 1 <= lh * n) by nia.
  assert (0 <= (i * n + k) * nj) by nia.
  assert ((i * n + k + 1) * nj <= lh * n * nj) by nia.
  nia.
Qed.

Lemma offset4_bound (m lh n nj r i k j : Z) :
  0 <= r < m -> 0 <= i < lh -> 0 <= k < n -> 0 <= j < nj ->
  0 <= ((r * lh + i) * n + k) * nj + j < m * (lh * n * nj).
Proof.
  intros Hr Hi Hk Hj.
  assert (0 <= r * lh) by nia.
  assert (r * lh + i + 1 <= m * lh) by nia.
  pose proof (offset3_bound (m * lh) n nj (r * lh + i) k j ltac:(lia) Hk Hj).
  nia.
Qed.

Lemma column3_Some {A : Type} (cells : list A) (lh n nj i j : Z) :
  Z.of_nat (length cells) = lh * n * nj ->
  0 <= i < lh -> 0 <= j < nj -> 0 <= n ->
  exists col, column3 cells n nj i j = Ok col /\ length col = Z.to_nat n.
Proof.
  intros Hlen Hi Hj Hn. unfold column3.
  destruct (mapM _ (range n)) as [col|] eqn:E.
  - exists col. split; [reflexivity|].
    apply length_mapM in E. now rewrite range_length in E.
  - exfalso. apply mapM_None in E. apply Exists_exists in E as (k & Hk & Hnone).
    apply range_lookup in Hk.
    pose proof (offset3_bound lh n nj i k j Hi Hk Hj).
    rewrite zth_lookup in Hnone by lia.
    apply lookup_ge_None in Hnone. lia.
Qed.

Lemma column4_Some {A : Type} (cells : list A) (m lh n nj i j : Z) :
  Z.of_nat (length cells) = m * (lh * n * nj) ->
  0 <= i < lh -> 0 <= j < nj -> 0 <= n ->
  exists g, column4 cells m lh n nj i j = Ok g.
Proof.
  intros Hlen Hi Hj Hn. unfold column4.
  destruct (mapM _ (range m)) as [rows|] eqn:E; cbn.
  - eexists. reflexivity.
  - exfalso. apply mapM_None in E. apply Exists_exists in E as (r & Hr & Hnone).
    apply range_lookup in Hr.
    apply mapM_None in Hnone. apply Exists_exists in Hnone as (k & Hk & Hnone).
    apply range_lookup in Hk.
    pose proof (offset4_bound m lh n nj r i k j Hr Hi Hk Hj).
    rewrite zth_lookup in Hnone by lia.
    apply lookup_ge_None in Hnone. lia.
Qed.

Lemma put_column4_empty (ni nj i j : Z) (g : grid cell) (cells : list cell) :
  put_column4 ni 0 nj i j g cells = cells.
Proof.
  unfold put_column4. generalize (zip (range (shape0 g)) (grid_rows g)).
  intros l. revert cells. induction l as [|x l IH]; intros cells; cbn; [reflexivity|].
  now rewrite IH.
Qed.

(** The march of a column for no target at all. *)
Lemma gridwise_no_target (z_src : list float) (fz_src : grid float)
    (increasing : bool) (ik : interp_kernel) (ek : extrap_kernel) (g : grid cell) :
  z_src <> [] ->
  gridwise_interpolation [] z_src fz_src increasing ik ek g = (g, Ok tt).
Proof.
  intros Hne. destruct z_src as [|z0 zs]; [contradiction|]. reflexivity.
Qed.

Section EmptyTarget.

Context {dtype : Type}.
Variable f8 : dtype.
Variable issubdtype_int : dtype -> bool.
Variable astype : dtype -> float -> float.

Lemma march_column_empty (self : _Interpolator) (m lh n nj i j : Z) :
  Z.of_nat (length (flat (_zp_reshaped self))) = lh * n * nj ->
  Z.of_nat (length (flat (_fp_reshaped self))) = m * (lh * n * nj) ->
  0 <= i < lh -> 0 <= j < nj -> 0 < n -> 0 <= m ->
  march_column (dtype := dtype) self [] m lh n 0 nj i j [] = Ok [].
Proof.
  intros Hz Hf Hi Hj Hn Hm. unfold march_column.
  destruct (column3_Some (flat (_zp_reshaped self)) lh n nj i j)
    as (z_col & -> & Hlen); try assumption; try lia.
  destruct (column4_Some (flat (_fp_reshaped self)) m lh n nj i j)
    as (fz_col & ->); try assumption; try lia.
  destruct (column4_Some (@nil cell) m lh 0 nj i j) as (out & ->);
    try assumption; try lia.
  { cbn. lia. }
  cbn [mbind result_bind].
  rewrite gridwise_no_target.
  - now rewrite put_column4_empty.
  - intros ->. cbn in Hlen. lia.
Qed.

Lemma march_i_empty (self : _Interpolator) (m lh n nj j : Z) (ixs : list Z) :
  Z.of_nat (length (flat (_zp_reshaped self))) = lh * n * nj ->
  Z.of_nat (length (flat (_fp_reshaped self))) = m * (lh * n * nj) ->
  Forall (fun i => 0 <= i < lh) ixs -> 0 <= j < nj -> 0 < n -> 0 <= m ->
  march_i (dtype := dtype) self [] m lh n 0 nj j ixs [] = Ok [].
Proof.
  intros Hz Hf Hixs Hj Hn Hm. induction Hixs as [|i ixs Hi _ IH]; cbn [march_i].
  - reflexivity.
  - rewrite march_column_empty by assumption. exact IH.
Qed.

Lemma march_j_empty (self : _Interpolator) (m lh n nj : Z) (jxs : list Z) :
  Z.of_nat (length (flat (_zp_reshaped self))) = lh * n * nj ->
  Z.of_nat (length (flat (_fp_reshaped self))) = m * (lh * n * nj) ->
  Forall (fun j => 0 <= j < nj) jxs -> 0 < lh -> 0 < n -> 0 <= m ->
  march_j (dtype := dtype) self [] m lh n 0 nj jxs [] = Ok [].
Proof.
  intros Hz Hf Hjxs Hlh Hn Hm. induction Hjxs as [|j jxs Hj _ IH]; cbn [march_j].
  - reflexivity.
  - rewrite march_i_empty; try assumption.
    apply Forall_forall. intros i Hi. now apply range_lookup in Hi.
Qed.

(** C10: for an empty target coordinate, whenever [__init__] accepts the
    arguments, [interpolate] raises no error and returns an array that has
    the shape of the data with the extent 0 along the interpolation axis
    (and so no element), whatever the values of the source coordinate and of
    the data are, NaN included: with no target, the march of a column looks
    at no value ([gridwise_no_target]).  The loop bounds of [interpolate]
    are [unsigned int]: the coordinate has fewer than [2 ^ 32] elements. *)
Theorem empty_target (z_src : ndarray float) (fz_dtype : dtype)
    (fz_src : ndarray float) (ax : Z) (up : option bool)
    (ik : interp_kernel) (ek : extrap_kernel) (self : _Interpolator) :
  array_wf z_src ->
  array_wf fz_src ->
  size z_src < 2 ^ 32 ->
  __init__ f8 issubdtype_int (NDArray [0] []) z_src fz_dtype fz_src ax up ik ek
  = Ok self ->
  interpolate f8 issubdtype_int astype (NDArray [0] []) z_src fz_dtype fz_src ax up ik ek
  = Ok (Interpolated (if issubdtype_int fz_dtype then f8 else fz_dtype)
          (NDArray (<[Z.to_nat ((ax + ndim fz_src) mod ndim fz_src) := 0]> (shape fz_src))
                   [])).
Proof.
  intros [Hzs Hzlen] [Hfs Hflen] Hsmall Hinit. unfold interpolate. rewrite Hinit.
  cbn [mbind result_bind].
  apply init_Ok in Hinit
    as (nt & fp & lh & n & nj & m & Hnt & -> & Hfp & Hlh & Hn & Hnj & Hm & Hsz & Hsf &
        Hzp & Hfpr & Hws & Hrs & Htgt & Hdt & _); [|assumption|assumption].
  change (Ok 0 = Ok nt) in Hnt. injection Hnt as <-.
  unfold _Interpolator_interpolate. rewrite Hws, Hzp, Hfpr, Htgt, Hrs, Hdt.
  cbn [shape flat ndim length Z.of_nat Pos.of_succ_nat Z.eqb Pos.eqb negb].
  replace (product [m; lh; 0; nj]) with 0 by (unfold product; cbn [foldr]; ring).
  cbn [Z.to_nat replicate].
  assert (lh < 2 ^ 32 /\ nj < 2 ^ 32) as [Hlh32 Hnj32] by nia.
  unfold as_unsigned_int.
  destruct (Z.leb_spec 0 lh), (Z.ltb_spec lh (2 ^ 32)); try lia.
  destruct (Z.leb_spec 0 nj), (Z.ltb_spec nj (2 ^ 32)); try lia.
  cbn [andb mbind result_bind].
  rewrite (march_j_empty self m lh n nj).
  - cbn [mbind result_bind]. rewrite reshape_plain.
    + rewrite product_insert_zero by (unfold ndim in *; lia).
      unfold size. cbn [shape]. replace (product [m; lh; 0; nj]) with 0 by (unfold product; cbn [foldr]; ring).
      reflexivity.
    + apply Forall_insert; [assumption|lia].
  - rewrite Hzp. cbn [flat]. lia.
  - rewrite Hfpr. cbn [flat]. lia.
  - apply Forall_forall. intros j Hj. now apply range_lookup in Hj.
  - exact Hlh.
  - exact Hn.
  - exact Hm.
Qed.

End EmptyTarget.

Lemma empty_target_witness :
  interpolate float64 numpy_issubdtype_int numpy_astype (NDArray [0] [])
    (NDArray [3; 2] [2%float; NAN; NAN; 40%float; 6%float; NAN])
    int64
    (NDArray [2; 3; 2]
       [2%float; 20%float; 4%float; 40%float; 6%float; 60%float;
        1%float; 2%float; 3%float; 4%float; 5%float; 6%float])
    1 None linear_interp linear_extrap
  = Ok (Interpolated float64 (NDArray [2; 0; 2] [])).
Proof.
  apply (empty_target float64 numpy_issubdtype_int numpy_astype
           (NDArray [3; 2] [2%float; NAN; NAN; 40%float; 6%float; NAN])
           int64
           (NDArray [2; 3; 2]
              [2%float; 20%float; 4%float; 40%float; 6%float; 60%float;
               1%float; 2%float; 3%float; 4%float; 5%float; 6%float])
           1 None linear_interp linear_extrap
           (Interpolator linear_interp linear_extrap float64 false (NDArray [0] [])
              [2; 3; 2] 1
              (NDArray [1; 3; 2] [2%float; NAN; NAN; 40%float; 6%float; NAN])
              (NDArray [2; 1; 3; 2]
                 [2%float; 20%float; 4%float; 40%float; 6%float; 60%float;
                  1%float; 2%float; 3%float; 4%float; 5%float; 6%float])
              [2; 1; 0; 2] [2; 0; 2])).
  - split; [repeat constructor; lia|reflexivity].
  - split; [repeat constructor; lia|reflexivity].
  - reflexivity.
  - reflexivity.
Defined.

(** ** Differences of doubles that are zero *)

(** IEEE 754 subtraction is exact when the result is zero: on two finite
    doubles it gives a zero only when the operands are equal.  This is shown
    on the specification of the operations ([SpecFloat]), for any format. *)

Section ExactZero.

Variables fprec femax : Z.
Hypothesis fprec_pos : 0 < fprec.

Lemma iter_pos_nat {A : Type} (f : A -> A) (p : positive) (x : A) :
  SpecFloat.iter_pos f p x = Nat.iter (Pos.to_nat p) f x.
Proof.
  revert x. induction p as [p IH|p IH|]; intros x; cbn [SpecFloat.iter_pos].
  - rewrite !IH, Pos2Nat.inj_xI.
    replace (S (2 * Pos.to_nat p)) with (Pos.to_nat p + S (Pos.to_nat p))%nat by lia.
    now rewrite Nat.iter_add, Nat.iter_succ_r.
  - rewrite !IH, Pos2Nat.inj_xO.
    replace (2 * Pos.to_nat p)%nat with (Pos.to_nat p + Pos.to_nat p)%nat by lia.
    now rewrite Nat.iter_add.
  - reflexivity.
Qed.

Lemma digits2_pos_iter_xO (m d : positive) :
  Zpos (digits2_pos (Pos.iter xO m d)) = Zpos (digits2_pos m) + Zpos d.
Proof.
  induction d as [|d IH] using Pos.peano_ind.
  - cbn. lia.
  - rewrite Pos.iter_succ. cbn [digits2_pos]. lia.
Qed.

(** Shifting a mantissa right by fewer places than it has digits leaves a
    positive mantissa. *)
Lemma shr_m_iter (n : nat) :
  forall (p : positive) (r s : bool),
    (n < Pos.to_nat (digits2_pos p))%nat ->
    exists q, shr_m (Nat.iter n shr_1 (Build_shr_record (Zpos p) r s)) = Zpos q /\
              Pos.to_nat (digits2_pos q) = (Pos.to_nat (digits2_pos p) - n)%nat.
Proof.
  induction n as [|n IH]; intros p r s Hn.
  - exists p. cbn. split; [reflexivity|lia].
  - destruct (IH p r s) as (q & Hq & Hd); [lia|].
    rewrite Nat.iter_succ. destruct (Nat.iter n shr_1 _) as [m r' s']. cbn in Hq. subst m.
    destruct q as [q|q|]; cbn [digits2_pos] in Hd.
    + exists q. cbn. split; [reflexivity|lia].
    + exists q. cbn. split; [reflexivity|lia].
    + cbn in Hd. lia.
Qed.

Lemma shr_fexp_pos (p : positive) (e : Z) (l : location) :
  SpecFloat.emin fprec femax <= e ->
  exists q r s e',
    shr_fexp fprec femax (Zpos p) e l = (Build_shr_record (Zpos q) r s, e') /\
    SpecFloat.emin fprec femax <= e'.
Proof.
  intros He. unfold shr_fexp, shr. cbn [Zdigits2].
  assert (exists r s, shr_record_of_loc (Zpos p) l = Build_shr_record (Zpos p) r s)
    as (r & s & ->) by (destruct l as [|[]]; cbn; eauto).
  destruct (SpecFloat.fexp fprec femax (Zpos (digits2_pos p) + e) - e) as [|n|n] eqn:En.
  - exists p, r, s, e. auto.
  - destruct (shr_m_iter (Pos.to_nat n) p r s) as (q & Hq & _).
    { unfold SpecFloat.fexp in En. lia. }
    rewrite iter_pos_nat.
    destruct (Nat.iter (Pos.to_nat n) shr_1 _) as [m r' s']. cbn in Hq. subst m.
    exists q, r', s', (e + Zpos n). split; [reflexivity|].
    unfold SpecFloat.fexp in En. lia.
  - exists p, r, s, e. auto.
Qed.

Lemma binary_round_aux_not_zero (sx : bool) (p : positive) (e : Z) (l : location) (s : bool) :
  SpecFloat.emin fprec femax <= e ->
  binary_round_aux fprec femax sx (Zpos p) e l <> S754_zero s.
Proof.
  intros He. unfold binary_round_aux.
  destruct (shr_fexp_pos p e l He) as (q & r & s' & e' & -> & He').
  assert (exists q', round_nearest_even (shr_m (Build_shr_record (Zpos q) r s'))
                       (loc_of_shr_record (Build_shr_record (Zpos q) r s')) = Zpos q')
    as (q' & ->).
  { cbn [shr_m]. destruct r, s'; cbn; eauto; destruct q; cbn; eauto. }
  destruct (shr_fexp_pos q' e' loc_Exact He') as (q'' & r'' & s'' & e'' & -> & _).
  cbn [shr_m]. destruct (_ <=? _); discriminate.
Qed.

Lemma binary_round_not_zero (sx : bool) (p : positive) (e : Z) (s : bool) :
  SpecFloat.emin fprec femax <= e ->
  binary_round fprec femax sx p e <> S754_zero s.
Proof.
  intros He. unfold binary_round, shl_align.
  destruct (SpecFloat.fexp fprec femax (Zpos (digits2_pos p) + e) - e) as [|n|n] eqn:En;
    apply binary_round_aux_not_zero; try assumption.
  unfold SpecFloat.fexp. lia.
Qed.

Lemma canonical_exponent (m : positive) (e : Z) :
  bounded fprec femax m e = true ->
  SpecFloat.fexp fprec femax (Zpos (digits2_pos m) + e) = e /\ SpecFloat.emin fprec femax <= e.
Proof.
  unfold bounded, canonical_mantissa. intros H.
  apply andb_prop in H as [H _]. apply Z.eqb_eq in H. split; [exact H|].
  unfold SpecFloat.fexp in H. lia.
Qed.

(** Two canonical mantissas that are equal once aligned are equal. *)
Lemma aligned_eq (mx my : positive) (ex ey : Z) :
  bounded fprec femax mx ex = true ->
  bounded fprec femax my ey = true ->
  fst (shl_align mx ex (Z.min ex ey)) = fst (shl_align my ey (Z.min ex ey)) ->
  mx = my /\ ex = ey.
Proof.
  intros Hx Hy. apply canonical_exponent in Hx as [Hx _], Hy as [Hy _].
  unfold shl_align.
  destruct (Z.min ex ey - ex) as [|d|d] eqn:Ex, (Z.min ex ey - ey) as [|d'|d'] eqn:Ey;
    cbn [fst]; intros E; try lia.
  - subst mx. rewrite digits2_pos_iter_xO in Hx.
    replace (Zpos (digits2_pos my) + Zpos d' + ex) with (Zpos (digits2_pos my) + ey)
      in Hx by lia.
    lia.
  - subst my. rewrite digits2_pos_iter_xO in Hy.
    replace (Zpos (digits2_pos mx) + Zpos d + ey) with (Zpos (digits2_pos mx) + ex)
      in Hy by lia.
    lia.
Qed.

Lemma SFsub_finite_zero (sx sy : bool) (mx my : positive) (ex ey : Z) (s : bool) :
  bounded fprec femax mx ex = true ->
  bounded fprec femax my ey = true ->
  SFsub fprec femax (S754_finite sx mx ex) (S754_finite sy my ey) = S754_zero s ->
  S754_finite sx mx ex = S754_finite sy my ey.
Proof.
  intros Hx Hy. cbn [SFsub]. unfold binary_normalize.
  destruct (canonical_exponent _ _ Hx) as [_ Hex], (canonical_exponent _ _ Hy) as [_ Hey].
  destruct (cond_Zopp sx _ - cond_Zopp sy _) as [|p|p] eqn:Ed.
  - intros _.
    assert (sx = sy /\ fst (shl_align mx ex (Z.min ex ey))
                       = fst (shl_align my ey (Z.min ex ey))) as [-> Hal].
    { destruct sx, sy; cbn [cond_Zopp] in Ed; split; try reflexivity; lia. }
    now destruct (aligned_eq _ _ _ _ Hx Hy Hal) as [-> ->].
  - intros H. exfalso. revert H. apply binary_round_not_zero. lia.
  - intros H. exfalso. revert H. apply binary_round_not_zero. lia.
Qed.

End ExactZero.

Lemma sub_zero_cases (x y : float) (s : bool) :
  Prim2SF (x - y) = S754_zero s ->
  x = y \/ exists sx sy, Prim2SF x = S754_zero sx /\ Prim2SF y = S754_zero sy.
Proof.
  rewrite sub_spec. unfold SF64sub.
  pose proof (Prim2SF_valid x) as Vx. pose proof (Prim2SF_valid y) as Vy.
  destruct (Prim2SF x) as [sx|sx| |sx mx ex] eqn:Ex,
           (Prim2SF y) as [sy|sy| |sy my ey] eqn:Ey;
    cbn [SFsub]; try discriminate; try (destruct sx, sy; discriminate).
  - intros _. right. eauto.
  - intros H. left. apply Prim2SF_inj. rewrite Ex, Ey.
    eapply SFsub_finite_zero; [| | |exact H]; [reflexivity|exact Vx|exact Vy].
Qed.

Lemma relative_sign_zeros (a b t0 : float) (sa sb : bool) :
  Prim2SF a = S754_zero sa ->
  Prim2SF b = S754_zero sb ->
  relative_sign a t0 = relative_sign b t0.
Proof.
  intros Ha Hb. unfold relative_sign.
  rewrite !ltb_spec, !sub_spec, Ha, Hb. unfold SF64sub.
  change (Prim2SF 0) with (S754_zero false).
  destruct (Prim2SF t0) as [s|s| |s m e]; destruct sa, sb; try destruct s; reflexivity.
Qed.

(** A level that is exactly on [zk] and no farther from [zp] than from [zk]
    is on [zp] as well: no level separates [zp] from [zk]. *)
Lemma nearest_lower_same_side (t zp zk : float) :
  (t =? zk)%float = true ->
  (fabs (t - zp) <=? fabs (t - zk))%float = true ->
  forall t0, relative_sign zp t0 = relative_sign zk t0.
Proof.
  intros Heq Hle t0. unfold fabs in Hle.
  rewrite leb_spec, !abs_spec in Hle.
  assert (t = zk \/ exists st sk, Prim2SF t = S754_zero st /\ Prim2SF zk = S754_zero sk)
    as Hk.
  { rewrite FloatAxioms.eqb_spec in Heq. unfold SFeqb in Heq.
    pose proof (Prim2SF_valid t) as Vt. pose proof (Prim2SF_valid zk) as Vk.
    destruct (Prim2SF t) as [st|st| |st mt et] eqn:Et,
             (Prim2SF zk) as [sk|sk| |sk mk ek] eqn:Ek;
      cbn [SFcompare] in Heq; try discriminate;
      try (destruct st; discriminate); try (destruct sk; discriminate).
    - right. eauto.
    - exfalso. rewrite !sub_spec, Et, Ek in Hle. unfold SF64sub in Hle.
      destruct st, sk; try discriminate; cbn [SFsub SFabs] in Hle;
        unfold SFleb in Hle; destruct (SFabs _) as [| | |]; discriminate.
    - left. apply Prim2SF_inj. rewrite Et, Ek.
      rewrite Pos.compare_cont_spec in Heq.
      destruct st, sk; try discriminate;
        destruct (Z.compare_spec et ek) as [->| |]; try discriminate;
        destruct (Pos.compare_spec mt mk) as [->| |]; cbn in Heq;
        try discriminate; reflexivity. }
  assert (exists s, Prim2SF (t - zk) = S754_zero s) as [s Hdk].
  { destruct Hk as [->|(st & sk & Ht & Hzk)].
    - rewrite sub_spec. unfold SF64sub.
      pose proof (Prim2SF_valid zk) as Vk.
      destruct (Prim2SF zk) as [sk|sk| |sk mk ek] eqn:Ek.
      + destruct sk; cbn; eauto.
      + exfalso. rewrite !sub_spec, Ek in Hle. unfold SF64sub in Hle.
        destruct sk; cbn [SFsub SFabs] in Hle; unfold SFleb in Hle;
          destruct (SFabs _) as [| | |]; discriminate.
      + exfalso. rewrite FloatAxioms.eqb_spec, Ek in Heq. discriminate.
      + cbn [SFsub]. rewrite Z.sub_diag. cbn. eauto.
    - rewrite sub_spec, Ht, Hzk. unfold SF64sub. destruct st, sk; cbn; eauto. }
  rewrite Hdk in Hle. cbn [SFabs] in Hle.
  assert (exists s', Prim2SF (t - zp) = S754_zero s') as [s' Hdp].
  { unfold SFleb in Hle. destruct (Prim2SF (t - zp)) as [s'|s'| |s' m e];
      cbn in Hle; try discriminate. eauto. }
  destruct (sub_zero_cases _ _ _ Hdp) as [->|(st & sp & Ht & Hzp)].
  - destruct Hk as [->|(st & sk & Ht & Hzk)]; [reflexivity|].
    eapply relative_sign_zeros; eauto.
  - destruct Hk as [<-|(st' & sk & Ht' & Hzk)].
    + symmetry. eapply relative_sign_zeros; eauto.
    + eapply relative_sign_zeros; eauto.
Qed.

(** ** Exact matches *)

Section ExactMatch.

Variables (z_target z_src : list float) (fz_src : grid float).
Variable increasing : bool.
Variable ik : interp_kernel.
Variable ek : extrap_kernel.

Lemma advance_bracketed (fuel : nat) (t : float) (sb : Z) :
  forall (w : window) (sa : Z) (w' : window) (sa' : Z),
    window_ok z_src increasing w ->
    sa = relative_sign (z_after w) t ->
    (sb <> sa -> bracketed z_src w) ->
    advance z_src increasing fuel t sb w sa = Ok (w', sa') ->
    bracketed z_src w'.
Proof.
  induction fuel as [|fuel IH]; intros w sa w' sa' Hok Hsa Hbr; cbn [advance].
  - destruct (Z.eqb_spec sb sa); [discriminate|]. intros [= <- <-]. auto.
  - destruct (Z.eqb_spec sb sa) as [Hs|]; [|intros [= <- <-]; auto].
    pose proof (u32_range (i_src w + 1)) as Hi.
    pose proof (u32_range (Z.of_nat (length z_src))) as Hn. fold (n_src z_src) in Hn.
    destruct (Z.ltb_spec (u32 (i_src w + 1)) (n_src z_src)) as [Hlt|Hge].
    + destruct (zth z_src (u32 (i_src w + 1))) as [z|] eqn:Hz;
        cbn [expect mbind result_bind]; [|discriminate].
      destruct (isnan z); [discriminate|].
      apply IH.
      * right. left. cbn. repeat split; [lia|lia|exact Hz].
      * reflexivity.
      * cbn [z_after]. intros Hne. unfold bracketed. cbn [i_src]. intros Hrange.
        assert (u32 (i_src w + 1) - 1 = i_src w /\ zth z_src (i_src w) = Some (z_after w))
          as [Hprev Hzp].
        { destruct Hok as [(_&E&?)|[(_&?&?)|(_&Hpast&_)]].
          - rewrite E in *. change (u32 (0 + 1)) with 1. auto.
          - rewrite u32_small by lia. split; [lia|assumption].
          - exfalso. destruct (Z.eq_dec (i_src w + 1) (2 ^ 32)) as [E|E].
            + rewrite E in Hrange. change (u32 (2 ^ 32)) with 0 in Hrange. lia.
            + rewrite u32_small in Hrange by lia. lia. }
        exists (z_after w), z, t. rewrite Hprev. repeat split; try assumption.
        congruence.
    + intros [= <- <-]. unfold bracketed. cbn [i_src]. lia.
Qed.

Lemma marching_bracketed (w : window) :
  marching z_target z_src fz_src increasing ik ek w -> bracketed z_src w.
Proof.
  induction 1 as [z0 Hz0|w w'' i_target g g' Hm IH Hstep].
  - unfold bracketed. cbn. lia.
  - apply level_step_Ok in Hstep as (t & w' & sa' & c & _ & _ & Hadv & _ & _ & ->).
    apply advance_bracketed in Hadv; [exact Hadv| |reflexivity|auto].
    eapply marching_window_ok, Hm.
Qed.

(** C5: when the march has put the upper edge of the window on the source
    value [z_src[k]] ([k] is the index of the window, and the sign of the
    edge relative to the level is zero) and the level is exactly equal to
    [z_src[k]], the level gets [fz_src[:, k]] in every row, under the linear
    and under the nearest-neighbour interpolation kernel. *)
Theorem exact_match_copies_column (w : window) (i_target : Z) (t : float)
    (g : grid cell) (w' : window) (zk : float) (vals : list float) :
  ik = linear_interp \/ ik = nearest_interp ->
  marching z_target z_src fz_src increasing ik ek w ->
  zth z_target i_target = Some t ->
  isnan t = false ->
  advance z_src increasing (S (Z.to_nat (n_src z_src))) t
    (relative_sign (z_before w) t) w (relative_sign (z_after w) t) = Ok (w', 0) ->
  Z.of_nat (length z_src) < 2 ^ 32 ->
  zth z_src (i_src w') = Some zk ->
  (t =? zk)%float = true ->
  shape0 fz_src < 2 ^ 32 ->
  source_column fz_src (i_src w') = Some vals ->
  holds_column g i_target (shape0 fz_src) ->
  z_after w' = zk /\
  level_step z_target z_src fz_src increasing ik ek w i_target g
  = (with_column g i_target vals,
     Ok (Window t (z_after w') (i_src w') (extrapolating w'))).
Proof.
  intros Hik Hmarch Ht Hnan Hadv Hlen Hzk Heq Hm Hcol Hg.
  pose proof (marching_window_ok _ _ _ _ _ _ w Hmarch) as Hok.
  pose proof (marching_bracketed w Hmarch) as Hbr.
  destruct (advance_window _ _ _ _ _ _ _ _ _ Hok eq_refl Hadv) as (Hok' & _ & _ & _).
  pose proof (advance_bracketed _ _ _ _ _ _ _ Hok eq_refl (fun _ => Hbr) Hadv) as Hbr'.
  assert (n_src z_src = Z.of_nat (length z_src)) as Hn
    by (unfold n_src; apply u32_small; lia).
  destruct (zth_Some _ _ _ Hzk) as [Hrange _].
  assert (0 <= i_src w' < n_src z_src /\ zth z_src (i_src w') = Some (z_after w'))
    as [Hi Hafter].
  { destruct Hok' as [(_&E&?)|[(_&?&?)|(_&?&_)]]; [|auto|lia].
    rewrite E in *. split; [lia|assumption]. }
  split; [congruence|].
  unfold level_step. rewrite Ht, Hnan, Hadv.
  rewrite orb_true_r. unfold settle.
  destruct Hik as [->| ->].
  - unfold linear_interp. rewrite Hzk. cbn [expect mbind result_bind].
    rewrite Heq. now rewrite (copy_column fz_src (i_src w') g i_target vals).
  - unfold nearest_interp.
    destruct (Z.eqb_spec (i_src w') 0) as [E0|E0]; cbn [mbind result_bind].
    { now rewrite (copy_column fz_src (i_src w') g i_target vals). }
    rewrite (u32_small (i_src w' - 1)) by lia.
    destruct (Hbr' ltac:(lia)) as (zp & zk' & t0 & Hzp & Hzk' & Hsep).
    rewrite Hzp, Hzk. cbn [expect mbind result_bind].
    destruct (fabs (t - zp) <=? fabs (t - zk))%float eqn:Hle.
    + exfalso. apply Hsep.
      assert (zk' = zk) as -> by congruence.
      now apply (nearest_lower_same_side t zp zk).
    + cbn [mbind result_bind].
      now rewrite (copy_column fz_src (i_src w') g i_target vals).
Qed.

End ExactMatch.

Lemma exact_match_copies_column_witness :
  z_after (Window (- INFINITY)%float 4%float 1 0) = 4%float /\
  level_step [4%float] [2%float; 4%float; 6%float]
    (Grid [[20%float; 40%float; 60%float]] 3) true nearest_interp nan_data_extrap
    (first_window true 2%float) 0 (Grid [[None]] 1)
  = (with_column (Grid [[None]] 1) 0 [40%float],
     Ok (Window 4%float 4%float 1 0)).
Proof.
  apply (exact_match_copies_column [4%float] [2%float; 4%float; 6%float]
           (Grid [[20%float; 40%float; 60%float]] 3) true nearest_interp nan_data_extrap
           (first_window true 2%float) 0 4%float (Grid [[None]] 1)
           (Window (- INFINITY)%float 4%float 1 0) 4%float [40%float]).
  - right. reflexivity.
  - constructor. reflexivity.
  - reflexivity.
  - reflexivity.
  - vm_compute. reflexivity.
  - reflexivity.
  - reflexivity.
  - reflexivity.
  - reflexivity.
  - reflexivity.
  - unfold holds_column, grid_wf, shape0. cbn.
    split; [repeat constructor|lia].
Defined.

(** ** NaN targets through the driver *)

Section DriverNan.

Context {dtype : Type}.
Variable astype : dtype -> float -> float.

Lemma march_column_Ok (self : _Interpolator (dtype := dtype)) (targets : list float)
    (m ni n_src n_target nj i j : Z) (cells cells' : list cell) :
  march_column self targets m ni n_src n_target nj i j cells = Ok cells' ->
  exists z_col fz_col out out',
    column3 (flat (_zp_reshaped self)) n_src nj i j = Ok z_col /\
    gridwise_interpolation targets z_col fz_col (rising self)
      (interpolation self) (extrapolation self) out = (out', Ok tt).
Proof.
  unfold march_column.
  destruct (column3 _ _ _ _ _) as [z_col|]; cbn [mbind result_bind]; [|discriminate].
  destruct (column4 (flat _) _ _ _ _ _ _) as [fz_col|]; cbn [mbind result_bind];
    [|discriminate].
  destruct (column4 cells _ _ _ _ _ _) as [out|]; cbn [mbind result_bind];
    [|discriminate].
  destruct (gridwise_interpolation _ _ _ _ _ _ _) as [out' [[]|e]] eqn:E;
    [|discriminate].
  intros _. exists z_col, fz_col, out, out'. auto.
Qed.

Lemma march_i_Ok (self : _Interpolator (dtype := dtype)) (targets : list float)
    (m ni n_src n_target nj j : Z) (ixs : list Z) :
  forall cells cells',
    march_i self targets m ni n_src n_target nj j ixs cells = Ok cells' ->
    forall i, i ∈ ixs ->
      exists c0 c1, march_column self targets m ni n_src n_target nj i j c0 = Ok c1.
Proof.
  induction ixs as [|i0 ixs IH]; intros cells cells' H i Hi.
  - inversion Hi.
  - cbn [march_i] in H.
    destruct (march_column _ _ _ _ _ _ _ i0 _ _) as [c1|] eqn:E;
      cbn [mbind result_bind] in H; [|discriminate].
    apply elem_of_cons in Hi as [->|Hi]; [eauto|].
    eapply IH; eauto.
Qed.

Lemma march_j_Ok (self : _Interpolator (dtype := dtype)) (targets : list float)
    (m ni n_src n_target nj : Z) (jxs : list Z) :
  forall cells cells',
    march_j self targets m ni n_src n_target nj jxs cells = Ok cells' ->
    forall j, j ∈ jxs ->
      exists c0 c1,
        march_i self targets m ni n_src n_target nj j (range ni) c0 = Ok c1.
Proof.
  induction jxs as [|j0 jxs IH]; intros cells cells' H j Hj.
  - inversion Hj.
  - cbn [march_j] in H.
    destruct (march_i _ _ _ _ _ _ _ j0 _ _) as [c1|] eqn:E;
      cbn [mbind result_bind] in H; [|discriminate].
    apply elem_of_cons in Hj as [->|Hj]; [eauto|].
    eapply IH; eauto.
Qed.

(** When [interpolate] returns an array although a target value is NaN,
    every source column it marched holds only NaN. *)
Theorem nan_target_columns (self : _Interpolator (dtype := dtype)) (r : interpolated)
    (pre post : list float) (t : float) (m ni n_target nj lh n_src nj' : Z) :
  _Interpolator_interpolate astype self = Ok r ->
  flat (z_target self) = pre ++ t :: post ->
  isnan t = true ->
  Z.of_nat (length (flat (z_target self))) < 2 ^ 32 ->
  _result_working_shape self = [m; ni; n_target; nj] ->
  shape (_zp_reshaped self) = [lh; n_src; nj'] ->
  0 <= n_src < 2 ^ 32 ->
  forall i j z_col,
    0 <= i < ni -> 0 <= j < nj ->
    column3 (flat (_zp_reshaped self)) n_src nj i j = Ok z_col ->
    Forall (fun z => isnan z = true) z_col.
Proof.
  intros Hr Htg Hnan Hlen Hws Hzp Hn i j z_col Hi Hj Hcol.
  unfold _Interpolator_interpolate in Hr. rewrite Hws, Hzp in Hr.
  destruct (shape (_fp_reshaped self)) as [|d0 [|d1 [|d2 [|d3 [|]]]]]; try discriminate.
  unfold as_unsigned_int in Hr.
  destruct ((0 <=? ni) && (ni <? 2 ^ 32)); cbn [mbind result_bind] in Hr; [|discriminate].
  destruct ((0 <=? nj) && (nj <? 2 ^ 32)); cbn [mbind result_bind] in Hr; [|discriminate].
  destruct (negb _); [discriminate|].
  destruct (march_j _ _ _ _ _ _ _ _ _) as [cells|] eqn:Hj'; [|discriminate].
  clear Hr.
  destruct (march_j_Ok _ _ _ _ _ _ _ _ _ _ Hj' j) as (c0 & c1 & Hi').
  { unfold range. apply list_elem_of_fmap. exists (Z.to_nat j). split; [lia|].
    apply elem_of_seq. lia. }
  destruct (march_i_Ok _ _ _ _ _ _ _ _ _ _ _ Hi' i) as (c2 & c3 & Hc).
  { unfold range. apply list_elem_of_fmap. exists (Z.to_nat i). split; [lia|].
    apply elem_of_seq. lia. }
  apply march_column_Ok in Hc as (z_col' & fz_col & out & out' & Hcol' & Hgrid).
  assert (z_col' = z_col) as -> by congruence.
  destruct (decide (Forall (fun z => isnan z = true) z_col)) as [|Hex]; [assumption|].
  exfalso. apply (not_Forall_Exists _) in Hex.
  assert (length z_col = Z.to_nat n_src) as Hzlen.
  { unfold column3 in Hcol. destruct (mapM _ _) as [col|] eqn:E; [|discriminate].
    injection Hcol as <-. apply length_mapM in E. now rewrite range_length in E. }
  destruct z_col as [|first rest] eqn:Ez; [inversion Hex|]. rewrite <- Ez in *.
  destruct (nan_target_fails (flat (z_target self)) z_col fz_col (rising self)
              (interpolation self) (extrapolation self) pre post t first out)
    as (g' & e & Hfail); try assumption.
  - lia.
  - now rewrite Ez.
  - eapply Exists_impl; [exact Hex|]. cbn. intros z Hz. now destruct (isnan z).
  - rewrite Hfail in Hgrid. discriminate.
Qed.

End DriverNan.

Lemma nan_target_columns_witness :
  Forall (fun z => isnan z = true) [NAN; NAN].
Proof.
  apply (nan_target_columns numpy_astype
           (Interpolator linear_interp nan_data_extrap float64 false
              (NDArray [1] [NAN]) [2] (-1)
              (NDArray [1; 2; 1] [NAN; NAN])
              (NDArray [1; 1; 2; 1] [7%float; 8%float])
              [1; 1; 1; 1] [1])
           (Interpolated float64 (NDArray [1] [Some NAN]))
           [] [] NAN 1 1 1 1 1 2 1 eq_refl eq_refl eq_refl eq_refl eq_refl eq_refl
           ltac:(lia) 0 0 [NAN; NAN]).
  - split; [lia|reflexivity].
  - split; [lia|reflexivity].
  - reflexivity.
Defined.

(** ** The end of the while loop *)

Section LoopEnd.

Variable z_src : list float.
Variable increasing : bool.

Lemma advance_errors (fuel : nat) (t : float) (sb : Z) :
  forall (w : window) (sa : Z) (e : error),
    advance z_src increasing fuel t sb w sa = Err e ->
    e = InvalidSource \/ e = FuelExhausted.
Proof.
  induction fuel as [|fuel IH]; intros w sa e; cbn [advance].
  - destruct (sb =? sa); [|discriminate]. intros [= <-]. auto.
  - destruct (sb =? sa); [|discriminate].
    destruct (Z.ltb_spec (u32 (i_src w + 1)) (n_src z_src)) as [Hlt|]; [|discriminate].
    pose proof (u32_range (i_src w + 1)) as Hi.
    assert (n_src z_src <= Z.of_nat (length z_src)) as Hn
      by (apply u32_le; lia).
    destruct (zth z_src (u32 (i_src w + 1))) as [z|] eqn:Hz.
    + cbn [expect mbind result_bind].
      destruct (isnan z); [intros [= <-]; auto|apply IH].
    + exfalso. rewrite zth_lookup in Hz by lia.
      apply lookup_ge_None in Hz. lia.
Qed.

Lemma advance_nan (fuel : nat) (t : float) (sb : Z) :
  forall (w : window) (sa : Z),
    advance z_src increasing fuel t sb w sa = Err InvalidSource ->
    Exists (fun z => isnan z = true) z_src.
Proof.
  induction fuel as [|fuel IH]; intros w sa; cbn [advance].
  - destruct (sb =? sa); discriminate.
  - destruct (sb =? sa); [|discriminate].
    destruct (_ <? _); [|discriminate].
    destruct (zth z_src _) as [z|] eqn:Hz; cbn [expect mbind result_bind]; [|discriminate].
    destruct (isnan z) eqn:Hn; [|apply IH].
    intros _. apply Exists_exists. exists z. split; [|exact Hn].
    apply zth_Some in Hz as [_ Hz]. apply list_elem_of_lookup. eauto.
Qed.

(** For every window and every level, the loop that moves the window comes
    to an end within [n_src + 1] turns: it leaves a window, or it raises
    InvalidSource. *)
Theorem advance_ends (t : float) (sb : Z) (w : window) (sa : Z) :
  (exists w' sa',
     advance z_src increasing (S (Z.to_nat (n_src z_src))) t sb w sa = Ok (w', sa')) \/
  advance z_src increasing (S (Z.to_nat (n_src z_src))) t sb w sa = Err InvalidSource.
Proof.
  destruct (advance _ _ _ _ _ _ _) as [[w' sa']|e] eqn:E; [left; eauto|right].
  destruct (advance_errors _ _ _ _ _ _ E) as [->| ->]; [reflexivity|].
  exfalso. revert E. apply advance_total.
Qed.

End LoopEnd.

(** ** The order of doubles and the sign of a difference *)

(** The rounding of a subtraction never changes its sign: the difference of
    two doubles is positive, negative or zero as the exact difference is.
    This is shown on the specification of the operations, for any format. *)

Section Ordering.

Variables fprec femax : Z.
Hypothesis fprec_pos : 0 < fprec.

Lemma digits2_pos_bounds (m : positive) :
  2 ^ (Zpos (digits2_pos m) - 1) <= Zpos m < 2 ^ Zpos (digits2_pos m).
Proof.
  induction m as [m IH|m IH|]; cbn [digits2_pos].
  - rewrite Pos2Z.inj_succ.
    replace (Z.succ (Zpos (digits2_pos m)) - 1) with (Z.succ (Zpos (digits2_pos m) - 1)) by lia.
    rewrite !Z.pow_succ_r by lia. lia.
  - rewrite Pos2Z.inj_succ.
    replace (Z.succ (Zpos (digits2_pos m)) - 1) with (Z.succ (Zpos (digits2_pos m) - 1)) by lia.
    rewrite !Z.pow_succ_r by lia. lia.
  - cbn. lia.
Qed.

(** The mantissa of a float, aligned on the exponent [ez]. *)
Lemma shl_align_value (m : positive) (e ez : Z) :
  ez <= e -> Zpos (fst (shl_align m e ez)) = Zpos m * 2 ^ (e - ez).
Proof.
  intros H. unfold shl_align.
  destruct (ez - e) as [|d|d] eqn:E; cbn [fst]; try lia.
  - replace (e - ez) with 0 by lia. lia.
  - change (Pos.iter xO m d) with (shift_pos d m).
    rewrite shift_pos_correct, Z.pow_pos_fold.
    replace (e - ez) with (Zpos d) by lia. lia.
Qed.

(** Of two canonical mantissas, the one with the lower exponent is lower. *)
Lemma canonical_lt (mx my : positive) (ex ey : Z) :
  bounded fprec femax mx ex = true ->
  bounded fprec femax my ey = true ->
  ex < ey ->
  Zpos mx < Zpos my * 2 ^ (ey - ex).
Proof.
  intros Hx Hy Hlt.
  apply canonical_exponent in Hx as [Hx Hex], Hy as [Hy Hey].
  unfold SpecFloat.fexp in Hx, Hy.
  pose proof (digits2_pos_bounds mx) as [_ Bx].
  pose proof (digits2_pos_bounds my) as [By _].
  assert (Zpos (digits2_pos mx) <= fprec) as Dx by lia.
  assert (Zpos (digits2_pos my) = fprec) as Dy by lia.
  rewrite Dy in By.
  assert (2 ^ Zpos (digits2_pos mx) <= 2 ^ fprec) by (apply Z.pow_le_mono_r; lia).
  assert (2 ^ fprec = 2 ^ (fprec - 1) * 2) as E.
  { replace fprec with (Z.succ (fprec - 1)) at 1 by lia.
    rewrite Z.pow_succ_r by lia. lia. }
  assert (2 <= 2 ^ (ey - ex)).
  { change 2 with (2 ^ 1) at 1. apply Z.pow_le_mono_r; lia. }
  nia.
Qed.

Lemma SFcompare_aligned (sx sy : bool) (mx my : positive) (ex ey ez : Z) :
  bounded fprec femax mx ex = true ->
  bounded fprec femax my ey = true ->
  ez <= ex -> ez <= ey ->
  SFcompare (S754_finite sx mx ex) (S754_finite sy my ey)
  = Some (cond_Zopp sx (Zpos mx * 2 ^ (ex - ez)) ?= cond_Zopp sy (Zpos my * 2 ^ (ey - ez))).
Proof.
  intros Hx Hy Hzx Hzy. cbn [SFcompare]. f_equal.
  assert (0 < 2 ^ (ex - ez)) as Px by (apply Z.pow_pos_nonneg; lia).
  assert (0 < 2 ^ (ey - ez)) as Py by (apply Z.pow_pos_nonneg; lia).
  assert (ex < ey -> Zpos mx * 2 ^ (ex - ez) < Zpos my * 2 ^ (ey - ez)) as Hlt.
  { intros H. pose proof (canonical_lt _ _ _ _ Hx Hy H).
    replace (ey - ez) with ((ey - ex) + (ex - ez)) by lia.
    rewrite Z.pow_add_r by lia. nia. }
  assert (ey < ex -> Zpos my * 2 ^ (ey - ez) < Zpos mx * 2 ^ (ex - ez)) as Hgt.
  { intros H. pose proof (canonical_lt _ _ _ _ Hy Hx H).
    replace (ex - ez) with ((ex - ey) + (ey - ez)) by lia.
    rewrite Z.pow_add_r by lia. nia. }
  assert (ex = ey ->
          (Zpos mx * 2 ^ (ex - ez) ?= Zpos my * 2 ^ (ey - ez)) = (mx ?= my)%positive) as Heq.
  { intros ->. rewrite <- Zmult_compare_compat_r by lia. reflexivity. }
  rewrite Pos.compare_cont_spec.
  replace (Pos.switch_Eq Eq (mx ?= my)%positive) with (mx ?= my)%positive
    by (now destruct (mx ?= my)%positive).
  destruct sx, sy; cbn [cond_Zopp].
  - rewrite Z.compare_opp.
    destruct (Z.compare_spec ex ey) as [E|L|G].
    + rewrite Z.compare_antisym, (Heq E). reflexivity.
    + symmetry. apply Z.compare_gt_iff. auto.
    + symmetry. apply Z.compare_lt_iff. auto.
  - symmetry. apply Z.compare_lt_iff. lia.
  - symmetry. apply Z.compare_gt_iff. lia.
  - destruct (Z.compare_spec ex ey) as [E|L|G].
    + now rewrite (Heq E).
    + symmetry. apply Z.compare_lt_iff. auto.
    + symmetry. apply Z.compare_gt_iff. auto.
Qed.

(** A rounded non-zero number keeps its sign. *)
Lemma binary_round_sign (sx : bool) (p : positive) (e : Z) :
  SpecFloat.emin fprec femax <= e ->
  SFcompare (S754_zero false) (binary_round fprec femax sx p e)
  = Some (if sx then Gt else Lt).
Proof.
  intros He.
  assert (forall p e l, SpecFloat.emin fprec femax <= e ->
            SFcompare (S754_zero false) (binary_round_aux fprec femax sx (Zpos p) e l)
            = Some (if sx then Gt else Lt)) as Haux.
  { clear p e He. intros p e l He. unfold binary_round_aux.
    destruct (shr_fexp_pos fprec femax fprec_pos p e l He) as (q & r & s' & e' & -> & He').
    assert (exists q', round_nearest_even (shr_m (Build_shr_record (Zpos q) r s'))
                         (loc_of_shr_record (Build_shr_record (Zpos q) r s')) = Zpos q')
      as (q' & ->).
    { cbn [shr_m]. destruct r, s'; cbn; eauto; destruct q; cbn; eauto. }
    destruct (shr_fexp_pos fprec femax fprec_pos q' e' loc_Exact He') as (q'' & r'' & s'' & e'' & -> & _).
    cbn [shr_m]. destruct (_ <=? _); reflexivity. }
  unfold binary_round, shl_align.
  destruct (SpecFloat.fexp fprec femax (Zpos (digits2_pos p) + e) - e) as [|n|n] eqn:En;
    apply Haux; try assumption.
  unfold SpecFloat.fexp. lia.
Qed.

(** The difference of two finite floats compares with zero as the first
    compares with the second. *)
Lemma SFsub_finite_sign (sx sy : bool) (mx my : positive) (ex ey : Z) :
  bounded fprec femax mx ex = true ->
  bounded fprec femax my ey = true ->
  SFcompare (S754_zero false)
    (SFsub fprec femax (S754_finite sx mx ex) (S754_finite sy my ey))
  = SFcompare (S754_finite sy my ey) (S754_finite sx mx ex).
Proof.
  intros Hx Hy.
  rewrite (SFcompare_aligned sy sx my mx ey ex (Z.min ex ey)) by (assumption || lia).
  destruct (canonical_exponent _ _ _ _ Hx) as [_ Hex].
  destruct (canonical_exponent _ _ _ _ Hy) as [_ Hey].
  cbn [SFsub]. unfold binary_normalize.
  rewrite !shl_align_value by lia.
  set (a := cond_Zopp sx _). set (b := cond_Zopp sy _).
  destruct (a - b) as [|p|p] eqn:Ed.
  - cbn [SFcompare]. f_equal. symmetry. apply Z.compare_eq_iff. lia.
  - rewrite binary_round_sign by lia. f_equal. symmetry. apply Z.compare_lt_iff. lia.
  - rewrite binary_round_sign by lia. f_equal. symmetry. apply Z.compare_gt_iff. lia.
Qed.

End Ordering.

Lemma SFcompare_zero_flip (d : spec_float) :
  SFcompare d (S754_zero false) = option_map CompOpp (SFcompare (S754_zero false) d).
Proof. destruct d as [s|s| |s m e]; try destruct s; reflexivity. Qed.

(** The difference of two doubles compares with zero as the first compares
    with the second, except for two infinities of the same sign, whose
    difference is NaN. *)
Lemma sub_compare (x y : float) :
  SFcompare (S754_zero false) (Prim2SF (x - y)) = SFcompare (Prim2SF y) (Prim2SF x) \/
  (exists s, Prim2SF x = S754_infinity s /\ Prim2SF y = S754_infinity s /\
             Prim2SF (x - y) = S754_nan).
Proof.
  rewrite sub_spec. unfold SF64sub.
  pose proof (Prim2SF_valid x) as Vx. pose proof (Prim2SF_valid y) as Vy.
  destruct (Prim2SF x) as [sx|sx| |sx mx ex] eqn:Ex,
           (Prim2SF y) as [sy|sy| |sy my ey] eqn:Ey;
    try (left; reflexivity);
    try (left; destruct sx; reflexivity);
    try (left; destruct sy; reflexivity);
    try (left; destruct sx, sy; reflexivity).
  - destruct sx, sy; try (left; reflexivity); right; eauto.
  - left. apply SFsub_finite_sign; [reflexivity|exact Vx|exact Vy].
Qed.
Lemma SFcompare_antisym (x y : spec_float) :
  SFcompare x y = option_map CompOpp (SFcompare y x).
Proof.
  destruct x as [sx|sx| |sx mx ex], y as [sy|sy| |sy my ey]; cbn [SFcompare option_map];
    try reflexivity; try (destruct sx; reflexivity); try (destruct sy; reflexivity);
    try (destruct sx, sy; reflexivity).
  f_equal. rewrite (Z.compare_antisym ex ey), !Pos.compare_cont_spec.
  rewrite (Pos.compare_antisym mx my).
  destruct sx, sy; try reflexivity;
    destruct (ex ?= ey); cbn [CompOpp]; try reflexivity;
    destruct (mx ?= my)%positive; reflexivity.
Qed.

(** The sign of a difference is the order of its operands. *)
Lemma relative_sign_compare (z z_base : float) :
  relative_sign z z_base = Z.b2z (z_base <? z)%float - Z.b2z (z <? z_base)%float.
Proof.
  unfold relative_sign. rewrite !ltb_spec.
  change (Prim2SF 0) with (S754_zero false).
  unfold SFltb at 2. rewrite SFcompare_zero_flip.
  unfold SFltb at 3. rewrite (SFcompare_antisym (Prim2SF z) (Prim2SF z_base)).
  unfold SFltb.
  destruct (sub_compare z z_base) as [->|(s & Hz & Hb & ->)].
  - now destruct (SFcompare (Prim2SF z_base) (Prim2SF z)) as [[]|].
  - rewrite Hz, Hb. now destruct s.
Qed.

(** X3: the sign [relative_sign] returns is the order of its arguments:
    [+1] when [z_base < z], [-1] when [z < z_base] and [0] otherwise (the
    two are equal, or one of them is NaN).  The rounding of [z - z_base]
    never hides an order: the difference of two distinct doubles is never
    zero. *)
Theorem relative_sign_order (z z_base : float) :
  relative_sign z z_base = Z.b2z (z_base <? z)%float - Z.b2z (z <? z_base)%float.
Proof. apply relative_sign_compare. Qed.

(** ** What the kernels write *)

Lemma paste_length (t : nat) (vals : list float) (rows : list (list cell)) :
  length (paste t vals rows) = length rows.
Proof.
  revert rows. induction vals as [|v vals IH]; intros [|row rows]; cbn; auto.
Qed.

Lemma paste_lookup (t : nat) (vals : list float) (rows : list (list cell)) (r : nat) :
  paste t vals rows !! r
  = match vals !! r with
    | Some v => (fun row => <[t := Some v]> row) <$> rows !! r
    | None => rows !! r
    end.
Proof.
  revert rows r. induction vals as [|v vals IH]; intros [|row rows] [|r]; cbn; auto.
  now destruct (vals !! r).
Qed.

Lemma with_column_wf (g : grid cell) (t : Z) (vals : list float) :
  grid_wf g -> grid_wf (with_column g t vals).
Proof.
  unfold grid_wf, with_column. cbn [grid_rows grid_width].
  rewrite !Forall_lookup. intros Hwf r row. rewrite paste_lookup.
  destruct (vals !! r) as [v|].
  - destruct (grid_rows g !! r) as [row0|] eqn:E; [|discriminate].
    intros [= <-]. rewrite length_insert. eauto.
  - eauto.
Qed.

Lemma with_column_shape0 (g : grid cell) (t : Z) (vals : list float) :
  shape0 (with_column g t vals) = shape0 g.
Proof. unfold shape0, with_column. cbn. now rewrite paste_length. Qed.

Lemma with_column_holds (g : grid cell) (t t' m : Z) (vals : list float) :
  holds_column g t' m -> holds_column (with_column g t vals) t' m.
Proof.
  intros (Hwf & Ht & Hm). repeat split.
  - now apply with_column_wf.
  - exact (proj1 Ht).
  - exact (proj2 Ht).
  - now rewrite with_column_shape0.
Qed.

(** The values the body of a kernel's loop gave, when the loop ran to its
    end. *)
Lemma assign_rows_bodies (body : Z -> result float) (ixs : list Z) :
  forall (col c : column),
    assign_rows ixs body col = Ok c ->
    exists vals, Forall2 (fun i v => body i = Ok v) ixs vals.
Proof.
  induction ixs as [|i ixs IH]; intros col c; cbn [assign_rows].
  - intros _. exists []. constructor.
  - destruct (body i) as [v|] eqn:Hb; cbn [mbind result_bind]; [|discriminate].
    destruct (column_store col i v) as [col'|]; cbn [mbind result_bind]; [|discriminate].
    intros H. destruct (IH _ _ H) as [vals Hvals].
    exists (v :: vals). now constructor.
Qed.

Lemma range_bodies (body : Z -> result float) (m : Z) (vals : list float) :
  Forall2 (fun i v => body i = Ok v) (range m) vals ->
  length vals = Z.to_nat m /\
  forall i v, vals !! i = Some v -> body (Z.of_nat i) = Ok v.
Proof.
  intros H. split.
  - rewrite <- (Forall2_length _ _ _ H). apply range_length.
  - intros i v Hv. destruct (Forall2_lookup_r _ _ _ _ _ H Hv) as (k & Hk & Hb).
    unfold range in Hk. rewrite list_lookup_fmap in Hk.
    destruct (seq 0 (Z.to_nat m) !! i) as [n|] eqn:E; [|discriminate].
    apply lookup_seq in E as [-> _]. cbn in Hk. now injection Hk as <-.
Qed.

Lemma assign_rows_inv (body : Z -> result float) (g : grid cell) (t m : Z) (c : column) :
  holds_column g t m ->
  assign_rows (range m) body (Column g t) = Ok c ->
  exists vals, length vals = Z.to_nat m /\ c = Column (with_column g t vals) t /\
               forall i v, vals !! i = Some v -> body (Z.of_nat i) = Ok v.
Proof.
  intros Hg Hrun. destruct (assign_rows_bodies _ _ _ _ Hrun) as [vals Hvals].
  apply range_bodies in Hvals as [Hlen Hbody].
  exists vals. repeat split; try assumption.
  rewrite (assign_rows_column body g t m vals Hg Hlen Hbody) in Hrun. congruence.
Qed.

(** The loop of a kernel runs to its end when its body gives a value for
    every row. *)
Lemma assign_rows_total (body : Z -> result float) (g : grid cell) (t m : Z) :
  holds_column g t m ->
  (forall i, 0 <= i < m -> exists v, body i = Ok v) ->
  exists vals, length vals = Z.to_nat m /\
               assign_rows (range m) body (Column g t) = Ok (Column (with_column g t vals) t) /\
               forall i v, vals !! i = Some v -> body (Z.of_nat i) = Ok v.
Proof.
  intros Hg Hbody.
  assert (exists vals, Forall2 (fun i v => body i = Ok v) (range m) vals) as [vals Hvals].
  { assert (Forall (fun i => 0 <= i < m) (range m)) as Hr.
    { unfold range. rewrite Forall_fmap, Forall_forall. intros n Hn.
      apply elem_of_seq in Hn. cbn. lia. }
    induction Hr as [|i ixs Hi _ [vals IH]].
    - exists []. constructor.
    - destruct (Hbody i Hi) as [v Hv]. exists (v :: vals). now constructor. }
  apply range_bodies in Hvals as [Hlen Hb].
  exists vals. repeat split; try assumption.
  now apply assign_rows_column.
Qed.
Lemma assign_rows_writes (body : Z -> result float) (fz_src : grid float)
    (g : grid cell) (t : Z) (c : column) :
  shape0 fz_src < 2 ^ 32 ->
  holds_column g t (shape0 fz_src) ->
  assign_rows (range (u32 (shape0 fz_src))) body (Column g t) = Ok c ->
  exists vals : list float,
    length vals = length (grid_rows fz_src) /\ c = Column (with_column g t vals) t.
Proof.
  intros Hm Hg. rewrite u32_small by (unfold shape0 in *; lia).
  intros H. destruct (assign_rows_inv _ _ _ _ _ Hg H) as (vals & Hlen & -> & _).
  exists vals. split; [|reflexivity].
  rewrite Hlen. unfold shape0. apply Nat2Z.id.
Qed.

Lemma interp_kernels_write (ik : interp_kernel) :
  In ik interp_kernels -> writes_column ik.
Proof.
  intros [<-|[<-|[<-|[]]]] index z_src fz_src level g t c Hm Hg.
  - unfold linear_interp.
    destruct (zth z_src index) as [zk|]; cbn [expect mbind result_bind]; [|discriminate].
    destruct (level =? zk)%float; [now apply assign_rows_writes|].
    destruct (zth z_src (u32 (index - 1))) as [zp|]; cbn [expect mbind result_bind];
      [|discriminate].
    destruct (checked_div _ _) as [frac|]; cbn [mbind result_bind]; [|discriminate].
    now apply assign_rows_writes.
  - unfold nearest_interp.
    match goal with
    | |- (?X ≫= _) = _ -> _ => destruct X as [k|]; cbn [mbind result_bind]; [|discriminate]
    end.
    now apply assign_rows_writes.
  - unfold _testable_indez_interp. now apply assign_rows_writes.
Qed.

Lemma extrap_kernels_write (ek : extrap_kernel) :
  In ek extrap_kernels -> writes_column ek.
Proof.
  intros [<-|[<-|[<-|[<-|[]]]]] direction z_src fz_src level g t c Hm Hg.
  - unfold nan_data_extrap. now apply assign_rows_writes.
  - unfold nearest_edge_extrap. now apply assign_rows_writes.
  - unfold linear_extrap.
    destruct (u32 (shape1 fz_src) <? 2); [discriminate|].
    destruct (if direction <? 0 then _ else _) as [p0 p1].
    destruct (zth z_src p0) as [z0|]; cbn [expect mbind result_bind]; [|discriminate].
    destruct (zth z_src p1) as [z1|]; cbn [expect mbind result_bind]; [|discriminate].
    destruct (checked_div _ _) as [frac|]; cbn [mbind result_bind]; [|discriminate].
    now apply assign_rows_writes.
  - unfold _testable_direction_extrap. now apply assign_rows_writes.
Qed.

(** ** The march fills the buffer *)

Section Fill.

Variables (z_target z_src : list float) (fz_src : grid float).
Variable increasing : bool.
Variable ik : interp_kernel.
Variable ek : extrap_kernel.
Hypothesis ik_writes : writes_column ik.
Hypothesis ek_writes : writes_column ek.
Hypothesis rows_small : shape0 fz_src < 2 ^ 32.

(** A level that is computed writes its column, and nothing else. *)
Lemma level_step_writes (w w' : window) (i_target : Z) (g g' : grid cell) :
  holds_column g i_target (shape0 fz_src) ->
  level_step z_target z_src fz_src increasing ik ek w i_target g = (g', Ok w') ->
  exists vals : list float,
    length vals = length (grid_rows fz_src) /\ g' = with_column g i_target vals.
Proof.
  intros Hg Hstep.
  apply level_step_Ok in Hstep as (t & w1 & sa' & c & _ & _ & _ & Hk & -> & _).
  destruct ((extrapolating w1 =? 0) || (sa' =? 0)).
  - destruct (ik_writes _ _ _ _ _ _ _ rows_small Hg Hk) as (vals & Hlen & ->). eauto.
  - destruct (ek_writes _ _ _ _ _ _ _ rows_small Hg Hk) as (vals & Hlen & ->). eauto.
Qed.

Lemma levels_fill (n : nat) :
  forall (k : nat) (w w' : window) (g g' : grid cell),
    grid_wf g ->
    shape0 g = shape0 fz_src ->
    Z.of_nat (k + n) <= grid_width g ->
    (forall row j, row ∈ grid_rows g -> (j < k)%nat -> exists v, row !! j = Some (Some v)) ->
    levels z_target z_src fz_src increasing ik ek (Z.of_nat <$> seq k n) w g = (g', Ok w') ->
    grid_wf g' /\ shape0 g' = shape0 g /\ grid_width g' = grid_width g /\
    forall row j, row ∈ grid_rows g' -> (j < k + n)%nat -> exists v, row !! j = Some (Some v).
Proof.
  induction n as [|n IH]; intros k w w' g g' Hwf Hrows Hwidth Hfilled;
    cbn [seq fmap list_fmap levels].
  - intros [= <- <-]. rewrite Nat.add_0_r. auto.
  - destruct (level_step _ _ _ _ _ _ w (Z.of_nat k) g) as [g1 [w1|e]] eqn:Hstep;
      [|discriminate].
    intros Hrest.
    assert (holds_column g (Z.of_nat k) (shape0 fz_src)) as Hg
      by (repeat split; try assumption; lia).
    destruct (level_step_writes _ _ _ _ _ Hg Hstep) as (vals & Hlen & ->).
    apply IH in Hrest as (Hwf' & Hrows' & Hwidth' & Hfilled').
    + rewrite with_column_shape0 in Hrows'. cbn [with_column grid_width] in Hwidth'.
      repeat split; try assumption.
      intros row j Hrow Hj. apply Hfilled'; [exact Hrow|lia].
    + now apply with_column_wf.
    + now rewrite with_column_shape0.
    + cbn [with_column grid_width]. lia.
    + intros row j Hrow Hj. cbn [with_column grid_rows] in Hrow.
      apply list_elem_of_lookup in Hrow as [r Hr]. rewrite paste_lookup in Hr.
      rewrite Nat2Z.id in Hr.
      destruct (vals !! r) as [v|] eqn:Hv.
      * destruct (grid_rows g !! r) as [row0|] eqn:Hrow0; [|discriminate].
        injection Hr as <-.
        assert (Z.of_nat (length row0) = grid_width g) as Hl.
        { unfold grid_wf in Hwf. rewrite Forall_lookup in Hwf. eauto. }
        destruct (decide (j = k)) as [->|Hne].
        -- exists v. apply list_lookup_insert_eq. unfold cell in *. lia.
        -- rewrite list_lookup_insert_ne by lia.
           apply (Hfilled row0); [|lia].
           eapply list_elem_of_lookup_2, Hrow0.
      * apply lookup_ge_None in Hv.
        apply lookup_lt_Some in Hr. unfold shape0 in Hrows. lia.
Qed.

End Fill.

(** The march of a column that returns normally has assigned every cell of
    its buffer, and has kept the shape of the buffer. *)
Lemma gridwise_fills (z_target z_src : list float) (fz_src : grid float)
    (increasing : bool) (ik : interp_kernel) (ek : extrap_kernel)
    (fz_target g' : grid cell) :
  In ik interp_kernels ->
  In ek extrap_kernels ->
  shape0 fz_src < 2 ^ 32 ->
  Z.of_nat (length z_target) < 2 ^ 32 ->
  grid_wf fz_target ->
  shape0 fz_target = shape0 fz_src ->
  shape1 fz_target = Z.of_nat (length z_target) ->
  gridwise_interpolation z_target z_src fz_src increasing ik ek fz_target = (g', Ok tt) ->
  grid_wf g' /\ shape0 g' = shape0 fz_target /\ shape1 g' = shape1 fz_target /\
  assigned g'.
Proof.
  intros Hik Hek Hm Hnt Hwf Hrows Hwidth.
  apply interp_kernels_write in Hik. apply extrap_kernels_write in Hek.
  unfold gridwise_interpolation.
  match goal with
  | |- match ?X with Ok _ => _ | Err _ => _ end = _ -> _ => destruct X as [[|]|]
  end; [| |discriminate].
  - destruct fz_target as [rows w]. unfold shape0, shape1 in *.
    cbn [grid_rows grid_width] in *.
    rewrite u32_small by lia. unfold range at 1. rewrite Nat2Z.id.
    rewrite (nan_rows_from z_target w Hnt (length rows) 0 rows).
    + cbn [take app]. rewrite Nat.add_0_l, drop_all, app_nil_r.
      intros [= <-]. cbn [grid_rows grid_width]. rewrite length_replicate.
      repeat split.
      * unfold grid_wf. cbn. apply Forall_replicate. rewrite length_replicate. lia.
      * unfold assigned. cbn. apply Forall_replicate, Forall_replicate. eauto.
    + lia.
    + unfold grid_wf in Hwf. cbn in Hwf.
      eapply Forall_impl; [exact Hwf|]. cbn. intros row Hrow. lia.
  - destruct (zth z_src 0) as [z0|]; [|discriminate].
    destruct (levels _ _ _ _ _ _ _ _ _) as [g1 [w1|e]] eqn:Hlev; [|discriminate].
    intros [= <-].
    unfold range, n_target in Hlev. rewrite u32_small, Nat2Z.id in Hlev by lia.
    apply (levels_fill z_target z_src fz_src increasing ik ek Hik Hek Hm) in Hlev
      as (Hwf' & Hrows' & Hwidth' & Hfilled); try assumption.
    + unfold shape1 in *. repeat split; try assumption.
      unfold assigned. apply Forall_forall. intros row Hrow.
      apply Forall_lookup. intros j c Hc.
      assert (j < 0 + length z_target)%nat as Hj.
      { apply lookup_lt_Some in Hc.
        unfold grid_wf in Hwf'. rewrite Forall_forall in Hwf'.
        specialize (Hwf' row Hrow). unfold cell in *. lia. }
      destruct (Hfilled row j Hrow Hj) as [v Hv].
      pose proof (eq_trans (eq_sym Hc) Hv) as E. injection E as ->. eauto.
    + unfold shape1 in *. lia.
    + intros row j _ Hj. lia.
Qed.

(** X4: when the march of a column returns normally, with kernels of the
    module and a buffer of [fz_src.shape[0]] rows and one column per level,
    every cell of the buffer has been assigned and the buffer has kept its
    shape: no cell of the [np.empty] buffer is left as it was. *)
Theorem march_fills (z_target z_src : list float) (fz_src : grid float)
    (increasing : bool) (ik : interp_kernel) (ek : extrap_kernel)
    (fz_target g' : grid cell) :
  In ik interp_kernels ->
  In ek extrap_kernels ->
  shape0 fz_src < 2 ^ 32 ->
  Z.of_nat (length z_target) < 2 ^ 32 ->
  grid_wf fz_target ->
  shape0 fz_target = shape0 fz_src ->
  shape1 fz_target = Z.of_nat (length z_target) ->
  gridwise_interpolation z_target z_src fz_src increasing ik ek fz_target = (g', Ok tt) ->
  grid_wf g' /\ shape0 g' = shape0 fz_target /\ shape1 g' = shape1 fz_target /\
  assigned g'.
Proof. apply gridwise_fills. Qed.

Lemma march_fills_witness :
  grid_wf (Grid [[Some 3%float; Some 5%float]] 2) /\
  shape0 (Grid [[Some 3%float; Some 5%float]] 2) = shape0 (empty_grid 1 2) /\
  shape1 (Grid [[Some 3%float; Some 5%float]] 2) = shape1 (empty_grid 1 2) /\
  assigned (Grid [[Some 3%float; Some 5%float]] 2).
Proof.
  apply (march_fills [3%float; 5%float] [2%float; 4%float; 6%float]
           (Grid [[2%float; 4%float; 6%float]] 3) true linear_interp nan_data_extrap
           (empty_grid 1 2) (Grid [[Some 3%float; Some 5%float]] 2)).
  - left. reflexivity.
  - left. reflexivity.
  - vm_compute. reflexivity.
  - vm_compute. reflexivity.
  - repeat constructor.
  - reflexivity.
  - reflexivity.
  - vm_compute. reflexivity.
Defined.

(** ** The loop that moves the window *)

Section Crossing.

Variable z_src : list float.
Variable increasing : bool.
Hypothesis z_src_small : Z.of_nat (length z_src) < 2 ^ 32.

Lemma n_src_length : n_src z_src = Z.of_nat (length z_src).
Proof. unfold n_src. apply u32_small. lia. Qed.

Lemma advance_crossing (t : float) (sb : Z) (fuel : nat) :
  forall (w : window) (sa : Z),
    0 <= i_src w < n_src z_src ->
    n_src z_src - i_src w <= Z.of_nat fuel ->
    (exists (w' : window) (sa' : Z),
       advance z_src increasing fuel t sb w sa = Ok (w', sa') /\
       z_before w' = z_before w /\
       same_side z_src t sb (i_src w) (i_src w') /\
       ((sa <> sb /\ w' = w /\ sa' = sa) \/
        (sa = sb /\ i_src w < i_src w' < n_src z_src /\ extrapolating w' = 0 /\
         zth z_src (i_src w') = Some (z_after w') /\ isnan (z_after w') = false /\
         sa' = relative_sign (z_after w') t /\ sa' <> sb) \/
        (sa = sb /\ i_src w' = n_src z_src /\ extrapolating w' = 1 /\
         z_after w' = z_last increasing /\
         sa' = relative_sign (z_last increasing) t))) \/
    (advance z_src increasing fuel t sb w sa = Err InvalidSource /\
     sa = sb /\
     exists (k : Z) (zk : float),
       i_src w < k < n_src z_src /\ zth z_src k = Some zk /\ isnan zk = true /\
       same_side z_src t sb (i_src w) k).
Proof.
  pose proof n_src_length as Hlen.
  induction fuel as [|fuel IH]; intros w sa Hi Hfuel; [lia|].
  cbn [advance].
  destruct (Z.eqb_spec sb sa) as [Hs|Hs].
  2:{ left. exists w, sa. repeat split; auto.
      intros j Hj. lia. }
  rewrite u32_small by lia.
  destruct (Z.ltb_spec (i_src w + 1) (n_src z_src)) as [Hlt|Hge].
  - destruct (lookup_lt_is_Some_2 z_src (Z.to_nat (i_src w + 1))) as [z Hz].
    { lia. }
    rewrite zth_lookup, Hz by lia. cbn [expect mbind result_bind].
    rewrite <- zth_lookup in Hz by lia.
    destruct (isnan z) eqn:Hnan.
    + right. repeat split; auto.
      exists (i_src w + 1), z. repeat split; try assumption; try lia.
      intros j Hj. lia.
    + destruct (IH (Window (z_before w) z (i_src w + 1) 0) (relative_sign z t))
        as [(w' & sa' & Hadv & Hzb & Hside & Hcases)|(Hadv & Hsa & k & zk & Hk & Hzk & Hn & Hside)];
        cbn [i_src z_before] in *; try lia.
      * left. exists w', sa'. split; [exact Hadv|]. split; [exact Hzb|].
        destruct Hcases as [(Hne & -> & ->)|[(He & Hr & Hrest)|(He & Hr & Hrest)]];
          cbn [i_src z_after extrapolating] in *.
        -- split; [intros j Hj; lia|].
           right. left. repeat split; auto; lia.
        -- split.
           { intros j Hj. destruct (Z.eq_dec j (i_src w + 1)) as [->|Hne].
             - exists z. auto.
             - apply Hside. lia. }
           right. left. repeat split; try tauto; lia.
        -- split.
           { intros j Hj. destruct (Z.eq_dec j (i_src w + 1)) as [->|Hne].
             - exists z. auto.
             - apply Hside. lia. }
           right. right. repeat split; try tauto; lia.
      * right. split; [exact Hadv|]. split; [auto|].
        exists k, zk. repeat split; try assumption; try lia.
        intros j Hj. destruct (Z.eq_dec j (i_src w + 1)) as [->|Hne].
        -- exists z. auto.
        -- apply Hside. lia.
  - left. eexists _, _. split; [reflexivity|]. cbn [z_before i_src extrapolating z_after].
    split; [reflexivity|]. split; [intros j Hj; lia|].
    right. right. repeat split; auto; lia.
Qed.

(** X5: the [while] loop of [gridwise_interpolation], for a level [t] and
    a window whose index is inside the source.  When the two edges of the
    window are on different sides of the level already, the window stays.
    Otherwise the loop moves the upper edge to the first following source
    value that is not on the side of the level where the lower edge is;
    the values it passes are not NaN and are all on that side.  When it meets
    a NaN before such a value it raises the error of the source coordinate,
    and when it meets neither it leaves the window past the end of the
    source, with the upper edge at [z_last] and the mark [1]. *)
Theorem advance_first_crossing (t : float) (sb sa : Z) (w : window) :
  0 <= i_src w < n_src z_src ->
  (exists (w' : window) (sa' : Z),
     advance z_src increasing (S (Z.to_nat (n_src z_src))) t sb w sa = Ok (w', sa') /\
     z_before w' = z_before w /\
     same_side z_src t sb (i_src w) (i_src w') /\
     ((sa <> sb /\ w' = w /\ sa' = sa) \/
      (sa = sb /\ i_src w < i_src w' < n_src z_src /\ extrapolating w' = 0 /\
       zth z_src (i_src w') = Some (z_after w') /\ isnan (z_after w') = false /\
       sa' = relative_sign (z_after w') t /\ sa' <> sb) \/
      (sa = sb /\ i_src w' = n_src z_src /\ extrapolating w' = 1 /\
       z_after w' = z_last increasing /\
       sa' = relative_sign (z_last increasing) t))) \/
  (advance z_src increasing (S (Z.to_nat (n_src z_src))) t sb w sa = Err InvalidSource /\
   sa = sb /\
   exists (k : Z) (zk : float),
     i_src w < k < n_src z_src /\ zth z_src k = Some zk /\ isnan zk = true /\
     same_side z_src t sb (i_src w) k).
Proof.
  intros Hi. apply advance_crossing; [exact Hi|lia].
Qed.

End Crossing.

(** ** The march stays inside its buffers *)

Lemma isnan_false_SF (x : float) : isnan x = false -> Prim2SF x <> S754_nan.
Proof.
  unfold isnan, is_nan. rewrite FloatAxioms.eqb_spec. intros H E.
  rewrite E in H. discriminate.
Qed.

Lemma SFcompare_None (x y : spec_float) :
  SFcompare x y = None -> x = S754_nan \/ y = S754_nan.
Proof.
  destruct x as [sx|sx| |sx mx ex], y as [sy|sy| |sy my ey]; cbn; auto; discriminate.
Qed.

(** A sign of zero between two values that are not NaN: they are equal. *)
Lemma relative_sign_zero_eqb (a b : float) :
  isnan a = false -> isnan b = false ->
  relative_sign a b = 0 -> (b =? a)%float = true.
Proof.
  intros Ha Hb. apply isnan_false_SF in Ha, Hb.
  rewrite relative_sign_compare, !ltb_spec, FloatAxioms.eqb_spec.
  unfold SFltb, SFeqb. rewrite (SFcompare_antisym (Prim2SF a) (Prim2SF b)).
  destruct (SFcompare (Prim2SF b) (Prim2SF a)) as [[]|] eqn:E; cbn; try discriminate.
  - reflexivity.
  - destruct (SFcompare_None _ _ E); contradiction.
Qed.

Lemma z_last_not_nan (increasing : bool) : isnan (z_last increasing) = false.
Proof. now destruct increasing. Qed.

(** Two source values that some level separates differ: their difference
    is not zero. *)
Lemma separated_nonzero (zp zk t0 : float) :
  relative_sign zp t0 <> relative_sign zk t0 -> (zk - zp =? 0)%float = false.
Proof.
  intros Hsep. destruct (zk - zp =? 0)%float eqn:E; [|reflexivity].
  exfalso. apply Hsep.
  rewrite FloatAxioms.eqb_spec in E. unfold SFeqb in E.
  change (Prim2SF 0) with (S754_zero false) in E.
  destruct (Prim2SF (zk - zp)) as [s|s| |s m e] eqn:Ed; cbn in E;
    try discriminate; try (destruct s; discriminate).
  destruct (sub_zero_cases _ _ _ Ed) as [->|(sk & sp & Hk & Hp)]; [reflexivity|].
  eapply relative_sign_zeros; eauto.
Qed.

Lemma source_cell (fz_src : grid float) (r k : Z) :
  grid_wf fz_src ->
  0 <= r < shape0 fz_src ->
  0 <= k < shape1 fz_src ->
  exists v, grid_get fz_src r k = Some v.
Proof.
  intros Hwf Hr Hk. unfold grid_get, shape0, shape1 in *.
  destruct (lookup_lt_is_Some_2 (grid_rows fz_src) (Z.to_nat r)) as [row Hrow]; [lia|].
  rewrite zth_lookup, Hrow by lia. cbn [mbind option_bind].
  unfold grid_wf in Hwf. rewrite Forall_lookup in Hwf. specialize (Hwf _ _ Hrow).
  destruct (lookup_lt_is_Some_2 row (Z.to_nat k)) as [v Hv]; [lia|].
  exists v. now rewrite zth_lookup by lia.
Qed.

Section KernelCalls.

Variables (z_src : list float) (fz_src : grid float).
Hypothesis z_src_small : Z.of_nat (length z_src) < 2 ^ 32.
Hypothesis fz_src_wf : grid_wf fz_src.
Hypothesis fz_src_width : shape1 fz_src = Z.of_nat (length z_src).
Hypothesis fz_src_rows : shape0 fz_src < 2 ^ 32.

Lemma copy_column_total (k : Z) (g : grid cell) (t : Z) :
  0 <= k < Z.of_nat (length z_src) ->
  holds_column g t (shape0 fz_src) ->
  exists c, assign_rows (range (u32 (shape0 fz_src)))
              (fun i => expect (grid_get fz_src i k)) (Column g t) = Ok c.
Proof.
  intros Hk Hg. rewrite u32_small by (unfold shape0 in *; lia).
  destruct (assign_rows_total (fun i => expect (grid_get fz_src i k)) g t (shape0 fz_src) Hg)
    as (vals & _ & -> & _); [|eauto].
  intros i Hi. destruct (source_cell fz_src i k fz_src_wf Hi) as [v ->]; [lia|].
  eauto.
Qed.

Lemma constant_column_total (v : float) (g : grid cell) (t : Z) :
  holds_column g t (shape0 fz_src) ->
  exists c, assign_rows (range (u32 (shape0 fz_src))) (fun _ => Ok v) (Column g t) = Ok c.
Proof.
  intros Hg. rewrite u32_small by (unfold shape0 in *; lia).
  destruct (assign_rows_total (fun _ => Ok v) g t (shape0 fz_src) Hg)
    as (vals & _ & -> & _); eauto.
Qed.

Lemma blend_column_total (p0 p1 : Z) (frac : float) (g : grid cell) (t : Z) :
  0 <= p0 < Z.of_nat (length z_src) ->
  0 <= p1 < Z.of_nat (length z_src) ->
  holds_column g t (shape0 fz_src) ->
  exists c, assign_rows (range (u32 (shape0 fz_src)))
              (fun i =>
                 f0 ← expect (grid_get fz_src i p0);
                 f1 ← expect (grid_get fz_src i p1);
                 Ok (f0 + frac * (f1 - f0))%float) (Column g t) = Ok c.
Proof.
  intros H0 H1 Hg. rewrite u32_small by (unfold shape0 in *; lia).
  match goal with
  | |- exists c, assign_rows _ ?body _ = _ =>
      destruct (assign_rows_total body g t (shape0 fz_src) Hg) as (vals & _ & -> & _);
        [|eauto]
  end.
  intros i Hi.
  destruct (source_cell fz_src i p0 fz_src_wf Hi) as [v0 ->]; [lia|].
  destruct (source_cell fz_src i p1 fz_src_wf Hi) as [v1 ->]; [lia|].
  cbn. eauto.
Qed.

(** The interpolation kernels, called at an index whose bracket is inside
    the source and is separated by some level, or at the index [0] with the
    level exactly on the first source value. *)
Lemma interp_kernels_total (ik : interp_kernel) (index : Z) (level : float)
    (g : grid cell) (t : Z) :
  In ik interp_kernels ->
  holds_column g t (shape0 fz_src) ->
  (1 <= index < Z.of_nat (length z_src) /\
   exists zp zk t0, zth z_src (index - 1) = Some zp /\ zth z_src index = Some zk /\
                    relative_sign zp t0 <> relative_sign zk t0) \/
  (index = 0 /\ exists z0, zth z_src 0 = Some z0 /\ (level =? z0)%float = true) ->
  exists c, ik index z_src fz_src level (Column g t) = Ok c.
Proof.
  intros [<-|[<-|[<-|[]]]] Hg Hcall.
  - unfold linear_interp.
    destruct Hcall as [(Hi & zp & zk & t0 & Hzp & Hzk & Hsep)|(-> & z0 & Hz0 & Heq)].
    + rewrite Hzk. cbn [expect mbind result_bind].
      destruct (level =? zk)%float; [apply copy_column_total; [lia|exact Hg]|].
      rewrite (u32_small (index - 1)) by lia. rewrite Hzp.
      cbn [expect mbind result_bind]. unfold checked_div.
      rewrite (separated_nonzero zp zk t0 Hsep). cbn [mbind result_bind].
      apply blend_column_total; [lia|lia|exact Hg].
    + rewrite Hz0. cbn [expect mbind result_bind]. rewrite Heq.
      apply zth_Some in Hz0 as [Hz0 _].
      apply copy_column_total; [lia|exact Hg].
  - unfold nearest_interp.
    destruct Hcall as [(Hi & zp & zk & t0 & Hzp & Hzk & Hsep)|(-> & z0 & Hz0 & Heq)].
    + destruct (Z.eqb_spec index 0) as [|_]; [lia|].
      rewrite (u32_small (index - 1)) by lia. rewrite Hzp, Hzk.
      cbn [expect mbind result_bind].
      destruct (_ <=? _)%float; cbn [mbind result_bind];
        apply copy_column_total; try exact Hg; lia.
    + cbn [Z.eqb mbind result_bind].
      apply zth_Some in Hz0 as [Hz0 _].
      apply copy_column_total; [lia|exact Hg].
  - unfold _testable_indez_interp. now apply constant_column_total.
Qed.

(** The extrapolation kernels: only the linear one can fail. *)
Lemma extrap_kernels_total (ek : extrap_kernel) (direction : Z) (level : float)
    (g : grid cell) (t : Z) :
  In ek extrap_kernels ->
  1 <= Z.of_nat (length z_src) ->
  holds_column g t (shape0 fz_src) ->
  (exists c, ek direction z_src fz_src level (Column g t) = Ok c) \/
  (ek = linear_extrap /\
   (ek direction z_src fz_src level (Column g t) = Err InsufficientData \/
    ek direction z_src fz_src level (Column g t) = Err ZeroDivision)).
Proof.
  intros [<-|[<-|[<-|[<-|[]]]]] Hn Hg.
  - left. unfold nan_data_extrap. now apply constant_column_total.
  - left. unfold nearest_edge_extrap. rewrite fz_src_width.
    rewrite (u32_small (Z.of_nat (length z_src) - 1)) by lia.
    destruct (direction <? 0); apply copy_column_total; try exact Hg; lia.
  - unfold linear_extrap. rewrite fz_src_width.
    rewrite (u32_small (Z.of_nat (length z_src))) by lia.
    destruct (Z.ltb_spec (Z.of_nat (length z_src)) 2) as [|Hge]; [right; auto|].
    rewrite (u32_small (Z.of_nat (length z_src) - 2)) by lia.
    rewrite (u32_small (Z.of_nat (length z_src) - 1)) by lia.
    assert (forall p0 p1,
              0 <= p0 < Z.of_nat (length z_src) -> 0 <= p1 < Z.of_nat (length z_src) ->
              (exists c,
                 (z0 ← expect (zth z_src p0);
                  z1 ← expect (zth z_src p1);
                  frac ← checked_div (level - z0)%float (z1 - z0)%float;
                  assign_rows (range (u32 (shape0 fz_src)))
                    (fun i =>
                       f0 ← expect (grid_get fz_src i p0);
                       f1 ← expect (grid_get fz_src i p1);
                       Ok (f0 + frac * (f1 - f0))%float) (Column g t)) = Ok c) \/
              (z0 ← expect (zth z_src p0);
               z1 ← expect (zth z_src p1);
               frac ← checked_div (level - z0)%float (z1 - z0)%float;
               assign_rows (range (u32 (shape0 fz_src)))
                 (fun i =>
                    f0 ← expect (grid_get fz_src i p0);
                    f1 ← expect (grid_get fz_src i p1);
                    Ok (f0 + frac * (f1 - f0))%float) (Column g t)) = Err ZeroDivision)
      as Hblend.
    { intros p0 p1 H0 H1.
      destruct (lookup_lt_is_Some_2 z_src (Z.to_nat p0)) as [z0 Hz0]; [lia|].
      destruct (lookup_lt_is_Some_2 z_src (Z.to_nat p1)) as [z1 Hz1]; [lia|].
      rewrite !zth_lookup, Hz0, Hz1 by lia. cbn [expect mbind result_bind].
      unfold checked_div. destruct (_ =? 0)%float; cbn [mbind result_bind]; [right; auto|].
      left. now apply blend_column_total. }
    destruct (direction <? 0).
    + destruct (Hblend 0 1) as [H|H]; [lia|lia|left; exact H|right; auto].
    + destruct (Hblend (Z.of_nat (length z_src) - 2) (Z.of_nat (length z_src) - 1))
        as [H|H]; [lia|lia|left; exact H|right; auto].
  - left. unfold _testable_direction_extrap. now apply constant_column_total.
Qed.

End KernelCalls.

Section Safety.

Variables (z_target z_src : list float) (fz_src : grid float).
Variable increasing : bool.
Variable ik : interp_kernel.
Variable ek : extrap_kernel.
Hypothesis ik_module : In ik interp_kernels.
Hypothesis ek_module : In ek extrap_kernels.
Hypothesis src_nonempty : 1 <= Z.of_nat (length z_src).
Hypothesis counters_small :
  Z.of_nat (length z_src) + Z.of_nat (length z_target) < 2 ^ 32.
Hypothesis fz_src_wf : grid_wf fz_src.
Hypothesis fz_src_width : shape1 fz_src = Z.of_nat (length z_src).
Hypothesis fz_src_rows : shape0 fz_src < 2 ^ 32.
Hypothesis targets_inside :
  Forall (fun t => (t =? z_last increasing)%float = false) z_target.

(** The loop moves the index forwards, to the end of the source at most
    when it starts inside, and by one when it starts past the end. *)
Lemma advance_index (fuel : nat) (t : float) (sb : Z) :
  forall (w : window) (sa : Z) (w' : window) (sa' : Z),
    0 <= i_src w -> i_src w + 1 < 2 ^ 32 ->
    (extrapolating w = 0 -> 1 <= i_src w) ->
    advance z_src increasing fuel t sb w sa = Ok (w', sa') ->
    (extrapolating w' = 0 -> 1 <= i_src w') /\
    i_src w' <= Z.max (i_src w + 1) (n_src z_src).
Proof.
  pose proof (n_src_length z_src ltac:(lia)) as Hlen.
  induction fuel as [|fuel IH]; intros w sa w' sa' H0 Hsmall Hin; cbn [advance].
  - destruct (sb =? sa); [discriminate|]. intros [= <- <-]. split; [exact Hin|lia].
  - destruct (sb =? sa); [|intros [= <- <-]; split; [exact Hin|lia]].
    rewrite u32_small by lia.
    destruct (Z.ltb_spec (i_src w + 1) (n_src z_src)) as [Hlt|Hge].
    + destruct (zth z_src (i_src w + 1)) as [z|]; cbn [expect mbind result_bind];
        [|discriminate].
      destruct (isnan z); [discriminate|].
      intros Hadv. apply IH in Hadv as [Hin' Hle]; cbn [i_src extrapolating] in *; lia.
    + intros [= <- <-]. cbn. split; lia.
Qed.

(** One level of a sound march. *)
Lemma level_step_safe (w : window) (i_target : Z) (g g' : grid cell) (r : result window) :
  window_safe z_src increasing w ->
  i_src w + 1 < 2 ^ 32 ->
  0 <= i_target < Z.of_nat (length z_target) ->
  holds_column g i_target (shape0 fz_src) ->
  level_step z_target z_src fz_src increasing ik ek w i_target g = (g', r) ->
  (exists w'', r = Ok w'' /\ window_safe z_src increasing w'' /\
               i_src w'' <= Z.max (i_src w + 1) (n_src z_src)) \/
  r = Err InvalidTarget \/
  (r = Err InvalidSource /\ Exists (fun z => isnan z = true) z_src) \/
  (ek = linear_extrap /\ (r = Err InsufficientData \/ r = Err ZeroDivision)).
Proof.
  intros (Hok & Hbr & Hin & Hfirst) Hsmall Hit Hg.
  pose proof (n_src_length z_src ltac:(lia)) as Hlen.
  unfold level_step.
  destruct (lookup_lt_is_Some_2 z_target (Z.to_nat i_target)) as [t Ht]; [lia|].
  rewrite zth_lookup, Ht by lia.
  destruct (isnan t) eqn:Hnan; [intros [= <- <-]; auto|].
  destruct (advance _ _ _ _ _ _ _) as [[w' sa']|e] eqn:Hadv.
  2:{ intros [= <- <-]. destruct (advance_errors _ _ _ _ _ _ _ _ Hadv) as [->| ->];
        [right; right; left; split; [reflexivity|eapply advance_nan; exact Hadv]|].
      exfalso. revert Hadv. apply advance_total. }
  destruct (advance_window _ _ _ _ _ _ _ _ _ Hok eq_refl Hadv) as (Hok' & Hzb & Hsa' & Hstay).
  pose proof (advance_bracketed _ _ _ _ _ _ _ _ _ Hok eq_refl (fun _ => Hbr) Hadv) as Hbr'.
  assert (0 <= i_src w) as Hi0.
  { destruct Hok as [(_&E&_)|[(_&?&_)|(_&?&_)]]; lia. }
  destruct (advance_index _ _ _ _ _ _ _ Hi0 Hsmall Hin Hadv) as [Hin' Hle].
  assert (window_safe z_src increasing
            (Window t (z_after w') (i_src w') (extrapolating w'))) as Hsafe.
  { repeat split.
    - destruct Hok' as [(?&?&?)|[(?&?&?)|(?&?&?)]];
        [left|right; left|right; right]; cbn; auto.
    - exact Hbr'.
    - exact Hin'.
    - cbn. intros E. rewrite (Hstay E). apply Hfirst. now rewrite <- (Hstay E). }
  assert (forall c : result column,
            ((exists c', c = Ok c') \/
             (ek = linear_extrap /\ (c = Err InsufficientData \/ c = Err ZeroDivision))) ->
            forall g1 r1,
              settle g t w' c = (g1, r1) ->
              (exists w'', r1 = Ok w'' /\ window_safe z_src increasing w'' /\
                           i_src w'' <= Z.max (i_src w + 1) (n_src z_src)) \/
              r1 = Err InvalidTarget \/
              (r1 = Err InvalidSource /\ Exists (fun z => isnan z = true) z_src) \/
              (ek = linear_extrap /\ (r1 = Err InsufficientData \/ r1 = Err ZeroDivision)))
    as Hsettle.
  { intros c [[c' ->]|[Hek [-> | ->]]] g1 r1; cbn [settle]; intros [= <- <-].
    - left. eexists. split; [reflexivity|]. split; [exact Hsafe|exact Hle].
    - right. right. right. auto.
    - right. right. right. auto. }
  intros Hres. eapply Hsettle; [|exact Hres].
  destruct (Z.eqb_spec (extrapolating w') 0) as [E0|E0]; cbn [orb].
  { left. apply (interp_kernels_total z_src fz_src ltac:(lia) fz_src_wf fz_src_width
                   fz_src_rows ik _ _ _ _ ik_module Hg).
    left. destruct Hok' as [(?&?&?)|[(_&Hr&Hz)|(?&?&?)]]; try lia.
    specialize (Hin' E0).
    split; [lia|]. destruct (Hbr' ltac:(lia)) as (zp & zk & t0 & Hzp & Hzk & Hsep).
    exists zp, zk, t0. auto. }
  destruct (Z.eqb_spec sa' 0) as [Es|Es].
  { left. apply (interp_kernels_total z_src fz_src ltac:(lia) fz_src_wf fz_src_width
                   fz_src_rows ik _ _ _ _ ik_module Hg).
    right. destruct Hok' as [(E&Hi&Hz)|[(?&?&?)|(E&Hi&Hz)]]; try lia.
    - split; [exact Hi|]. exists (z_after w'). rewrite Hi in *. split; [exact Hz|].
      apply relative_sign_zero_eqb; try assumption; [|congruence].
      rewrite (Hstay E). apply Hfirst. now rewrite <- (Hstay E).
    - exfalso. rewrite Forall_lookup in targets_inside.
      specialize (targets_inside _ _ Ht). cbv beta in targets_inside.
      rewrite relative_sign_zero_eqb in targets_inside; try discriminate; try assumption.
      + apply z_last_not_nan.
      + congruence. }
  destruct (extrap_kernels_total z_src fz_src ltac:(lia) fz_src_wf fz_src_width fz_src_rows
              ek (extrapolating w') t g i_target ek_module src_nonempty Hg)
    as [H|(Hek & H)]; [left; exact H|right].
  split; [exact Hek|]. destruct H as [-> | ->]; auto.
Qed.

Lemma levels_safe (n : nat) :
  forall (k : nat) (w : window) (g g' : grid cell) (r : result window),
    window_safe z_src increasing w ->
    i_src w <= Z.of_nat (length z_src) + Z.of_nat k ->
    (k + n <= length z_target)%nat ->
    grid_wf g ->
    shape0 g = shape0 fz_src ->
    grid_width g = Z.of_nat (length z_target) ->
    levels z_target z_src fz_src increasing ik ek (Z.of_nat <$> seq k n) w g = (g', r) ->
    (exists w', r = Ok w') \/
    r = Err InvalidTarget \/
    (r = Err InvalidSource /\ Exists (fun z => isnan z = true) z_src) \/
    (ek = linear_extrap /\ (r = Err InsufficientData \/ r = Err ZeroDivision)).
Proof.
  pose proof (n_src_length z_src ltac:(lia)) as Hlen.
  induction n as [|n IH]; intros k w g g' r Hsafe Hbound Hk Hwf Hrows Hwidth;
    cbn [seq fmap list_fmap levels].
  - intros [= <- <-]. eauto.
  - destruct (level_step _ _ _ _ _ _ w (Z.of_nat k) g) as [g1 r1] eqn:Hstep.
    assert (holds_column g (Z.of_nat k) (shape0 fz_src)) as Hg
      by (repeat split; try assumption; lia).
    pose proof Hstep as Hstep'.
    apply level_step_safe in Hstep'
      as [(w1 & -> & Hsafe1 & Hle)|[-> |[[-> Hnan] |(Hek & [-> | ->])]]];
      try assumption; try lia;
      try (intros [= <- <-]; eauto 10).
    intros Hrest.
    destruct (level_step_writes z_target z_src fz_src increasing ik ek
                (interp_kernels_write ik ik_module) (extrap_kernels_write ek ek_module)
                fz_src_rows _ _ _ _ _ Hg Hstep) as (vals & _ & ->).
    apply IH in Hrest; try assumption; try lia.
    + now apply with_column_wf.
    + now rewrite with_column_shape0.
Qed.

End Safety.

(** The march of a column stays inside its buffers, and the error of the
    source coordinate is raised on a NaN of the source only. *)
Lemma gridwise_in_bounds (z_target z_src : list float) (fz_src : grid float)
    (increasing : bool) (ik : interp_kernel) (ek : extrap_kernel)
    (fz_target g' : grid cell) (r : result unit) :
  In ik interp_kernels ->
  In ek extrap_kernels ->
  1 <= Z.of_nat (length z_src) ->
  Z.of_nat (length z_src) + Z.of_nat (length z_target) < 2 ^ 32 ->
  grid_wf fz_src ->
  shape1 fz_src = Z.of_nat (length z_src) ->
  shape0 fz_src < 2 ^ 32 ->
  grid_wf fz_target ->
  shape0 fz_target = shape0 fz_src ->
  shape1 fz_target = Z.of_nat (length z_target) ->
  (exists z0, zth z_src 0 = Some z0 /\ isnan z0 = false) \/
  Forall (fun z => isnan z = true) z_src ->
  Forall (fun t => (t =? z_last increasing)%float = false) z_target ->
  gridwise_interpolation z_target z_src fz_src increasing ik ek fz_target = (g', r) ->
  r = Ok tt \/ r = Err InvalidTarget \/
  (r = Err InvalidSource /\ Exists (fun z => isnan z = true) z_src) \/
  (ek = linear_extrap /\ (r = Err InsufficientData \/ r = Err ZeroDivision)).
Proof.
  intros Hik Hek Hne Hsmall Hswf Hsw Hsr Hwf Hrows Hwidth Hfirst Htargets.
  destruct (lookup_lt_is_Some_2 z_src 0) as [z0 Hz0]; [lia|].
  change (zth z_src 0 = Some z0) in Hz0.
  unfold gridwise_interpolation, n_target, n_src.
  rewrite !u32_small by lia. rewrite Hz0. cbn [expect mbind result_bind].
  assert (forall w g1 r1,
            window_safe z_src increasing w -> i_src w <= Z.of_nat (length z_src) ->
            levels z_target z_src fz_src increasing ik ek
              (range (Z.of_nat (length z_target))) w fz_target = (g1, r1) ->
            (exists w', r1 = Ok w') \/
            r1 = Err InvalidTarget \/
            (r1 = Err InvalidSource /\ Exists (fun z => isnan z = true) z_src) \/
            (ek = linear_extrap /\ (r1 = Err InsufficientData \/ r1 = Err ZeroDivision)))
    as Hlevels.
  { intros w g1 r1 Hsafe Hi. unfold range. rewrite Nat2Z.id.
    apply (levels_safe z_target z_src fz_src increasing ik ek); try assumption; lia. }
  destruct (Z.eqb_spec (Z.of_nat (length z_target)) 0) as [E0|E0]; cbn [negb].
  - destruct z_target; [|discriminate]. cbn. intros [= <- <-]. auto.
  - destruct (isnan z0) eqn:Hnan0.
    + destruct Hfirst as [(z0' & Hz0' & Hnan0')|Hall]; [congruence|].
      rewrite scan_nans_all.
      * destruct fz_target as [rows w]. unfold shape0, shape1 in *.
        cbn [grid_rows grid_width] in *.
        rewrite u32_small by lia. unfold range at 1. rewrite Nat2Z.id.
        rewrite (nan_rows_from z_target w ltac:(lia) (length rows) 0 rows).
        -- intros [= <- <-]. auto.
        -- lia.
        -- unfold grid_wf in Hwf. cbn in Hwf.
           eapply Forall_impl; [exact Hwf|]. cbn. intros row Hrow. lia.
      * apply Forall_forall. intros i Hi. apply range_lookup in Hi.
        rewrite zth_lookup by lia.
        destruct (lookup_lt_is_Some_2 z_src (Z.to_nat i)) as [z Hz]; [lia|].
        exists z. split; [exact Hz|].
        rewrite Forall_lookup in Hall. eapply Hall, Hz.
    + destruct (levels _ _ _ _ _ _ _ _ _) as [g1 r1] eqn:Hlev.
      apply Hlevels in Hlev.
      * destruct Hlev as [(w' & ->)|[-> |[[-> Hnan] |(E & [-> | ->])]]];
          intros [= <- <-]; eauto 10.
      * repeat split.
        -- now apply first_window_ok.
        -- unfold bracketed. cbn. lia.
        -- cbn. lia.
        -- cbn. auto.
      * cbn. lia.
Qed.

(** X6: the march of a column stays inside its buffers.  With kernels of
    the module, a source column that has at least one value and whose first
    value is not NaN (or whose values are all NaN), source data as wide as the
    column, a buffer of [fz_src.shape[0]] rows and one column per level, and
    no level equal to [z_last] (the infinity past the end of the source), no
    access of [gridwise_interpolation] or of a kernel falls outside an array,
    and the march returns normally or raises one of: the error of a NaN target
    level, the error of a NaN source value and, under linear extrapolation
    only, the error of a source of fewer than two points or a division by
    zero.  Under the other extrapolation kernels no division by zero is
    raised, also not by the linear interpolation kernel. *)
Theorem march_in_bounds (z_target z_src : list float) (fz_src : grid float)
    (increasing : bool) (ik : interp_kernel) (ek : extrap_kernel)
    (fz_target g' : grid cell) (r : result unit) :
  In ik interp_kernels ->
  In ek extrap_kernels ->
  1 <= Z.of_nat (length z_src) ->
  Z.of_nat (length z_src) + Z.of_nat (length z_target) < 2 ^ 32 ->
  grid_wf fz_src ->
  shape1 fz_src = Z.of_nat (length z_src) ->
  shape0 fz_src < 2 ^ 32 ->
  grid_wf fz_target ->
  shape0 fz_target = shape0 fz_src ->
  shape1 fz_target = Z.of_nat (length z_target) ->
  (exists z0, zth z_src 0 = Some z0 /\ isnan z0 = false) \/
  Forall (fun z => isnan z = true) z_src ->
  Forall (fun t => (t =? z_last increasing)%float = false) z_target ->
  gridwise_interpolation z_target z_src fz_src increasing ik ek fz_target = (g', r) ->
  r = Ok tt \/ r = Err InvalidTarget \/ r = Err InvalidSource \/
  (ek = linear_extrap /\ (r = Err InsufficientData \/ r = Err ZeroDivision)).
Proof.
  intros Hik Hek Hne Hsmall Hswf Hsw Hsr Hwf Hrows Hwidth Hfirst Htargets Hrun.
  destruct (gridwise_in_bounds _ _ _ _ _ _ _ _ _ Hik Hek Hne Hsmall Hswf Hsw Hsr Hwf Hrows
              Hwidth Hfirst Htargets Hrun) as [-> |[-> |[[-> _] |H]]]; auto.
Qed.

Lemma march_in_bounds_witness :
  Err InsufficientData = Ok tt \/
  @Err unit InsufficientData = Err InvalidTarget \/
  @Err unit InsufficientData = Err InvalidSource \/
  (linear_extrap = linear_extrap /\
   (@Err unit InsufficientData = Err InsufficientData \/
    @Err unit InsufficientData = Err ZeroDivision)).
Proof.
  apply (march_in_bounds [3%float] [2%float] (Grid [[20%float]] 1) true
           linear_interp linear_extrap (empty_grid 1 1) (empty_grid 1 1)
           (Err InsufficientData)).
  - left. reflexivity.
  - right. right. left. reflexivity.
  - vm_compute. discriminate.
  - vm_compute. reflexivity.
  - repeat constructor.
  - reflexivity.
  - vm_compute. reflexivity.
  - repeat constructor.
  - reflexivity.
  - reflexivity.
  - left. exists 2%float. split; reflexivity.
  - repeat constructor.
  - vm_compute. reflexivity.
Defined.

Lemma advance_first_crossing_witness :
  (exists (w' : window) (sa' : Z),
     advance [2%float; 4%float; 6%float] true
       (S (Z.to_nat (n_src [2%float; 4%float; 6%float]))) 5%float (-1)
       (first_window true 2%float) (-1) = Ok (w', sa') /\
     z_before w' = z_before (first_window true 2%float) /\
     same_side [2%float; 4%float; 6%float] 5%float (-1)
       (i_src (first_window true 2%float)) (i_src w') /\
     ((-1 <> -1 /\ w' = first_window true 2%float /\ sa' = -1) \/
      (-1 = -1 /\
       i_src (first_window true 2%float) < i_src w' < n_src [2%float; 4%float; 6%float] /\
       extrapolating w' = 0 /\
       zth [2%float; 4%float; 6%float] (i_src w') = Some (z_after w') /\
       isnan (z_after w') = false /\
       sa' = relative_sign (z_after w') 5%float /\ sa' <> -1) \/
      (-1 = -1 /\ i_src w' = n_src [2%float; 4%float; 6%float] /\ extrapolating w' = 1 /\
       z_after w' = z_last true /\
       sa' = relative_sign (z_last true) 5%float))) \/
  (advance [2%float; 4%float; 6%float] true
     (S (Z.to_nat (n_src [2%float; 4%float; 6%float]))) 5%float (-1)
     (first_window true 2%float) (-1) = Err InvalidSource /\
   -1 = -1 /\
   exists (k : Z) (zk : float),
     i_src (first_window true 2%float) < k < n_src [2%float; 4%float; 6%float] /\
     zth [2%float; 4%float; 6%float] k = Some zk /\ isnan zk = true /\
     same_side [2%float; 4%float; 6%float] 5%float (-1)
       (i_src (first_window true 2%float)) k).
Proof.
  apply (advance_first_crossing [2%float; 4%float; 6%float] true).
  - vm_compute. reflexivity.
  - vm_compute. split; [discriminate|reflexivity].
Defined.

(** ** Source columns and levels that the march does not cope with *)

Lemma isnan_true_SF (x : float) : isnan x = true -> Prim2SF x = S754_nan.
Proof.
  unfold isnan, is_nan. rewrite FloatAxioms.eqb_spec. unfold SFeqb.
  destruct (Prim2SF x) as [s|s| |s m e]; cbn [SFcompare]; try reflexivity;
    try (destruct s; discriminate).
  rewrite Z.compare_refl, Pos.compare_cont_refl. destruct s; discriminate.
Qed.

Lemma relative_sign_nan (z t : float) : isnan z = true -> relative_sign z t = 0.
Proof.
  intros H. apply isnan_true_SF in H.
  rewrite relative_sign_compare, !ltb_spec, H. unfold SFltb.
  now destruct (Prim2SF t).
Qed.

Lemma z_first_not_nan (increasing : bool) : isnan (z_first increasing) = false.
Proof. now destruct increasing. Qed.

Section Unsound.

Variables (z_src : list float) (fz_src : grid float).
Variable increasing : bool.
Variable ek : extrap_kernel.
Hypothesis z_src_small : Z.of_nat (length z_src) < 2 ^ 32.

(** X7: a NaN at the head of a source column that is not all NaN is not
    reported.  The first level, when it is neither NaN nor the infinity
    [z_first] the march starts from, is handed to the interpolation kernel
    at the index [0], and the linear kernel, for which the level is not on
    [z_src[0]], goes on to read [z_src[index - 1]] with the [unsigned int]
    index [0]: an access outside the column, which the module does not
    check. *)
Theorem nan_first_source_unchecked (z0 t : float) (zs rest : list float) (g : grid cell) :
  z_src = z0 :: zs ->
  isnan z0 = true ->
  Exists (fun z => isnan z = false) zs ->
  isnan t = false ->
  (t =? z_first increasing)%float = false ->
  Z.of_nat (length (t :: rest)) < 2 ^ 32 ->
  gridwise_interpolation (t :: rest) z_src fz_src increasing linear_interp ek g
  = (g, Err OutOfBounds).
Proof.
  intros Hsrc Hnan0 Hex Hnan Hne Hsmall.
  assert (zth z_src 0 = Some z0) as Hz0 by (now rewrite Hsrc).
  rewrite (gridwise_levels (t :: rest) z_src fz_src increasing linear_interp ek z0 g);
    try assumption; try discriminate.
  2:{ rewrite Hsrc. now apply Exists_cons_tl. }
  unfold n_target. rewrite u32_small by lia.
  unfold range. rewrite Nat2Z.id. cbn [length seq fmap list_fmap levels].
  unfold level_step. change (zth (t :: rest) (Z.of_nat 0)) with (Some t).
  cbv beta iota. rewrite Hnan. unfold first_window. cbn [z_before z_after].
  rewrite (relative_sign_nan z0 t Hnan0).
  assert (relative_sign (z_first increasing) t <> 0) as Hsb.
  { intros E. apply relative_sign_zero_eqb in E; try assumption; [congruence|].
    apply z_first_not_nan. }
  cbn [advance]. destruct (Z.eqb_spec (relative_sign (z_first increasing) t) 0) as [|_];
    [contradiction|].
  cbn [extrapolating i_src Z.eqb orb]. unfold linear_interp.
  rewrite Hz0. cbn [expect mbind result_bind].
  assert ((t =? z0)%float = false) as ->.
  { rewrite FloatAxioms.eqb_spec, (isnan_true_SF z0 Hnan0). unfold SFeqb.
    now destruct (Prim2SF t). }
  change (u32 (0 - 1)) with 4294967295.
  assert (zth z_src 4294967295 = None) as ->.
  { rewrite zth_lookup by lia. apply lookup_ge_None. lia. }
  reflexivity.
Qed.

Lemma below_last (z : float) :
  isnan z = false ->
  (z =? z_last increasing)%float = false ->
  relative_sign z (z_last increasing)
  = relative_sign (z_first increasing) (z_last increasing).
Proof.
  intros Hnan Hne. apply isnan_false_SF in Hnan.
  rewrite FloatAxioms.eqb_spec in Hne. unfold SFeqb in Hne.
  rewrite (relative_sign_compare z), !ltb_spec. unfold SFltb.
  rewrite (SFcompare_antisym (Prim2SF (z_last increasing)) (Prim2SF z)).
  destruct increasing.
  - change (Prim2SF (z_last true)) with (S754_infinity false) in *.
    destruct (Prim2SF z) as [s|s| |s m e]; try contradiction; try reflexivity.
    destruct s; [reflexivity|discriminate].
  - change (Prim2SF (z_last false)) with (S754_infinity true) in *.
    destruct (Prim2SF z) as [s|s| |s m e]; try contradiction; try reflexivity.
    destruct s; [discriminate|reflexivity].
Qed.

(** X8: a level that is the infinity [z_last] past the end of the source
    is not extrapolated.  When no source value is NaN or that infinity, the
    window runs off the end of the source for such a level, the sign of its
    upper edge [z_last] relative to the level is zero (the difference of two
    equal infinities is NaN), and the interpolation kernel is called with the
    index [n_src]: the linear and the nearest-neighbour kernel then read
    [z_src[n_src]], an access outside the column, which the module does not
    check. *)
Theorem level_on_last_edge (ik : interp_kernel) (rest : list float) (g : grid cell) :
  ik = linear_interp \/ ik = nearest_interp ->
  z_src <> [] ->
  Forall (fun z => isnan z = false /\ (z =? z_last increasing)%float = false) z_src ->
  Z.of_nat (length (z_last increasing :: rest)) < 2 ^ 32 ->
  gridwise_interpolation (z_last increasing :: rest) z_src fz_src increasing ik ek g
  = (g, Err OutOfBounds).
Proof.
  intros Hik Hne Hall Hsmall.
  destruct z_src as [|z0 zs] eqn:Hsrc; [contradiction|]. rewrite <- Hsrc in *.
  assert (zth z_src 0 = Some z0) as Hz0 by (now rewrite Hsrc).
  assert (isnan z0 = false /\ (z0 =? z_last increasing)%float = false) as [Hnan0 Hne0].
  { rewrite Hsrc in Hall. now inversion Hall. }
  pose proof (n_src_length z_src z_src_small) as Hlen.
  assert (1 <= Z.of_nat (length z_src)) as Hpos by (rewrite Hsrc; cbn [length]; lia).
  rewrite (gridwise_levels (z_last increasing :: rest) z_src fz_src increasing ik ek z0 g);
    try assumption; try discriminate.
  2:{ rewrite Hsrc at 1. now apply Exists_cons_hd. }
  unfold n_target. rewrite u32_small by lia.
  unfold range. rewrite Nat2Z.id. cbn [length seq fmap list_fmap levels].
  unfold level_step.
  change (zth (z_last increasing :: rest) (Z.of_nat 0)) with (Some (z_last increasing)).
  cbv beta iota. rewrite z_last_not_nan. unfold first_window. cbn [z_before z_after].
  rewrite (below_last z0 Hnan0 Hne0).
  set (sb := relative_sign (z_first increasing) (z_last increasing)).
  destruct (advance_crossing z_src increasing z_src_small (z_last increasing) sb
              (S (Z.to_nat (n_src z_src))) (Window (z_first increasing) z0 0 (-1)) sb)
    as [(w' & sa' & Hadv & _ & Hside & Hcases)|(_ & _ & k & zk & Hk & Hzk & Hnk & _)];
    [cbn [i_src]; lia|cbn [i_src]; lia| |].
  2:{ exfalso. apply zth_Some in Hzk as [_ Hzk].
      rewrite Forall_lookup in Hall. destruct (Hall _ _ Hzk). congruence. }
  rewrite Hadv.
  destruct Hcases as [(Habs & _)|[(_ & Hi & _ & Hz & _ & Hsa & Hdiff)|(_ & Hi & He & Hz & Hsa)]].
  - contradiction.
  - exfalso. apply Hdiff. rewrite Hsa. unfold sb. apply below_last.
    + apply zth_Some in Hz as [_ Hz]. rewrite Forall_lookup in Hall.
      now destruct (Hall _ _ Hz).
    + apply zth_Some in Hz as [_ Hz]. rewrite Forall_lookup in Hall.
      now destruct (Hall _ _ Hz).
  - assert (sa' = 0) as -> by (rewrite Hsa; now destruct increasing).
    rewrite He, Hi, Hlen. cbn [Z.eqb orb].
    assert (zth z_src (Z.of_nat (length z_src)) = None) as Hout.
    { rewrite zth_nat. now apply lookup_ge_None. }
    destruct Hik as [-> | ->].
    + unfold linear_interp. rewrite Hout. reflexivity.
    + unfold nearest_interp.
      destruct (Z.eqb_spec (Z.of_nat (length z_src)) 0) as [|_]; [lia|].
      rewrite Hout.
      destruct (zth z_src (u32 (Z.of_nat (length z_src) - 1))); reflexivity.
Qed.

End Unsound.

Lemma nan_first_source_unchecked_witness :
  gridwise_interpolation [0.5%float] [NAN; 1%float] (Grid [[10%float; 20%float]] 2)
    true linear_interp nan_data_extrap (empty_grid 1 1)
  = (empty_grid 1 1, Err OutOfBounds).
Proof.
  apply (nan_first_source_unchecked [NAN; 1%float] (Grid [[10%float; 20%float]] 2)
           true nan_data_extrap) with (z0 := NAN) (zs := [1%float]).
  - vm_compute. reflexivity.
  - reflexivity.
  - reflexivity.
  - constructor. reflexivity.
  - reflexivity.
  - reflexivity.
  - vm_compute. reflexivity.
Defined.

Lemma level_on_last_edge_witness :
  gridwise_interpolation [z_last true] [1%float; 2%float] (Grid [[10%float; 20%float]] 2)
    true linear_interp nearest_edge_extrap (empty_grid 1 1)
  = (empty_grid 1 1, Err OutOfBounds).
Proof.
  apply (level_on_last_edge [1%float; 2%float] (Grid [[10%float; 20%float]] 2)
           true nearest_edge_extrap).
  - vm_compute. reflexivity.
  - left. reflexivity.
  - discriminate.
  - repeat constructor.
  - vm_compute. reflexivity.
Defined.

(** ** The columns of the working arrays *)

Lemma radix_inj (a b a' b' q : Z) :
  0 <= b < q -> 0 <= b' < q -> a * q + b = a' * q + b' -> a = a' /\ b = b'.
Proof. intros Hb Hb' E. assert (a = a') by nia. subst. lia. Qed.

Lemma offset4_inj (ni n nj r i k j r' i' k' j' : Z) :
  0 <= i < ni -> 0 <= i' < ni -> 0 <= k < n -> 0 <= k' < n ->
  0 <= j < nj -> 0 <= j' < nj ->
  ((r * ni + i) * n + k) * nj + j = ((r' * ni + i') * n + k') * nj + j' ->
  r = r' /\ i = i' /\ k = k' /\ j = j'.
Proof.
  intros Hi Hi' Hk Hk' Hj Hj' E.
  apply radix_inj in E as [E ->]; try assumption.
  apply radix_inj in E as [E ->]; try assumption.
  apply radix_inj in E as [-> ->]; try assumption.
  auto.
Qed.

Lemma offset4_nonneg (ni n nj r i k j : Z) :
  0 <= r -> 0 <= i < ni -> 0 <= k < n -> 0 <= j < nj ->
  0 <= ((r * ni + i) * n + k) * nj + j.
Proof. intros. assert (0 <= r * ni) by nia. assert (0 <= (r * ni + i) * n) by nia. nia. Qed.

Section Put.

Variables ni n nj i j : Z.
Hypothesis i_range : 0 <= i < ni.
Hypothesis j_range : 0 <= j < nj.

Lemma put_row_length (r : Z) (row : list cell) (cells : list cell) :
  length (put_row ni n nj r i j row cells) = length cells.
Proof.
  unfold put_row. generalize (zip (range n) row). intros l. revert cells.
  induction l as [|x l IH]; intros cells; cbn [foldl]; [reflexivity|].
  now rewrite IH, length_insert.
Qed.

(** A row is put at the offsets of its own cells only. *)
Lemma put_row_other (r : Z) (row : list cell) (cells : list cell) (p : nat) :
  (forall k, 0 <= k < n -> p <> Z.to_nat (((r * ni + i) * n + k) * nj + j)) ->
  put_row ni n nj r i j row cells !! p = cells !! p.
Proof.
  intros Hp. unfold put_row.
  assert (Forall (fun kc => 0 <= kc.1 < n) (zip (range n) row)) as Hl.
  { apply Forall_forall. intros [k c] Hin. apply elem_of_zip_l in Hin.
    now apply range_lookup in Hin. }
  revert cells. induction Hl as [|[k c] l Hk _ IH]; intros cells; cbn [foldl];
    [reflexivity|].
  rewrite IH. apply list_lookup_insert_ne. cbn [fst] in *. intros E. now apply (Hp k).
Qed.

Lemma put_row_from (r : Z) (Hr : 0 <= r) :
  forall (row : list cell) (s : nat) (cells : list cell) (k : nat) (c : cell),
    Z.of_nat (s + length row) <= n ->
    row !! k = Some c ->
    (Z.to_nat (((r * ni + i) * n + Z.of_nat (s + k)) * nj + j) < length cells)%nat ->
    foldl (fun acc kc => <[Z.to_nat (((r * ni + i) * n + kc.1) * nj + j) := kc.2]> acc)
      cells (zip (Z.of_nat <$> seq s (length row)) row)
    !! Z.to_nat (((r * ni + i) * n + Z.of_nat (s + k)) * nj + j) = Some c.
Proof.
  induction row as [|c0 row IH]; intros s cells k c Hn Hk Hlen; [discriminate|].
  cbn [length seq fmap list_fmap zip zip_with foldl fst snd].
  destruct k as [|k].
  - injection Hk as ->. rewrite Nat.add_0_r.
    assert (foldl (fun acc kc => <[Z.to_nat (((r * ni + i) * n + kc.1) * nj + j) := kc.2]> acc)
              (<[Z.to_nat (((r * ni + i) * n + Z.of_nat s) * nj + j) := c]> cells)
              (zip (Z.of_nat <$> seq (S s) (length row)) row)
            !! Z.to_nat (((r * ni + i) * n + Z.of_nat s) * nj + j)
            = <[Z.to_nat (((r * ni + i) * n + Z.of_nat s) * nj + j) := c]> cells
              !! Z.to_nat (((r * ni + i) * n + Z.of_nat s) * nj + j)) as ->.
    { assert (Forall (fun kc => Z.of_nat s < kc.1 < n)
                (zip (Z.of_nat <$> seq (S s) (length row)) row)) as Hl.
      { apply Forall_forall. intros [k' c'] Hin. apply elem_of_zip_l in Hin.
        apply list_elem_of_fmap in Hin as (q & -> & Hq). apply elem_of_seq in Hq.
        cbn [length] in Hn. cbn [fst]. lia. }
      generalize (<[Z.to_nat (((r * ni + i) * n + Z.of_nat s) * nj + j) := c]> cells).
      induction Hl as [|[k' c'] l Hk' _ IHl]; intros cells'; cbn [foldl]; [reflexivity|].
      rewrite IHl. apply list_lookup_insert_ne. cbn [fst snd] in *.
      intros E. apply Z2Nat.inj in E.
      - apply (offset4_inj ni n nj) in E as (_ & _ & E & _); lia.
      - apply offset4_nonneg; lia.
      - apply offset4_nonneg; lia. }
    apply list_lookup_insert_eq. rewrite Nat.add_0_r in Hlen. exact Hlen.
  - replace (s + S k)%nat with (S s + k)%nat by lia.
    apply IH.
    + cbn [length] in Hn. lia.
    + exact Hk.
    + rewrite length_insert. now replace (S s + k)%nat with (s + S k)%nat by lia.
Qed.

(** A row is put cell by cell. *)
Lemma put_row_at (r : Z) (row : list cell) (cells : list cell) (k : nat) (c : cell) :
  0 <= r ->
  Z.of_nat (length row) = n ->
  row !! k = Some c ->
  (Z.to_nat (((r * ni + i) * n + Z.of_nat k) * nj + j) < length cells)%nat ->
  put_row ni n nj r i j row cells !! Z.to_nat (((r * ni + i) * n + Z.of_nat k) * nj + j)
  = Some c.
Proof.
  intros Hr Hlen Hk Hp. unfold put_row, range. rewrite <- Hlen, Nat2Z.id.
  rewrite Hlen. apply (put_row_from r Hr row 0 cells k c); [lia|exact Hk|exact Hp].
Qed.

Lemma put_column4_length (g : grid cell) (cells : list cell) :
  length (put_column4 ni n nj i j g cells) = length cells.
Proof.
  unfold put_column4. generalize (zip (range (shape0 g)) (grid_rows g)). intros l.
  revert cells. induction l as [|x l IH]; intros cells; cbn [foldl]; [reflexivity|].
  now rewrite IH, put_row_length.
Qed.

(** A column is put at the offsets of its own cells only. *)
Lemma put_column4_other (g : grid cell) (cells : list cell) (p : nat) :
  (forall r k, 0 <= r < shape0 g -> 0 <= k < n ->
               p <> Z.to_nat (((r * ni + i) * n + k) * nj + j)) ->
  put_column4 ni n nj i j g cells !! p = cells !! p.
Proof.
  intros Hp. unfold put_column4.
  assert (Forall (fun rrow => 0 <= rrow.1 < shape0 g)
            (zip (range (shape0 g)) (grid_rows g))) as Hl.
  { apply Forall_forall. intros [r row] Hin. apply elem_of_zip_l in Hin.
    now apply range_lookup in Hin. }
  revert cells. induction Hl as [|[r row] l Hr _ IH]; intros cells; cbn [foldl];
    [reflexivity|].
  rewrite IH. cbn [fst snd] in *. apply put_row_other. intros k Hk. now apply Hp.
Qed.

Lemma put_rows_from :
  forall (rows : list (list cell)) (s : nat) (cells : list cell) (r k : nat)
         (row : list cell) (c : cell),
    Forall (fun row => Z.of_nat (length row) = n) rows ->
    rows !! r = Some row ->
    row !! k = Some c ->
    (Z.to_nat (((Z.of_nat (s + r) * ni + i) * n + Z.of_nat k) * nj + j) < length cells)%nat ->
    foldl (fun acc rrow => put_row ni n nj rrow.1 i j rrow.2 acc)
      cells (zip (Z.of_nat <$> seq s (length rows)) rows)
    !! Z.to_nat (((Z.of_nat (s + r) * ni + i) * n + Z.of_nat k) * nj + j) = Some c.
Proof.
  induction rows as [|row0 rows IH]; intros s cells r k row c Hwf Hr Hk Hlen;
    [discriminate|].
  cbn [length seq fmap list_fmap zip zip_with foldl fst snd].
  apply Forall_cons in Hwf as [Hrow0 Hwf'].
  assert (0 <= Z.of_nat k < Z.of_nat (length row)) as Hkr
    by (apply lookup_lt_Some in Hk; lia).
  destruct r as [|r].
  - injection Hr as ->. rewrite Nat.add_0_r in *.
    assert (foldl (fun acc rrow => put_row ni n nj rrow.1 i j rrow.2 acc)
              (put_row ni n nj (Z.of_nat s) i j row cells)
              (zip (Z.of_nat <$> seq (S s) (length rows)) rows)
            !! Z.to_nat (((Z.of_nat s * ni + i) * n + Z.of_nat k) * nj + j)
            = put_row ni n nj (Z.of_nat s) i j row cells
              !! Z.to_nat (((Z.of_nat s * ni + i) * n + Z.of_nat k) * nj + j)) as ->.
    { assert (Forall (fun rrow => Z.of_nat s < rrow.1)
                (zip (Z.of_nat <$> seq (S s) (length rows)) rows)) as Hl.
      { apply Forall_forall. intros [r' row'] Hin. apply elem_of_zip_l in Hin.
        apply list_elem_of_fmap in Hin as (q & -> & Hq). apply elem_of_seq in Hq.
        cbn [fst]. lia. }
      generalize (put_row ni n nj (Z.of_nat s) i j row cells).
      induction Hl as [|[r' row'] l Hr' _ IHl]; intros cells'; cbn [foldl]; [reflexivity|].
      rewrite IHl. cbn [fst snd] in *. apply put_row_other; try assumption.
      intros k' Hk' E. apply Z2Nat.inj in E.
      - apply (offset4_inj ni n nj) in E as (E & _); lia.
      - apply offset4_nonneg; lia.
      - apply offset4_nonneg; lia. }
    apply put_row_at; try assumption; lia.
  - replace (s + S r)%nat with (S s + r)%nat in * by lia.
    eapply IH; try eassumption.
    now rewrite put_row_length.
Qed.

(** A column is put cell by cell. *)
Lemma put_column4_at (g : grid cell) (cells : list cell) (r k : nat)
    (row : list cell) (c : cell) :
  grid_wf g ->
  grid_width g = n ->
  grid_rows g !! r = Some row ->
  row !! k = Some c ->
  (Z.to_nat (((Z.of_nat r * ni + i) * n + Z.of_nat k) * nj + j) < length cells)%nat ->
  put_column4 ni n nj i j g cells
  !! Z.to_nat (((Z.of_nat r * ni + i) * n + Z.of_nat k) * nj + j) = Some c.
Proof.
  intros Hwf Hw Hr Hk Hp. unfold put_column4, range, shape0. rewrite Nat2Z.id.
  apply (put_rows_from (grid_rows g) 0 cells r k row c); try assumption.
  unfold grid_wf in Hwf. now rewrite Hw in Hwf.
Qed.

End Put.

Lemma range_lookup_nat (n : Z) (k : nat) (x : Z) :
  range n !! k = Some x -> x = Z.of_nat k /\ (k < Z.to_nat n)%nat.
Proof.
  unfold range. rewrite list_lookup_fmap.
  destruct (seq 0 (Z.to_nat n) !! k) as [q|] eqn:E; [|discriminate].
  apply lookup_seq in E as [-> Hk]. cbn. intros [= <-]. auto.
Qed.

Lemma mapM_ext_in {A B : Type} (f g : A -> option B) (l : list A) :
  (forall x, x ∈ l -> f x = g x) -> mapM f l = mapM g l.
Proof.
  induction l as [|x l IH]; intros H; [reflexivity|].
  cbn. rewrite (H x) by (now left). rewrite IH; [reflexivity|].
  intros y Hy. apply H. now right.
Qed.

Section PutColumn.

Variables m ni n nj : Z.
Hypothesis n_nonneg : 0 <= n.

(** The column that was put is the column that is read back. *)
Lemma column4_put_same (i j : Z) (g : grid cell) (cells : list cell) :
  0 <= i < ni -> 0 <= j < nj ->
  grid_wf g -> grid_width g = n -> shape0 g = m ->
  Z.of_nat (length cells) = m * (ni * n * nj) ->
  column4 (put_column4 ni n nj i j g cells) m ni n nj i j = Ok g.
Proof.
  intros Hi Hj Hwf Hw Hm Hlen. unfold column4.
  assert (mapM (fun r =>
                  mapM (fun k => zth (put_column4 ni n nj i j g cells)
                                   (((r * ni + i) * n + k) * nj + j)) (range n))
               (range m) = Some (grid_rows g)) as ->.
  { apply mapM_Some. apply Forall2_same_length_lookup_2.
    { rewrite range_length. unfold shape0 in Hm. lia. }
    intros r x row Hx Hrow. apply range_lookup_nat in Hx as [-> Hr].
    assert (Z.of_nat (length row) = n) as Hrowlen.
    { unfold grid_wf in Hwf. rewrite Forall_lookup in Hwf.
      rewrite <- Hw. eapply Hwf, Hrow. }
    apply mapM_Some. apply Forall2_same_length_lookup_2.
    { rewrite range_length. lia. }
    intros k y c Hy Hc. apply range_lookup_nat in Hy as [-> Hk].
    pose proof (offset4_bound m ni n nj (Z.of_nat r) i (Z.of_nat k) j
                  ltac:(lia) Hi ltac:(lia) Hj) as Hoff.
    rewrite zth_lookup by lia.
    apply (put_column4_at ni n nj i j Hi Hj g cells r k row c); try assumption.
    lia. }
  cbn. destruct g as [rows w]. cbn in Hw. now subst w.
Qed.

(** Putting a column leaves the other columns as they were. *)
Lemma column4_put_other (i j i' j' : Z) (g : grid cell) (cells : list cell) :
  0 <= i < ni -> 0 <= j < nj -> 0 <= i' < ni -> 0 <= j' < nj ->
  (i', j') <> (i, j) ->
  column4 (put_column4 ni n nj i j g cells) m ni n nj i' j'
  = column4 cells m ni n nj i' j'.
Proof.
  intros Hi Hj Hi' Hj' Hne. unfold column4. f_equal. f_equal.
  apply mapM_ext_in. intros r Hr. apply range_lookup in Hr.
  apply mapM_ext_in. intros k Hk. apply range_lookup in Hk.
  pose proof (offset4_nonneg ni n nj r i' k j' ltac:(lia) Hi' Hk Hj') as Hoff.
  rewrite !zth_lookup by lia.
  apply put_column4_other; try assumption.
  intros r0 k0 Hr0 Hk0 E. apply Z2Nat.inj in E; try lia.
  - apply (offset4_inj ni n nj) in E as (_ & -> & _ & ->); try assumption.
    now apply Hne.
  - apply offset4_nonneg; lia.
Qed.

End PutColumn.

(** ** The loops of the driver, column by column *)

Lemma column4_shape {A : Type} (cells : list A) (m ni n nj i j : Z) (g : grid A) :
  0 <= m -> 0 <= n ->
  column4 cells m ni n nj i j = Ok g ->
  grid_wf g /\ shape0 g = m /\ grid_width g = n.
Proof.
  intros Hm Hn. unfold column4.
  destruct (mapM _ (range m)) as [rows|] eqn:E; cbn; [|discriminate].
  intros [= <-]. unfold grid_wf, shape0. cbn [grid_rows grid_width].
  pose proof (length_mapM _ _ _ E) as Hlen. rewrite range_length in Hlen.
  repeat split; [|lia].
  apply mapM_Some in E. apply Forall_forall. intros row Hrow.
  apply list_elem_of_lookup in Hrow as [r Hr].
  destruct (Forall2_lookup_r _ _ _ _ _ E Hr) as (x & _ & Hx).
  apply length_mapM in Hx. rewrite range_length in Hx. lia.
Qed.

Lemma column4_replicate {A : Type} (c : A) (m ni n nj i j : Z) (count : nat) :
  0 <= m -> 0 <= n -> 0 <= i < ni -> 0 <= j < nj ->
  Z.of_nat count = m * (ni * n * nj) ->
  column4 (replicate count c) m ni n nj i j
  = Ok (Grid (replicate (Z.to_nat m) (replicate (Z.to_nat n) c)) n).
Proof.
  intros Hm Hn Hi Hj Hcount. unfold column4.
  assert (mapM (fun r =>
                  mapM (fun k => zth (replicate count c) (((r * ni + i) * n + k) * nj + j))
                    (range n)) (range m)
          = Some (replicate (Z.to_nat m) (replicate (Z.to_nat n) c))) as ->;
    [|reflexivity].
  apply mapM_Some. apply Forall2_same_length_lookup_2.
  { now rewrite range_length, length_replicate. }
  intros r x row Hx Hrow. apply range_lookup_nat in Hx as [-> Hr].
  apply lookup_replicate in Hrow as [-> _].
  apply mapM_Some. apply Forall2_same_length_lookup_2.
  { now rewrite range_length, length_replicate. }
  intros k y c' Hy Hc'. apply range_lookup_nat in Hy as [-> Hk].
  apply lookup_replicate in Hc' as [-> _].
  pose proof (offset4_bound m ni n nj (Z.of_nat r) i (Z.of_nat k) j
                ltac:(lia) Hi ltac:(lia) Hj) as Hoff.
  rewrite zth_lookup by lia. apply lookup_replicate. split; [reflexivity|lia].
Qed.

Section Columns.

Context {dtype : Type}.
Variable self : @_Interpolator dtype.
Variable targets : list float.
Variables m ni n_src n_target nj : Z.
Hypothesis interpolation_module : In (interpolation self) interp_kernels.
Hypothesis extrapolation_module : In (extrapolation self) extrap_kernels.
Hypothesis m_range : 0 <= m < 2 ^ 32.
Hypothesis n_src_nonneg : 0 <= n_src.
Hypothesis targets_length : Z.of_nat (length targets) = n_target.
Hypothesis targets_small : n_target < 2 ^ 32.

Lemma march_column_marched (i j : Z) (cells cells' : list cell) :
  0 <= i < ni -> 0 <= j < nj ->
  marched_upto self targets m ni n_src n_target nj cells (j * ni + i) ->
  march_column self targets m ni n_src n_target nj i j cells = Ok cells' ->
  marched_upto self targets m ni n_src n_target nj cells' (j * ni + i + 1).
Proof.
  intros Hi Hj [Hlen Hcols]. unfold march_column.
  destruct (column3 _ _ _ _ _) as [z_col|] eqn:Hz; cbn [mbind result_bind];
    [|discriminate].
  destruct (column4 (flat (_fp_reshaped self)) _ _ _ _ _ _) as [fz_col|] eqn:Hf;
    cbn [mbind result_bind]; [|discriminate].
  rewrite (proj2 (Hcols i j Hi Hj)) by lia. cbn [mbind result_bind].
  destruct (gridwise_interpolation _ _ _ _ _ _ _) as [out [[]|e]] eqn:Hrun;
    [|discriminate].
  intros [= <-].
  destruct (column4_shape _ _ _ _ _ _ _ _ (proj1 m_range) n_src_nonneg Hf) as (_ & Hfm & _).
  destruct (gridwise_fills targets z_col fz_col (rising self) (interpolation self)
              (extrapolation self) (empty_grid (Z.to_nat m) (Z.to_nat n_target)) out)
    as (Hwf & Hrows & Hwidth & _); try assumption.
  { lia. }
  { lia. }
  { unfold grid_wf, empty_grid. cbn. apply Forall_replicate. now rewrite length_replicate. }
  { unfold shape0, empty_grid in *. cbn. rewrite length_replicate. lia. }
  { unfold shape1, empty_grid. cbn. lia. }
  unfold shape0, shape1, empty_grid in Hrows, Hwidth. cbn in Hrows, Hwidth.
  rewrite length_replicate in Hrows.
  split; [now rewrite put_column4_length|].
  intros i' j' Hi' Hj'.
  destruct (decide ((i', j') = (i, j))) as [[= -> ->]|Hne].
  - split; [|lia]. intros _. exists z_col, fz_col, out. repeat split; try assumption.
    apply column4_put_same; try assumption; try lia.
    unfold shape0. lia.
  - assert (j' * ni + i' <> j * ni + i) as Hplace.
    { intros E. apply radix_inj in E as [-> ->]; try assumption. now apply Hne. }
    destruct (Hcols i' j' Hi' Hj') as [Hdone Hnot].
    split.
    + intros Hlt. destruct Hdone as (zc & fc & o & Hzc & Hfc & Hg & Hc); [lia|].
      exists zc, fc, o. repeat split; try assumption.
      rewrite column4_put_other; assumption.
    + intros Hge. rewrite column4_put_other; try assumption. apply Hnot. lia.
Qed.

Lemma march_i_marched (j : Z) (len : nat) :
  forall (a : nat) (cells cells' : list cell),
    0 <= j < nj ->
    Z.of_nat (a + len) <= ni ->
    marched_upto self targets m ni n_src n_target nj cells (j * ni + Z.of_nat a) ->
    march_i self targets m ni n_src n_target nj j (Z.of_nat <$> seq a len) cells
    = Ok cells' ->
    marched_upto self targets m ni n_src n_target nj cells'
      (j * ni + Z.of_nat (a + len)).
Proof.
  induction len as [|len IH]; intros a cells cells' Hj Ha Hinv;
    cbn [seq fmap list_fmap march_i].
  - intros [= <-]. now rewrite Nat.add_0_r.
  - destruct (march_column _ _ _ _ _ _ _ _ _ _) as [cells1|] eqn:Hcol;
      cbn [mbind result_bind]; [|discriminate].
    intros Hrest. apply march_column_marched in Hcol; try assumption; try lia.
    replace (a + S len)%nat with (S a + len)%nat by lia.
    apply (IH (S a) cells1 cells'); try assumption; try lia.
    now replace (j * ni + Z.of_nat (S a)) with (j * ni + Z.of_nat a + 1) by lia.
Qed.

Lemma march_j_marched (len : nat) :
  forall (b : nat) (cells cells' : list cell),
    0 <= ni ->
    Z.of_nat (b + len) <= nj ->
    marched_upto self targets m ni n_src n_target nj cells (Z.of_nat b * ni) ->
    march_j self targets m ni n_src n_target nj (Z.of_nat <$> seq b len) cells
    = Ok cells' ->
    marched_upto self targets m ni n_src n_target nj cells' (Z.of_nat (b + len) * ni).
Proof.
  induction len as [|len IH]; intros b cells cells' Hni Hb Hinv;
    cbn [seq fmap list_fmap march_j].
  - intros [= <-]. now rewrite Nat.add_0_r.
  - destruct (march_i _ _ _ _ _ _ _ _ _ _) as [cells1|] eqn:Hi;
      cbn [mbind result_bind]; [|discriminate].
    intros Hrest. unfold range in Hi.
    apply (march_i_marched (Z.of_nat b) (Z.to_nat ni) 0 cells cells1) in Hi.
    + replace (b + S len)%nat with (S b + len)%nat by lia.
      apply (IH (S b) cells1 cells'); try assumption; try lia.
      replace (Z.of_nat (S b) * ni) with (Z.of_nat b * ni + Z.of_nat (0 + Z.to_nat ni))
        by lia.
      exact Hi.
    + lia.
    + lia.
    + now rewrite Z.add_0_r.
Qed.

(** All the columns, once the loops have run. *)
Lemma march_j_columns (cells' : list cell) :
  0 <= ni -> 0 <= nj -> 0 <= n_target ->
  march_j self targets m ni n_src n_target nj (range nj)
    (replicate (Z.to_nat (m * (ni * n_target * nj))) None) = Ok cells' ->
  Z.of_nat (length cells') = m * (ni * n_target * nj) /\
  forall i j, 0 <= i < ni -> 0 <= j < nj ->
    column_marched self targets m ni n_src n_target nj cells' i j.
Proof.
  intros Hni Hnj Hnt Hrun. unfold range in Hrun.
  assert (0 <= m * (ni * n_target * nj)) as Hsize by nia.
  apply (march_j_marched (Z.to_nat nj) 0) in Hrun; try assumption; try lia.
  - destruct Hrun as [Hlen Hcols]. split; [exact Hlen|].
    intros i j Hi Hj. apply (Hcols i j Hi Hj). nia.
  - split; [rewrite length_replicate; lia|].
    intros i j Hi Hj. split; [nia|]. intros _.
    etransitivity;
      [apply (column4_replicate (None : cell) m ni n_target nj i j); try assumption; lia|].
    unfold empty_grid. now rewrite Z2Nat.id by lia.
Qed.

End Columns.

(** ** The layout of the working arrays *)

Lemma product_app (s1 s2 : list Z) : product (s1 ++ s2) = product s1 * product s2.
Proof.
  unfold product. induction s1 as [|d s1 IH]; cbn [app foldr]; [lia|].
  rewrite IH. lia.
Qed.

Lemma product_pos_take (s : list Z) (k : nat) :
  Forall (fun d => 0 <= d) s -> 0 <= product (take k s).
Proof. intros H. apply product_nonneg. now apply Forall_take. Qed.

Lemma cumprod_from_lookup (s : list Z) :
  forall (acc : Z) (k : nat),
    (k <= length s)%nat ->
    (acc :: cumprod_from acc s) !! k = Some (acc * product (take k s)).
Proof.
  induction s as [|d s IH]; intros acc k Hk.
  - cbn in Hk. replace k with 0%nat by lia. cbn. f_equal. lia.
  - destruct k as [|k]; [cbn; f_equal; lia|].
    cbn [cumprod_from lookup list_lookup take].
    change ((acc * d :: cumprod_from (acc * d) s) !! k = Some (acc * product (d :: take k s))).
    rewrite IH by (cbn in Hk; lia). f_equal. unfold product. cbn [foldr]. lia.
Qed.

Lemma product_split (s : list Z) (k : nat) (n : Z) :
  s !! k = Some n ->
  product s = product (take k s) * n * product (drop (S k) s).
Proof.
  intros Hk. rewrite <- (take_drop k s) at 1. rewrite product_app.
  rewrite (drop_S s n k Hk). unfold product at 2. cbn [foldr].
  fold (product (drop (S k) s)). lia.
Qed.

Section Layout.

Context {dtype : Type}.
Variable f8 : dtype.
Variable issubdtype_int : dtype -> bool.
Variable astype : dtype -> float -> float.

(** The working shapes [__init__] gives the source coordinate and the data,
    in terms of their own shapes. *)
Lemma init_layout (z_tgt z_src : ndarray float) (fz_dtype : dtype)
    (fz_src : ndarray float) (ax : Z) (up : option bool)
    (ik : interp_kernel) (ek : extrap_kernel) (self : _Interpolator) :
  Forall (fun d => 0 <= d) (shape z_src) ->
  Forall (fun d => 0 <= d) (shape fz_src) ->
  __init__ f8 issubdtype_int z_tgt z_src fz_dtype fz_src ax up ik ek = Ok self ->
  exists n : Z,
    0 <= (ax + ndim fz_src) mod ndim fz_src - (ndim fz_src - ndim z_src) < ndim z_src /\
    shape z_src
    !! Z.to_nat ((ax + ndim fz_src) mod ndim fz_src - (ndim fz_src - ndim z_src)) = Some n /\
    shape (_zp_reshaped self)
    = [product (take (Z.to_nat ((ax + ndim fz_src) mod ndim fz_src
                                - (ndim fz_src - ndim z_src))) (shape z_src));
       n;
       product (drop (S (Z.to_nat ((ax + ndim fz_src) mod ndim fz_src
                                   - (ndim fz_src - ndim z_src)))) (shape z_src))] /\
    shape (_fp_reshaped self)
    = product (take (length (shape fz_src) - length (shape z_src)) (shape fz_src))
      :: shape (_zp_reshaped self).
Proof.
  intros Hzs Hfs. unfold __init__.
  destruct (if ndim z_tgt =? 1 then _ else _) as [z_target_size|] eqn:Hsize;
    cbn [mbind result_bind]; [|discriminate].
  destruct (resolve_axis _ _ _) as [[fp_axis zp_axis]|] eqn:Haxis;
    cbn [mbind result_bind]; [|discriminate].
  apply resolve_axis_Ok in Haxis as (Hfp & Hfpr & Hzp & Hzpr & _);
    [|unfold ndim; lia].
  destruct (bool_decide (shape z_src = py_tail (shape fz_src) (ndim z_src)))
    eqn:Hshape; cbn [negb]; [|discriminate].
  apply bool_decide_eq_true in Hshape.
  destruct (py_index (1 :: cumprod (shape z_src)) zp_axis) as [lh|] eqn:Hlh;
    cbn [mbind result_bind]; [|discriminate].
  destruct (py_index (shape z_src) zp_axis) as [n|] eqn:Hn;
    cbn [mbind result_bind]; [|discriminate].
  assert (lh = product (take (Z.to_nat zp_axis) (shape z_src))) as Elh.
  { unfold py_index in Hlh. destruct (Z.ltb_spec zp_axis 0); [lia|].
    rewrite zth_lookup in Hlh by lia. unfold cumprod in Hlh.
    rewrite cumprod_from_lookup in Hlh by (unfold ndim in *; lia).
    injection Hlh as <-. lia. }
  assert (shape z_src !! Z.to_nat zp_axis = Some n) as En.
  { unfold py_index in Hn. destruct (Z.ltb_spec zp_axis 0); [lia|].
    rewrite zth_lookup in Hn by lia.
    destruct (shape z_src !! Z.to_nat zp_axis); [|discriminate]. congruence. }
  assert (0 <= lh) as Hlh0 by (rewrite Elh; now apply product_pos_take).
  assert (0 <= n) as Hn0.
  { rewrite Forall_lookup in Hzs. eapply Hzs, En. }
  rewrite reshape_trailing by assumption.
  destruct (Z.eqb_spec (lh * n) 0) as [|Hlhn]; [discriminate|].
  destruct (Z.eqb_spec (size z_src mod (lh * n)) 0) as [Hmod|]; [|discriminate].
  cbn [orb negb mbind result_bind shape].
  assert (0 <= size z_src) as Hsz by (now apply product_nonneg).
  assert (size z_src / (lh * n)
          = product (drop (S (Z.to_nat zp_axis)) (shape z_src))) as Enj.
  { unfold size. rewrite (product_split (shape z_src) _ n En), <- Elh.
    rewrite (Z.mul_comm (lh * n)). apply Z.div_mul. exact Hlhn. }
  assert (0 <= size z_src / (lh * n)) as Hnj0 by (apply Z.div_pos; nia).
  rewrite reshape_leading by assumption.
  destruct (Z.eqb_spec (lh * n * (size z_src / (lh * n))) 0) as [|Hknown];
    [discriminate|].
  destruct (Z.eqb_spec (size fz_src mod (lh * n * (size z_src / (lh * n)))) 0)
    as [Hmod'|]; [|discriminate].
  cbn [orb negb mbind result_bind shape].
  rewrite py_assign_third. cbn [mbind result_bind].
  unfold py_assign.
  destruct (zth (shape fz_src) fp_axis) as [d|]; cbn [mbind result_bind];
    [|discriminate].
  match goal with
  | |- (?X ≫= _) = _ -> _ => destruct X as [up'|]; cbn [mbind result_bind];
                              [|discriminate]
  end.
  intros Hself. injection Hself as <-. cbn [_zp_reshaped _fp_reshaped shape].
  exists n. subst fp_axis. rewrite <- Hzp.
  split; [exact Hzpr|]. split; [exact En|]. split; [rewrite Enj; f_equal; exact Elh|].
  f_equal.
  assert (size z_src = lh * n * (size z_src / (lh * n))) as Hsplit.
  { rewrite (Z.div_mod (size z_src) (lh * n)) at 1 by lia. lia. }
  rewrite <- Hsplit.
  assert (size fz_src
          = product (take (length (shape fz_src) - length (shape z_src)) (shape fz_src))
            * size z_src) as ->.
  { unfold size at 1. rewrite <- (take_drop (length (shape fz_src) - length (shape z_src))
                                   (shape fz_src)) at 1.
    rewrite product_app. f_equal. unfold size. f_equal.
    rewrite Hshape at 2. unfold py_tail, ndim.
    destruct (Z.eqb_spec (Z.of_nat (length (shape z_src))) 0) as [E0|_].
    - unfold ndim in Hzpr. lia.
    - now rewrite Nat2Z.id. }
  apply Z.div_mul. lia.
Qed.

End Layout.

(** ** The cast of the result *)

Lemma zth_fmap {A B : Type} (f : A -> B) (l : list A) (i : Z) :
  zth (f <$> l) i = f <$> zth l i.
Proof. unfold zth. destruct (i <? 0); [reflexivity|apply list_lookup_fmap]. Qed.

Lemma mapM_fmap_option {A B C : Type} (f : B -> C) (g : A -> option B) (l : list A) :
  mapM (fun x => f <$> g x) l = fmap (M := list) f <$> mapM g l.
Proof.
  induction l as [|x l IH]; [reflexivity|].
  cbn. destruct (g x) as [y|]; [|reflexivity]. cbn.
  rewrite IH. now destruct (mapM g l).
Qed.

(** A column of the cast array is the cast of the column. *)
Lemma column4_fmap {A B : Type} (f : A -> B) (cells : list A) (m ni n nj i j : Z)
    (g : grid A) :
  column4 cells m ni n nj i j = Ok g ->
  column4 (f <$> cells) m ni n nj i j = Ok (grid_map f g).
Proof.
  unfold column4.
  destruct (mapM _ (range m)) as [rows|] eqn:E; cbn; [|discriminate].
  intros [= <-]. unfold grid_map. cbn [grid_rows grid_width].
  assert (mapM (fun r =>
                  mapM (fun k => zth (f <$> cells) (((r * ni + i) * n + k) * nj + j))
                    (range n)) (range m)
          = Some (fmap (M := list) (fmap (M := list) f) rows)) as ->; [|reflexivity].
  rewrite (mapM_ext_in _
             (fun r => fmap (M := list) f
                       <$> mapM (fun k => zth cells (((r * ni + i) * n + k) * nj + j))
                             (range n))
             (range m)).
  - rewrite mapM_fmap_option, E. reflexivity.
  - intros r _. rewrite <- mapM_fmap_option. apply mapM_ext_in.
    intros k _. apply zth_fmap.
Qed.

Lemma cell_astype_is_Some {dtype : Type} (astype : dtype -> float -> float) (d : dtype)
    (cells : list cell) :
  Forall is_Some cells -> Forall is_Some (cell_astype astype d <$> cells).
Proof.
  intros H. apply Forall_fmap. eapply Forall_impl; [exact H|].
  intros c [v ->]. cbn. eauto.
Qed.

Section DriverColumns.

Context {dtype : Type}.
Variable f8 : dtype.
Variable issubdtype_int : dtype -> bool.
Variable astype : dtype -> float -> float.

(** What [interpolate] has done when it returns: the working shapes, and
    the march of every column. *)
Lemma interpolate_marched (z_tgt z_src : ndarray float) (fz_dtype : dtype)
    (fz_src : ndarray float) (ax : Z) (up : option bool)
    (ik : interp_kernel) (ek : extrap_kernel) (self : _Interpolator)
    (res : interpolated) :
  array_wf z_tgt -> array_wf z_src -> array_wf fz_src ->
  size z_src < 2 ^ 32 ->
  size fz_src < 2 ^ 32 ->
  size z_tgt < 2 ^ 32 ->
  In ik interp_kernels ->
  In ek extrap_kernels ->
  __init__ f8 issubdtype_int z_tgt z_src fz_dtype fz_src ax up ik ek = Ok self ->
  _Interpolator_interpolate astype self = Ok res ->
  exists (m ni n nj : Z) (cells : list cell),
    0 <= m < 2 ^ 32 /\ 0 < ni /\ 0 < n /\ 0 < nj /\
    shape (_fp_reshaped self) = [m; ni; n; nj] /\
    flat (_zp_reshaped self) = flat z_src /\
    flat (_fp_reshaped self) = flat fz_src /\
    interpolation self = ik /\ extrapolation self = ek /\
    result_dtype res = _target_dtype self /\
    flat (result_array res) = cell_astype astype (_target_dtype self) <$> cells /\
    Z.of_nat (length cells) = m * (ni * Z.of_nat (length (flat z_tgt)) * nj) /\
    forall i j, 0 <= i < ni -> 0 <= j < nj ->
      column_marched self (flat z_tgt) m ni n (Z.of_nat (length (flat z_tgt))) nj
        cells i j.
Proof.
  intros [Hts Htlen] [Hzs Hzlen] [Hfs Hflen] Hzsmall Hfsmall Htsmall Hik Hek Hinit.
  apply init_Ok in Hinit
    as (nt & fp & lh & n & nj & m & Hnt & -> & Hfp & Hlh & Hn & Hnj & Hm & Hsz & Hsf &
        Hzp & Hfpr & Hws & Hrs & Htgt & Hdt & Hi & He); [|assumption|assumption].
  unfold _Interpolator_interpolate. rewrite Hws, Hzp, Hfpr, Htgt, Hrs. cbn [shape].
  assert (lh < 2 ^ 32 /\ nj < 2 ^ 32) as (Hlh32 & Hnj32) by nia.
  assert (m < 2 ^ 32) as Hm32.
  { assert (1 <= lh * n * nj) by nia. nia. }
  unfold as_unsigned_int.
  destruct (Z.leb_spec 0 lh), (Z.ltb_spec lh (2 ^ 32)); try lia.
  destruct (Z.leb_spec 0 nj), (Z.ltb_spec nj (2 ^ 32)); try lia.
  cbn [andb mbind result_bind].
  destruct (Z.eqb_spec (ndim z_tgt) 1) as [Hnd|]; cbn [negb]; [|discriminate].
  assert (shape z_tgt = [nt]) as Hshape.
  { unfold ndim in Hnd. destruct (shape z_tgt) as [|c [|]]; cbn in Hnd; try lia.
    change (py_index [c] 0) with (Ok c) in Hnt. congruence. }
  assert (Z.of_nat (length (flat z_tgt)) = nt) as Hlen.
  { rewrite Htlen. unfold size. rewrite Hshape. unfold product. cbn. lia. }
  assert (0 <= nt) as Hnt0 by lia.
  replace (product [m; lh; nt; nj]) with (m * (lh * nt * nj))
    by (unfold product; cbn [foldr]; ring).
  destruct (march_j _ _ _ _ _ _ _ _ _) as [cells|] eqn:Hrun; cbn [mbind result_bind];
    [|discriminate].
  rewrite reshape_plain by (apply Forall_insert; assumption).
  destruct (_ =? _); cbn [mbind result_bind]; [|discriminate].
  intros [= <-]. unfold ndarray_astype. cbn [result_array result_dtype flat].
  apply march_j_columns in Hrun as [Hcells Hcols]; try lia.
  - exists m, lh, n, nj, cells. rewrite Hlen. cbn [shape flat].
    repeat split; try assumption; try lia.
  - now rewrite Hi.
  - now rewrite He.
Qed.

(** X9: what [interpolate] returns, column by column.  The source
    coordinate is taken as [ni] by [n] by [nj] values, [n] along the
    interpolation axis, and the data as [m] such blocks.  For every [i] and
    [j], the column [(i, j)] of the result (its [m] by count-of-levels values
    at the indices [(:, i, :, j)]) is what [gridwise_interpolation] writes in a
    fresh buffer for the levels of the target, the column [(i, j)] of the
    source coordinate and the columns [(:, i, :, j)] of the data, with the
    direction and the kernels of the interpolator, every value then cast to
    the dtype of the result by the final [astype]: the columns are computed
    one by one, and no column depends on another. *)
Theorem interpolate_columns (z_tgt z_src : ndarray float) (fz_dtype : dtype)
    (fz_src : ndarray float) (ax : Z) (up : option bool)
    (ik : interp_kernel) (ek : extrap_kernel) (self : _Interpolator)
    (res : interpolated) (zp : nat) (m ni n nj i j : Z) :
  array_wf z_tgt -> array_wf z_src -> array_wf fz_src ->
  size z_src < 2 ^ 32 ->
  size fz_src < 2 ^ 32 ->
  size z_tgt < 2 ^ 32 ->
  In ik interp_kernels ->
  In ek extrap_kernels ->
  __init__ f8 issubdtype_int z_tgt z_src fz_dtype fz_src ax up ik ek = Ok self ->
  _Interpolator_interpolate astype self = Ok res ->
  zp = Z.to_nat ((ax + ndim fz_src) mod ndim fz_src - (ndim fz_src - ndim z_src)) ->
  shape z_src !! zp = Some n ->
  ni = product (take zp (shape z_src)) ->
  nj = product (drop (S zp) (shape z_src)) ->
  m = product (take (length (shape fz_src) - length (shape z_src)) (shape fz_src)) ->
  0 <= i < ni ->
  0 <= j < nj ->
  exists (z_col : list float) (fz_col : grid float) (out : grid cell),
    column3 (flat z_src) n nj i j = Ok z_col /\
    column4 (flat fz_src) m ni n nj i j = Ok fz_col /\
    gridwise_interpolation (flat z_tgt) z_col fz_col (rising self) ik ek
      (empty_grid (Z.to_nat m) (length (flat z_tgt))) = (out, Ok tt) /\
    column4 (flat (result_array res)) m ni (Z.of_nat (length (flat z_tgt))) nj i j
    = Ok (grid_map (cell_astype astype (result_dtype res)) out).
Proof.
  intros Ht Hz Hf Hzsmall Hfsmall Htsmall Hik Hek Hinit Hrun Hzp Hn Hni Hnj Hm Hi Hj.
  destruct (init_layout f8 issubdtype_int _ _ _ _ _ _ _ _ _ (proj1 Hz) (proj1 Hf) Hinit)
    as (n' & _ & Hn' & Hzshape & Hfshape).
  rewrite <- Hzp in Hn', Hzshape. rewrite Hn in Hn'. injection Hn' as <-.
  rewrite <- Hni, <- Hnj in Hzshape. rewrite Hzshape, <- Hm in Hfshape.
  destruct (interpolate_marched _ _ _ _ _ _ _ _ _ _ Ht Hz Hf Hzsmall Hfsmall Htsmall
              Hik Hek Hinit Hrun)
    as (m' & ni' & n' & nj' & cells & _ & _ & _ & _ & Hshape & Hzflat & Hfflat & Hik' &
        Hek' & Hdtype & Hcast & _ & Hcols).
  rewrite Hfshape in Hshape. injection Hshape as <- <- <- <-.
  destruct (Hcols i j Hi Hj) as (z_col & fz_col & out & Hzc & Hfc & Hg & Hc).
  rewrite Hzflat in Hzc. rewrite Hfflat in Hfc. rewrite Hik', Hek', Nat2Z.id in Hg.
  exists z_col, fz_col, out. rewrite Hcast, Hdtype.
  repeat split; try assumption. now apply column4_fmap.
Qed.

End DriverColumns.

Lemma interpolate_columns_witness :
  exists (z_col : list float) (fz_col : grid float) (out : grid cell),
    column3 [0%float; 3%float] 2 1 0 0 = Ok z_col /\
    column4 [0%float; 1%float] 1 1 2 1 0 0 = Ok fz_col /\
    gridwise_interpolation [1%float] z_col fz_col true
      linear_interp nan_data_extrap (empty_grid (Z.to_nat 1) 1) = (out, Ok tt) /\
    column4 [Some 0x1.555556p-2%float] 1 1 (Z.of_nat 1) 1 0 0
    = Ok (grid_map (cell_astype numpy_astype float32) out).
Proof.
  apply (interpolate_columns float64 numpy_issubdtype_int numpy_astype
           (NDArray [1] [1%float])
           (NDArray [2] [0%float; 3%float])
           float32
           (NDArray [2] [0%float; 1%float])
           (-1) None linear_interp nan_data_extrap
           (Interpolator linear_interp nan_data_extrap float32 true
              (NDArray [1] [1%float]) [2] (-1)
              (NDArray [1; 2; 1] [0%float; 3%float])
              (NDArray [1; 1; 2; 1] [0%float; 1%float])
              [1; 1; 1; 1] [1])
           (Interpolated float32 (NDArray [1] [Some 0x1.555556p-2%float]))
           0%nat 1 1 2 1 0 0).
  - split; [repeat constructor; lia|reflexivity].
  - split; [repeat constructor; lia|reflexivity].
  - split; [repeat constructor; lia|reflexivity].
  - vm_compute. reflexivity.
  - vm_compute. reflexivity.
  - vm_compute. reflexivity.
  - left. reflexivity.
  - left. reflexivity.
  - reflexivity.
  - vm_compute. reflexivity.
  - reflexivity.
  - reflexivity.
  - reflexivity.
  - reflexivity.
  - reflexivity.
  - lia.
  - lia.
Defined.

(** ** No cell of the result is left unassigned *)

Lemma offset4_split (m ni n nj p : Z) :
  0 < ni -> 0 < n -> 0 < nj ->
  0 <= p < m * (ni * n * nj) ->
  exists r i k j,
    0 <= r < m /\ 0 <= i < ni /\ 0 <= k < n /\ 0 <= j < nj /\
    p = ((r * ni + i) * n + k) * nj + j.
Proof.
  intros Hni Hn Hnj Hp.
  exists (p / nj / n / ni), ((p / nj / n) mod ni), ((p / nj) mod n), (p mod nj).
  pose proof (Z.div_mod p nj ltac:(lia)) as E1.
  pose proof (Z.div_mod (p / nj) n ltac:(lia)) as E2.
  pose proof (Z.div_mod (p / nj / n) ni ltac:(lia)) as E3.
  pose proof (Z.mod_pos_bound p nj Hnj).
  pose proof (Z.mod_pos_bound (p / nj) n Hn).
  pose proof (Z.mod_pos_bound (p / nj / n) ni Hni).
  assert (0 <= p / nj) by (apply Z.div_pos; lia).
  assert (0 <= p / nj / n) by (apply Z.div_pos; lia).
  assert (0 <= p / nj / n / ni) by (apply Z.div_pos; lia).
  assert (p / nj / n / ni < m).
  { apply Z.div_lt_upper_bound; [lia|].
    apply Z.div_lt_upper_bound; [lia|].
    apply Z.div_lt_upper_bound; [lia|]. nia. }
  repeat split; try lia; nia.
Qed.

Lemma column4_cell {A : Type} (cells : list A) (m ni n nj i j : Z) (g : grid A) (r k : Z) :
  column4 cells m ni n nj i j = Ok g ->
  0 <= r < m -> 0 <= k < n ->
  exists row c,
    grid_rows g !! Z.to_nat r = Some row /\ row !! Z.to_nat k = Some c /\
    zth cells (((r * ni + i) * n + k) * nj + j) = Some c.
Proof.
  unfold column4. destruct (mapM _ (range m)) as [rows|] eqn:E; cbn; [|discriminate].
  intros [= <-] Hr Hk. cbn [grid_rows].
  apply mapM_Some in E.
  assert (range m !! Z.to_nat r = Some r) as Hrr.
  { unfold range. rewrite list_lookup_fmap, lookup_seq_lt by lia. cbn. f_equal. lia. }
  destruct (Forall2_lookup_l _ _ _ _ _ E Hrr) as (row & Hrow & Hmap).
  apply mapM_Some in Hmap.
  assert (range n !! Z.to_nat k = Some k) as Hkk.
  { unfold range. rewrite list_lookup_fmap, lookup_seq_lt by lia. cbn. f_equal. lia. }
  destruct (Forall2_lookup_l _ _ _ _ _ Hmap Hkk) as (c & Hc & Hcell).
  exists row, c. auto.
Qed.

Section DriverAssigned.

Context {dtype : Type}.
Variable f8 : dtype.
Variable issubdtype_int : dtype -> bool.
Variable astype : dtype -> float -> float.

(** X10: every element of the array [interpolate] returns has been
    written by the march of a column: no element is left as [np.empty] gave
    it.  (The kernels are those of the module, and the arrays have fewer
    than [2 ^ 32] elements, the range of the [unsigned int] counters.) *)
Theorem interpolate_assigned (z_tgt z_src : ndarray float) (fz_dtype : dtype)
    (fz_src : ndarray float) (ax : Z) (up : option bool)
    (ik : interp_kernel) (ek : extrap_kernel) (res : interpolated) :
  array_wf z_tgt -> array_wf z_src -> array_wf fz_src ->
  size z_src < 2 ^ 32 ->
  size fz_src < 2 ^ 32 ->
  size z_tgt < 2 ^ 32 ->
  In ik interp_kernels ->
  In ek extrap_kernels ->
  interpolate f8 issubdtype_int astype z_tgt z_src fz_dtype fz_src ax up ik ek = Ok res ->
  Forall is_Some (flat (result_array res)).
Proof.
  intros Ht Hz Hf Hzsmall Hfsmall Htsmall Hik Hek. unfold interpolate.
  destruct (__init__ _ _ _ _ _ _ _ _ _ _) as [self|] eqn:Hinit;
    cbn [mbind result_bind]; [|discriminate].
  intros Hrun.
  destruct (interpolate_marched f8 issubdtype_int astype _ _ _ _ _ _ _ _ _ _
              Ht Hz Hf Hzsmall Hfsmall Htsmall Hik Hek Hinit Hrun)
    as (m & ni & n & nj & cells & [Hm Hm32] & Hni & Hn & Hnj & Hshape & _ & _ & Hik' &
        Hek' & _ & -> & Hlen & Hcols).
  apply cell_astype_is_Some.
  apply Forall_lookup. intros p c Hc.
  pose proof (lookup_lt_Some _ _ _ Hc) as Hp.
  assert (0 < Z.of_nat (length (flat z_tgt))) as Hnt.
  { destruct (Z.eq_dec (Z.of_nat (length (flat z_tgt))) 0) as [E|E]; [|lia].
    rewrite E in Hlen. replace (m * (ni * 0 * nj)) with 0 in Hlen by ring.
    unfold cell in *. lia. }
  destruct (offset4_split m ni (Z.of_nat (length (flat z_tgt))) nj (Z.of_nat p))
    as (r & i & k & j & Hr & Hi & Hk & Hj & Ep); try assumption;
    [unfold cell in *; lia|].
  destruct (Hcols i j Hi Hj) as (z_col & fz_col & out & _ & Hfc & Hg & Hout).
  assert (0 <= n) as Hn0 by lia.
  destruct (column4_shape _ _ _ _ _ _ _ _ Hm Hn0 Hfc) as (_ & Hfm & _).
  destruct (gridwise_fills (flat z_tgt) z_col fz_col (rising self) (interpolation self)
              (extrapolation self)
              (empty_grid (Z.to_nat m) (Z.to_nat (Z.of_nat (length (flat z_tgt))))) out)
    as (_ & _ & _ & Hassigned); try assumption.
  { now rewrite Hik'. }
  { now rewrite Hek'. }
  { lia. }
  { destruct Ht as [_ Ht]. lia. }
  { unfold grid_wf, empty_grid. cbn. apply Forall_replicate. now rewrite length_replicate. }
  { unfold shape0, empty_grid in *. cbn. rewrite length_replicate. lia. }
  { unfold shape1, empty_grid. cbn. lia. }
  destruct (column4_cell _ _ _ _ _ _ _ _ r k Hout Hr Hk) as (row & c' & Hrow & Hc' & Hcell).
  rewrite <- Ep, zth_nat in Hcell.
  pose proof (eq_trans (eq_sym Hc) Hcell) as E. injection E as ->.
  unfold assigned in Hassigned. rewrite Forall_lookup in Hassigned.
  specialize (Hassigned _ _ Hrow). rewrite Forall_lookup in Hassigned.
  eapply Hassigned, Hc'.
Qed.

End DriverAssigned.

Lemma interpolate_assigned_witness :
  Forall is_Some
    (flat (result_array
             (Interpolated float64
                (NDArray [2; 2; 2]
                   [Some 6%float; Some 30%float; Some 6%float; Some 50%float;
                    Some 5%float; Some 3%float; Some 5%float; Some 5%float])))).
Proof.
  apply (interpolate_assigned float64 numpy_issubdtype_int numpy_astype
           (NDArray [2] [30%float; 50%float])
           (NDArray [3; 2] [2%float; 20%float; 4%float; 40%float; 6%float; 60%float])
           int64
           (NDArray [2; 3; 2]
              [2%float; 20%float; 4%float; 40%float; 6%float; 60%float;
               1%float; 2%float; 3%float; 4%float; 5%float; 6%float])
           1 None linear_interp nearest_edge_extrap).
  - split; [repeat constructor; lia|reflexivity].
  - split; [repeat constructor; lia|reflexivity].
  - split; [repeat constructor; lia|reflexivity].
  - vm_compute. reflexivity.
  - vm_compute. reflexivity.
  - vm_compute. reflexivity.
  - left. reflexivity.
  - right. left. reflexivity.
  - vm_compute. reflexivity.
Defined.

(** ** The variant for a target coordinate that is not one-dimensional *)

Lemma column3_whole {A : Type} (cells : list A) (n : Z) :
  Z.of_nat (length cells) = n -> column3 cells n 1 0 0 = Ok cells.
Proof.
  intros Hlen. unfold column3.
  assert (mapM (fun k => zth cells ((0 * n + k) * 1 + 0)) (range n) = Some cells) as ->;
    [|reflexivity].
  apply mapM_Some. apply Forall2_same_length_lookup_2.
  { rewrite range_length. lia. }
  intros k x c Hx Hc. apply range_lookup_nat in Hx as [-> _].
  replace ((0 * n + Z.of_nat k) * 1 + 0) with (Z.of_nat k) by lia.
  now rewrite zth_nat.
Qed.

Section TargetNd.

Context {dtype : Type}.
Variable f8 : dtype.
Variable issubdtype_int : dtype -> bool.
Variable astype : dtype -> float -> float.

Lemma march_j_nd_single (self : @_Interpolator dtype) (targets : list float)
    (m n_src n_target : Z) (cells : list cell) :
  Z.of_nat (length targets) = n_target ->
  march_j_nd self targets m 1 n_src n_target 1 (range 1) cells
  = march_j self targets m 1 n_src n_target 1 (range 1) cells.
Proof.
  intros Hlen. change (range 1) with [0].
  cbn [march_j_nd march_j]. change (range 1) with [0].
  cbn [march_i_nd march_i]. unfold march_column_nd.
  rewrite (column3_whole targets n_target Hlen). reflexivity.
Qed.

(** X11: on a one-dimensional target and a one-dimensional source
    coordinate, [interpolate_z_target_nd] does what [interpolate] does: it
    returns the same array or raises the same error. *)
Theorem interpolate_z_target_nd_single (z_tgt z_src : ndarray float) (fz_dtype : dtype)
    (fz_src : ndarray float) (ax : Z) (up : option bool)
    (ik : interp_kernel) (ek : extrap_kernel) (self : _Interpolator) :
  array_wf z_tgt ->
  Forall (fun d => 0 <= d) (shape z_src) ->
  Forall (fun d => 0 <= d) (shape fz_src) ->
  ndim z_tgt = 1 ->
  ndim z_src = 1 ->
  __init__ f8 issubdtype_int z_tgt z_src fz_dtype fz_src ax up ik ek = Ok self ->
  interpolate_z_target_nd astype self = _Interpolator_interpolate astype self.
Proof.
  intros [Hts Htlen] Hzs Hfs Htnd Hznd Hinit.
  destruct (init_layout f8 issubdtype_int _ _ _ _ _ _ _ _ _ Hzs Hfs Hinit)
    as (n & Hzp & Hn & Hzshape & Hfshape).
  apply init_Ok in Hinit
    as (nt & fp & lh & n' & nj & m & Hnt & _ & _ & _ & _ & _ & _ & _ & _ &
        Hzr & Hfr & Hws & _ & Htgt & _); [|assumption|assumption].
  assert (lh = 1 /\ nj = 1) as [-> ->].
  { rewrite Hzr in Hzshape. cbn [shape] in Hzshape.
    replace (Z.to_nat _) with 0%nat in Hzshape by lia.
    unfold ndim in Hznd. destruct (shape z_src) as [|d [|]]; cbn in Hznd; try lia.
    cbn in Hzshape. injection Hzshape as -> _ ->. auto. }
  assert (shape z_tgt = [nt]) as Hshape.
  { rewrite Htnd in Hnt. change (1 =? 1) with true in Hnt. cbv iota in Hnt.
    unfold ndim in Htnd. destruct (shape z_tgt) as [|c [|]]; cbn in Htnd; try lia.
    change (py_index [c] 0) with (Ok c) in Hnt. congruence. }
  assert (Z.of_nat (length (flat z_tgt)) = nt) as Hlen.
  { rewrite Htlen. unfold size. rewrite Hshape. unfold product. cbn. lia. }
  assert (0 <= nt) as Hnt0 by lia.
  unfold interpolate_z_target_nd, _Interpolator_interpolate.
  rewrite Hws, Hzr, Hfr, Htgt. cbn [shape drop].
  change (as_unsigned_int 1) with (Ok 1). cbn [mbind result_bind].
  rewrite Htnd. cbn [Z.eqb Pos.eqb negb].
  rewrite reshape_plain by (repeat constructor; lia).
  assert (product [1; nt; 1] = size z_tgt) as ->.
  { unfold size. rewrite Hshape. unfold product. cbn. lia. }
  rewrite Z.eqb_refl. cbn [mbind result_bind flat].
  now rewrite (march_j_nd_single self (flat z_tgt) m n' nt _ Hlen).
Qed.

(** X12: on a one-dimensional target with at least one level and a source
    coordinate of several columns, [interpolate_z_target_nd] raises numpy's
    error of a reshape to a shape of another size: the target cannot be taken
    as one column of levels per column of the source. *)
Theorem interpolate_z_target_nd_columns (z_tgt z_src : ndarray float) (fz_dtype : dtype)
    (fz_src : ndarray float) (ax : Z) (up : option bool)
    (ik : interp_kernel) (ek : extrap_kernel) (self : _Interpolator) (n : Z) :
  array_wf z_tgt ->
  Forall (fun d => 0 <= d) (shape z_src) ->
  Forall (fun d => 0 <= d) (shape fz_src) ->
  ndim z_tgt = 1 ->
  1 <= size z_tgt ->
  size z_src < 2 ^ 32 ->
  shape z_src
  !! Z.to_nat ((ax + ndim fz_src) mod ndim fz_src - (ndim fz_src - ndim z_src)) = Some n ->
  n < size z_src ->
  __init__ f8 issubdtype_int z_tgt z_src fz_dtype fz_src ax up ik ek = Ok self ->
  interpolate_z_target_nd astype self = Err CannotReshape.
Proof.
  intros [Hts Htlen] Hzs Hfs Htnd Hsize Hsmall Hn Hcols Hinit.
  destruct (init_layout f8 issubdtype_int _ _ _ _ _ _ _ _ _ Hzs Hfs Hinit)
    as (n0 & Hzp & Hn0 & Hzshape & Hfshape).
  rewrite Hn in Hn0. injection Hn0 as <-.
  apply init_Ok in Hinit
    as (nt & fp & lh & n' & nj & m & Hnt & _ & _ & Hlh & Hn' & Hnj & _ & Hsz & _ &
        Hzr & Hfr & Hws & _ & Htgt & _); [|assumption|assumption].
  assert (n' = n) as ->.
  { rewrite Hzr in Hzshape. cbn [shape] in Hzshape. now injection Hzshape as _ -> _. }
  assert (shape z_tgt = [nt]) as Hshape.
  { rewrite Htnd in Hnt. change (1 =? 1) with true in Hnt. cbv iota in Hnt.
    unfold ndim in Htnd. destruct (shape z_tgt) as [|c [|]]; cbn in Htnd; try lia.
    change (py_index [c] 0) with (Ok c) in Hnt. congruence. }
  assert (size z_tgt = nt) as Hnt'.
  { unfold size. rewrite Hshape. unfold product. cbn. lia. }
  unfold interpolate_z_target_nd.
  rewrite Hws, Hzr, Hfr, Htgt. cbn [shape drop].
  assert (lh < 2 ^ 32 /\ nj < 2 ^ 32) as [Hlh32 Hnj32] by nia.
  unfold as_unsigned_int.
  destruct (Z.leb_spec 0 lh), (Z.ltb_spec lh (2 ^ 32)); try lia.
  destruct (Z.leb_spec 0 nj), (Z.ltb_spec nj (2 ^ 32)); try lia.
  cbn [andb mbind result_bind].
  rewrite reshape_plain by (repeat constructor; lia).
  destruct (Z.eqb_spec (product [lh; nt; nj]) (size z_tgt)) as [E|_]; [|reflexivity].
  exfalso. unfold product in E. cbn in E.
  assert (1 < lh * nj) by nia. nia.
Qed.

End TargetNd.

Lemma interpolate_z_target_nd_single_witness :
  interpolate_z_target_nd numpy_astype
    (Interpolator linear_interp nan_data_extrap float64 true
       (NDArray [2] [3%float; 5%float]) [3] 0
       (NDArray [1; 3; 1] [2%float; 4%float; 6%float])
       (NDArray [1; 1; 3; 1] [20%float; 40%float; 60%float])
       [1; 1; 2; 1] [2])
  = _Interpolator_interpolate numpy_astype
      (Interpolator linear_interp nan_data_extrap float64 true
         (NDArray [2] [3%float; 5%float]) [3] 0
         (NDArray [1; 3; 1] [2%float; 4%float; 6%float])
         (NDArray [1; 1; 3; 1] [20%float; 40%float; 60%float])
         [1; 1; 2; 1] [2]).
Proof.
  apply (interpolate_z_target_nd_single float64 numpy_issubdtype_int numpy_astype
           (NDArray [2] [3%float; 5%float])
           (NDArray [3] [2%float; 4%float; 6%float])
           float64
           (NDArray [3] [20%float; 40%float; 60%float])
           0 None linear_interp nan_data_extrap).
  - split; [repeat constructor; lia|reflexivity].
  - repeat constructor; lia.
  - repeat constructor; lia.
  - reflexivity.
  - reflexivity.
  - reflexivity.
Defined.

Lemma interpolate_z_target_nd_columns_witness :
  interpolate_z_target_nd numpy_astype
    (Interpolator linear_interp nan_data_extrap float64 true
       (NDArray [2] [3%float; 5%float]) [3; 2] 0
       (NDArray [1; 3; 2] [2%float; 20%float; 4%float; 40%float; 6%float; 60%float])
       (NDArray [1; 1; 3; 2] [2%float; 20%float; 4%float; 40%float; 6%float; 60%float])
       [1; 1; 2; 2] [2; 2])
  = Err CannotReshape.
Proof.
  apply (interpolate_z_target_nd_columns float64 numpy_issubdtype_int numpy_astype
           (NDArray [2] [3%float; 5%float])
           (NDArray [3; 2] [2%float; 20%float; 4%float; 40%float; 6%float; 60%float])
           float64
           (NDArray [3; 2] [2%float; 20%float; 4%float; 40%float; 6%float; 60%float])
           0 None linear_interp nan_data_extrap
           (Interpolator linear_interp nan_data_extrap float64 true
              (NDArray [2] [3%float; 5%float]) [3; 2] 0
              (NDArray [1; 3; 2] [2%float; 20%float; 4%float; 40%float; 6%float; 60%float])
              (NDArray [1; 1; 3; 2] [2%float; 20%float; 4%float; 40%float; 6%float; 60%float])
              [1; 1; 2; 2] [2; 2])
           3).
  - split; [repeat constructor; lia|reflexivity].
  - repeat constructor; lia.
  - repeat constructor; lia.
  - reflexivity.
  - vm_compute. discriminate.
  - vm_compute. reflexivity.
  - reflexivity.
  - vm_compute. reflexivity.
  - reflexivity.
Defined.

(** ** A source coordinate that has no element *)

Section EmptySource.

Context {dtype : Type}.
Variable f8 : dtype.
Variable issubdtype_int : dtype -> bool.
Variable astype : dtype -> float -> float.

(** X13: a source coordinate that has no element (one of its dimensions is
    [0]) is refused.  When the target, the axis and the shapes pass the checks
    of [__init__], the reshape of the coordinate or of the data to their
    working shapes, which leaves one dimension to numpy, raises numpy's error
    of a reshape that cannot be done, and so does [interpolate]. *)
Theorem empty_source_refused (z_tgt z_src : ndarray float) (fz_dtype : dtype)
    (fz_src : ndarray float) (ax : Z) (up : option bool)
    (ik : interp_kernel) (ek : extrap_kernel) (z_target_size fp_axis zp_axis : Z) :
  Forall (fun d => 0 <= d) (shape z_src) ->
  Forall (fun d => 0 <= d) (shape fz_src) ->
  size z_src = 0 ->
  (if ndim z_tgt =? 1 then py_index (shape z_tgt) 0 else py_index (shape z_tgt) ax)
  = Ok z_target_size ->
  resolve_axis ax (ndim fz_src) (ndim z_src) = Ok (fp_axis, zp_axis) ->
  shape z_src = py_tail (shape fz_src) (ndim z_src) ->
  interpolate f8 issubdtype_int astype z_tgt z_src fz_dtype fz_src ax up ik ek
  = Err CannotReshape.
Proof.
  intros Hzs Hfs Hempty Hsize Haxis Hshape. unfold interpolate, __init__.
  rewrite Hsize, Haxis. cbn [mbind result_bind].
  rewrite (bool_decide_eq_true_2 _ Hshape). cbn [negb].
  apply resolve_axis_Ok in Haxis as (_ & _ & _ & Hzp & _); [|unfold ndim; lia].
  destruct (lookup_lt_is_Some_2 (shape z_src) (Z.to_nat zp_axis)) as [n Hn];
    [unfold ndim in Hzp; lia|].
  assert (py_index (1 :: cumprod (shape z_src)) zp_axis
          = Ok (product (take (Z.to_nat zp_axis) (shape z_src)))) as ->.
  { unfold py_index. destruct (Z.ltb_spec zp_axis 0); [lia|].
    rewrite zth_lookup by lia. unfold cumprod.
    rewrite cumprod_from_lookup by (unfold ndim in *; lia). f_equal. lia. }
  assert (py_index (shape z_src) zp_axis = Ok n) as ->.
  { unfold py_index. destruct (Z.ltb_spec zp_axis 0); [lia|].
    now rewrite zth_lookup, Hn by lia. }
  cbn [mbind result_bind].
  set (lh := product (take (Z.to_nat zp_axis) (shape z_src))).
  assert (0 <= lh) as Hlh by (now apply product_pos_take).
  assert (0 <= n) as Hn0.
  { rewrite Forall_lookup in Hzs. eapply Hzs, Hn. }
  rewrite reshape_trailing by assumption.
  destruct (Z.eqb_spec (lh * n) 0) as [|Hlhn]; [reflexivity|].
  rewrite Hempty, Z.mod_0_l by exact Hlhn. cbn [Z.eqb negb orb mbind result_bind shape].
  rewrite Z.div_0_l by exact Hlhn.
  rewrite reshape_leading by lia.
  replace (lh * n * 0) with 0 by lia. reflexivity.
Qed.

End EmptySource.

Lemma empty_source_refused_witness :
  interpolate float64 numpy_issubdtype_int numpy_astype
    (NDArray [2] [3%float; 5%float]) (NDArray [3; 0] []) float64 (NDArray [3; 0] [])
    0 (Some true) linear_interp nan_data_extrap
  = Err CannotReshape.
Proof.
  apply (empty_source_refused float64 numpy_issubdtype_int numpy_astype
           (NDArray [2] [3%float; 5%float]) (NDArray [3; 0] []) float64 (NDArray [3; 0] [])
           0 (Some true) linear_interp nan_data_extrap 2 0 0).
  - repeat constructor; lia.
  - repeat constructor; lia.
  - reflexivity.
  - reflexivity.
  - reflexivity.
  - reflexivity.
Defined.

(** ** The direction of the source coordinate *)

Lemma offset_of_unit (dims : list Z) :
  forall (zp : nat) (k acc o : Z),
    (zp < length dims)%nat ->
    offset_of dims (<[zp := k]> (replicate (length dims) 0)) acc = Ok o ->
    o = acc * product dims + k * product (drop (S zp) dims).
Proof.
  induction dims as [|d dims IH]; intros zp k acc o Hzp; [cbn in Hzp; lia|].
  destruct zp as [|zp]; cbn [length replicate list_insert insert offset_of].
  - destruct ((0 <=? k) && (k <? d)); [|discriminate].
    cbn [drop]. clear IH Hzp. revert acc o.
    assert (forall acc o, offset_of dims (replicate (length dims) 0) acc = Ok o ->
                          o = acc * product dims) as Hzero.
    { induction dims as [|d' dims IH]; intros acc o; cbn [length replicate offset_of].
      - intros [= <-]. unfold product. cbn. lia.
      - destruct ((0 <=? 0) && (0 <? d')); [|discriminate].
        intros H. apply IH in H. rewrite H. unfold product. cbn [foldr]. ring. }
    intros acc o H. apply Hzero in H. rewrite H, drop_0. unfold product. cbn [foldr]. ring.
  - destruct ((0 <=? 0) && (0 <? d)); [|discriminate].
    intros H. apply IH in H; [|cbn in Hzp; lia].
    rewrite H. cbn [drop]. unfold product. cbn [foldr]. ring.
Qed.

Section Direction.

Context {dtype : Type}.
Variable f8 : dtype.
Variable issubdtype_int : dtype -> bool.
Variable astype : dtype -> float -> float.

(** X14: the direction [__init__] works out when [rising] is not given.
    It is read off two values of the source coordinate only, the first two
    values along the interpolation axis at the index [0] of every other axis
    (the elements [0] and [stride] of the coordinate in row-major order,
    [stride] being the product of the dimensions after the axis, that is the
    first two values of the column [(0, 0)]): the coordinate is taken as
    rising when the first is less than or equal to the second, and as falling
    otherwise, also when one of the two is NaN.  Every column is then marched
    in that direction. *)
Theorem rising_inferred (z_tgt z_src : ndarray float) (fz_dtype : dtype)
    (fz_src : ndarray float) (ax : Z) (ik : interp_kernel) (ek : extrap_kernel)
    (self : _Interpolator) (stride : Z) :
  Forall (fun d => 0 <= d) (shape z_src) ->
  Forall (fun d => 0 <= d) (shape fz_src) ->
  __init__ f8 issubdtype_int z_tgt z_src fz_dtype fz_src ax None ik ek = Ok self ->
  stride = product (drop (S (Z.to_nat ((ax + ndim fz_src) mod ndim fz_src
                                       - (ndim fz_src - ndim z_src)))) (shape z_src)) ->
  exists first second : float,
    zth (flat z_src) 0 = Some first /\
    zth (flat z_src) stride = Some second /\
    rising self = (first <=? second)%float.
Proof.
  intros Hzs Hfs Hinit ->. revert Hinit. unfold __init__.
  destruct (if ndim z_tgt =? 1 then _ else _) as [z_target_size|] eqn:Hsize;
    cbn [mbind result_bind]; [|discriminate].
  destruct (resolve_axis _ _ _) as [[fp_axis zp_axis]|] eqn:Haxis;
    cbn [mbind result_bind]; [|discriminate].
  apply resolve_axis_Ok in Haxis as (Hfp & Hfpr & Hzp & Hzpr & _);
    [|unfold ndim; lia].
  rewrite <- Hfp, <- Hzp.
  destruct (negb _); [discriminate|].
  destruct (py_index (1 :: cumprod (shape z_src)) zp_axis) as [lh|];
    cbn [mbind result_bind]; [|discriminate].
  destruct (py_index (shape z_src) zp_axis) as [n|];
    cbn [mbind result_bind]; [|discriminate].
  destruct (reshape z_src _) as [zp_reshaped|]; cbn [mbind result_bind]; [|discriminate].
  destruct (reshape fz_src _) as [fp_reshaped|]; cbn [mbind result_bind]; [|discriminate].
  destruct (py_assign (shape fp_reshaped) 2 _) as [rws|]; cbn [mbind result_bind];
    [|discriminate].
  destruct (py_assign (shape fz_src) fp_axis _) as [rs|]; cbn [mbind result_bind];
    [|discriminate].
  destruct (n <? 2); cbn [mbind result_bind]; [discriminate|].
  unfold item.
  destruct (offset_of (shape z_src) (<[Z.to_nat zp_axis := 0]> _) 0) as [o0|] eqn:H0;
    cbn [mbind result_bind]; [|discriminate].
  destruct (zth (flat z_src) o0) as [first|] eqn:Hfirst; cbn [expect mbind result_bind];
    [|discriminate].
  destruct (offset_of (shape z_src) (<[Z.to_nat zp_axis := 1]> _) 0) as [o1|] eqn:H1;
    cbn [mbind result_bind]; [|discriminate].
  destruct (zth (flat z_src) o1) as [second|] eqn:Hsecond; cbn [expect mbind result_bind];
    [|discriminate].
  intros [= <-]. cbn [rising].
  apply offset_of_unit in H0; [|unfold ndim in Hzpr; lia].
  apply offset_of_unit in H1; [|unfold ndim in Hzpr; lia].
  exists first, second. repeat split.
  - rewrite <- Hfirst. f_equal. lia.
  - rewrite <- Hsecond. f_equal. lia.
Qed.

End Direction.

Lemma rising_inferred_witness :
  exists first second : float,
    zth (flat (NDArray [3; 2] [6%float; 20%float; 4%float; 40%float; 2%float; 60%float])) 0
    = Some first /\
    zth (flat (NDArray [3; 2] [6%float; 20%float; 4%float; 40%float; 2%float; 60%float])) 2
    = Some second /\
    rising (Interpolator linear_interp nan_data_extrap float64 false
              (NDArray [2] [3%float; 5%float]) [3; 2] 0
              (NDArray [1; 3; 2] [6%float; 20%float; 4%float; 40%float; 2%float; 60%float])
              (NDArray [1; 1; 3; 2] [6%float; 20%float; 4%float; 40%float; 2%float; 60%float])
              [1; 1; 2; 2] [2; 2])
    = (first <=? second)%float.
Proof.
  apply (rising_inferred float64 numpy_issubdtype_int
           (NDArray [2] [3%float; 5%float])
           (NDArray [3; 2] [6%float; 20%float; 4%float; 40%float; 2%float; 60%float])
           float64
           (NDArray [3; 2] [6%float; 20%float; 4%float; 40%float; 2%float; 60%float])
           0 linear_interp nan_data_extrap).
  - repeat constructor; lia.
  - repeat constructor; lia.
  - reflexivity.
  - reflexivity.
Defined.

(** ** The order of the doubles *)

Section Keys.

Variables fprec femax : Z.
Hypothesis fprec_pos : 0 < fprec.
Hypothesis femax_above : SpecFloat.emin fprec femax <= femax.

Lemma finite_key_bound (m : positive) (e : Z) :
  bounded fprec femax m e = true ->
  0 < Zpos m * 2 ^ (e - SpecFloat.emin fprec femax)
    < 2 ^ (femax - SpecFloat.emin fprec femax).
Proof.
  intros Hb. pose proof (canonical_exponent fprec femax m e Hb) as [Hc He].
  unfold bounded in Hb. apply andb_prop in Hb as [_ Hmax]. apply Z.leb_le in Hmax.
  unfold SpecFloat.fexp in Hc.
  pose proof (digits2_pos_bounds m) as [_ Hm].
  assert (0 < 2 ^ (e - SpecFloat.emin fprec femax)) by (apply Z.pow_pos_nonneg; lia).
  split; [lia|].
  assert (2 ^ Zpos (digits2_pos m) <= 2 ^ fprec) by (apply Z.pow_le_mono_r; lia).
  assert (2 ^ fprec * 2 ^ (e - SpecFloat.emin fprec femax)
          <= 2 ^ (femax - SpecFloat.emin fprec femax)).
  { rewrite <- Z.pow_add_r by lia. apply Z.pow_le_mono_r; lia. }
  nia.
Qed.

Lemma SFcompare_key (x y : spec_float) :
  SpecFloat.valid_binary fprec femax x = true ->
  SpecFloat.valid_binary fprec femax y = true ->
  x <> S754_nan -> y <> S754_nan ->
  SFcompare x y
  = Some (match x with
          | S754_zero _ | S754_nan => 0
          | S754_infinity s => cond_Zopp s (2 ^ (femax - SpecFloat.emin fprec femax))
          | S754_finite s m e =>
              cond_Zopp s (Zpos m * 2 ^ (e - SpecFloat.emin fprec femax))
          end
          ?= match y with
             | S754_zero _ | S754_nan => 0
             | S754_infinity s => cond_Zopp s (2 ^ (femax - SpecFloat.emin fprec femax))
             | S754_finite s m e =>
                 cond_Zopp s (Zpos m * 2 ^ (e - SpecFloat.emin fprec femax))
             end).
Proof.
  intros Vx Vy Hx Hy.
  assert (0 < 2 ^ (femax - SpecFloat.emin fprec femax)) as Hbig
    by (apply Z.pow_pos_nonneg; lia).
  destruct x as [sx|sx| |sx mx ex], y as [sy|sy| |sy my ey]; try contradiction;
    cbn [SFcompare SpecFloat.valid_binary] in *.
  - reflexivity.
  - f_equal. destruct sy; cbn [cond_Zopp]; symmetry;
      [apply Z.compare_gt_iff|apply Z.compare_lt_iff]; lia.
  - pose proof (finite_key_bound _ _ Vy).
    f_equal. destruct sy; cbn [cond_Zopp]; symmetry;
      [apply Z.compare_gt_iff|apply Z.compare_lt_iff]; lia.
  - f_equal. destruct sx; cbn [cond_Zopp]; symmetry;
      [apply Z.compare_lt_iff|apply Z.compare_gt_iff]; lia.
  - f_equal. destruct sx, sy; cbn [cond_Zopp]; symmetry;
      first [apply Z.compare_eq_iff; lia|apply Z.compare_lt_iff; lia
            |apply Z.compare_gt_iff; lia].
  - pose proof (finite_key_bound _ _ Vy).
    f_equal. destruct sx, sy; cbn [cond_Zopp]; symmetry;
      first [apply Z.compare_lt_iff; lia|apply Z.compare_gt_iff; lia].
  - pose proof (finite_key_bound _ _ Vx).
    f_equal. destruct sx; cbn [cond_Zopp]; symmetry;
      [apply Z.compare_lt_iff|apply Z.compare_gt_iff]; lia.
  - pose proof (finite_key_bound _ _ Vx).
    f_equal. destruct sx, sy; cbn [cond_Zopp]; symmetry;
      first [apply Z.compare_lt_iff; lia|apply Z.compare_gt_iff; lia].
  - destruct (canonical_exponent _ _ _ _ Vx) as [_ Hex].
    destruct (canonical_exponent _ _ _ _ Vy) as [_ Hey].
    apply (SFcompare_aligned fprec femax fprec_pos); assumption.
Qed.

End Keys.

Lemma compare_key (x y : float) :
  isnan x = false -> isnan y = false ->
  SFcompare (Prim2SF x) (Prim2SF y) = Some (float_key x ?= float_key y).
Proof.
  intros Hx Hy. apply isnan_false_SF in Hx, Hy.
  rewrite (SFcompare_key prec emax) ; try assumption;
    try apply Prim2SF_valid; try reflexivity; try discriminate.
Qed.

Lemma ltb_key (x y : float) :
  isnan x = false -> isnan y = false ->
  (x <? y)%float = (float_key x <? float_key y).
Proof.
  intros Hx Hy. rewrite ltb_spec. unfold SFltb. rewrite (compare_key x y Hx Hy).
  reflexivity.
Qed.

Lemma eqb_key (x y : float) :
  isnan x = false -> isnan y = false ->
  (x =? y)%float = (float_key x =? float_key y).
Proof.
  intros Hx Hy. rewrite FloatAxioms.eqb_spec. unfold SFeqb.
  rewrite (compare_key x y Hx Hy).
  rewrite Z.eqb_compare. reflexivity.
Qed.

(** The sign of a value relative to a level, in the order of the doubles. *)
Lemma relative_sign_key (z t : float) :
  isnan z = false -> isnan t = false ->
  relative_sign z t = Z.sgn (float_key z - float_key t).
Proof.
  intros Hz Ht. rewrite relative_sign_compare, !ltb_key by assumption.
  destruct (Z.ltb_spec (float_key t) (float_key z)),
           (Z.ltb_spec (float_key z) (float_key t)); cbn [Z.b2z]; lia.
Qed.

(** ** A source and levels that go forwards *)

Lemma ltb_not_nan (a b : float) :
  (a <? b)%float = true -> isnan a = false /\ isnan b = false.
Proof.
  rewrite ltb_spec. unfold SFltb. intros H.
  destruct (isnan a) eqn:Ha, (isnan b) eqn:Hb; auto; exfalso.
  - apply isnan_true_SF in Ha. rewrite Ha in H. discriminate.
  - apply isnan_true_SF in Ha. rewrite Ha in H. discriminate.
  - apply isnan_true_SF in Hb. rewrite Hb in H.
    destruct (Prim2SF a); discriminate.
Qed.

Lemma before_not_nan (increasing : bool) (a b : float) :
  before increasing a b = true -> isnan a = false /\ isnan b = false.
Proof.
  unfold before. destruct increasing; intros H; apply ltb_not_nan in H; tauto.
Qed.

Lemma before_key (increasing : bool) (a b : float) :
  isnan a = false -> isnan b = false ->
  before increasing a b
  = if increasing then float_key a <? float_key b else float_key b <? float_key a.
Proof. intros Ha Hb. unfold before. destruct increasing; now apply ltb_key. Qed.

Lemma before_trans (increasing : bool) (a b c : float) :
  before increasing a b = true -> before increasing b c = true ->
  before increasing a c = true.
Proof.
  intros Hab Hbc.
  destruct (before_not_nan _ _ _ Hab) as [Ha Hb].
  destruct (before_not_nan _ _ _ Hbc) as [_ Hc].
  rewrite before_key in * by assumption.
  destruct increasing; apply Z.ltb_lt in Hab, Hbc; apply Z.ltb_lt; lia.
Qed.

Lemma relative_sign_before (increasing : bool) (a t : float) :
  before increasing a t = true -> relative_sign a t = side_before increasing.
Proof.
  intros H. destruct (before_not_nan _ _ _ H) as [Ha Ht].
  rewrite before_key in H by assumption.
  rewrite relative_sign_key by assumption. unfold side_before.
  destruct increasing; apply Z.ltb_lt in H; lia.
Qed.

Lemma relative_sign_after (increasing : bool) (a t : float) :
  before increasing t a = true -> relative_sign a t = - side_before increasing.
Proof.
  intros H. destruct (before_not_nan _ _ _ H) as [Ht Ha].
  rewrite before_key in H by assumption.
  rewrite relative_sign_key by assumption. unfold side_before.
  destruct increasing; apply Z.ltb_lt in H; lia.
Qed.

Lemma relative_sign_not_before (increasing : bool) (a t : float) :
  isnan a = false -> isnan t = false ->
  relative_sign a t <> side_before increasing -> before increasing a t = false.
Proof.
  intros Ha Ht H. rewrite before_key by assumption.
  rewrite relative_sign_key in H by assumption. unfold side_before in H.
  destruct increasing; apply Z.ltb_ge; lia.
Qed.

Lemma relative_sign_eqb (a t : float) :
  isnan a = false -> isnan t = false ->
  (relative_sign a t =? 0) = (t =? a)%float.
Proof.
  intros Ha Ht. rewrite relative_sign_key, eqb_key by assumption.
  destruct (Z.eqb_spec (Z.sgn (float_key a - float_key t)) 0),
           (Z.eqb_spec (float_key t) (float_key a)); try reflexivity; lia.
Qed.

Lemma before_first_last (increasing : bool) :
  before increasing (z_first increasing) (z_last increasing) = true.
Proof. now destruct increasing. Qed.

Lemma filter_all {A : Type} (P : A -> Prop) `{forall x, Decision (P x)} (l : list A) :
  Forall P l -> filter P l = l.
Proof.
  induction 1 as [|x l Hx _ IH]; [reflexivity|].
  rewrite filter_cons. destruct (decide (P x)); [now rewrite IH|contradiction].
Qed.

Lemma filter_none {A : Type} (P : A -> Prop) `{forall x, Decision (P x)} (l : list A) :
  Forall (fun x => ~ P x) l -> filter P l = [].
Proof.
  induction 1 as [|x l Hx _ IH]; [reflexivity|].
  rewrite filter_cons. destruct (decide (P x)); [contradiction|exact IH].
Qed.

(** The source values that come before a level are the first [rank] ones. *)
Lemma rank_prefix (increasing : bool) (z_src : list float) (t : float) (k : nat) :
  forwards increasing z_src ->
  (k <= length z_src)%nat ->
  (forall j zj, (j < k)%nat -> z_src !! j = Some zj -> before increasing zj t = true) ->
  (forall zk, z_src !! k = Some zk -> before increasing zk t = false) ->
  rank increasing z_src t = Z.of_nat k.
Proof.
  intros Hsorted Hk Hlow Hnot. unfold rank. f_equal.
  rewrite <- (take_drop k z_src) at 1. rewrite filter_app, length_app.
  rewrite filter_all, filter_none.
  - rewrite length_take. cbn. lia.
  - apply Forall_lookup. intros j zj Hj. rewrite lookup_drop in Hj.
    destruct (z_src !! k) as [zk|] eqn:Hzk.
    + specialize (Hnot zk eq_refl). intros Hb.
      destruct j as [|j].
      * rewrite Nat.add_0_r in Hj. congruence.
      * assert (before increasing zk zj = true) as Hkj
          by (apply (Hsorted k (k + S j)%nat); [lia|assumption|assumption]).
        rewrite (before_trans _ _ _ _ Hkj Hb) in Hnot. discriminate.
    + apply lookup_ge_None in Hzk. apply lookup_lt_Some in Hj. lia.
  - apply Forall_lookup. intros j zj Hj.
    apply lookup_take_Some in Hj as [Hj Hlt]. eauto.
Qed.

Lemma relative_sign_side (increasing : bool) (a t : float) :
  isnan a = false -> isnan t = false ->
  relative_sign a t = side_before increasing -> before increasing a t = true.
Proof.
  intros Ha Ht H. rewrite before_key by assumption.
  rewrite relative_sign_key in H by assumption. unfold side_before in H.
  destruct increasing; apply Z.ltb_lt; lia.
Qed.

Lemma side_before_nonzero (increasing : bool) : side_before increasing <> 0.
Proof. now destruct increasing. Qed.

Section Sorted.

Variables (z_target z_src : list float) (fz_src : grid float).
Variable increasing : bool.
Variable ik : interp_kernel.
Variable ek : extrap_kernel.
Hypothesis src_forwards : forwards increasing z_src.
Hypothesis src_not_nan : Forall (fun z => isnan z = false) z_src.
Hypothesis src_nonempty : 1 <= Z.of_nat (length z_src).
Hypothesis counters_small :
  Z.of_nat (length z_src) + Z.of_nat (length z_target) < 2 ^ 32.
Hypothesis tgt_finite :
  Forall (fun t => before increasing (z_first increasing) t = true /\
                   before increasing t (z_last increasing) = true) z_target.

Lemma source_value (j : Z) (zj : float) :
  zth z_src j = Some zj -> isnan zj = false.
Proof.
  intros H. apply zth_Some in H as [_ H].
  rewrite Forall_lookup in src_not_nan. eapply src_not_nan, H.
Qed.

Lemma rank_at (t : float) (i : Z) :
  0 <= i <= Z.of_nat (length z_src) ->
  (forall j zj, 0 <= j < i -> zth z_src j = Some zj -> before increasing zj t = true) ->
  (forall zi, zth z_src i = Some zi -> before increasing zi t = false) ->
  rank increasing z_src t = i.
Proof.
  intros Hi Hlow Hnot.
  rewrite (rank_prefix increasing z_src t (Z.to_nat i)); try assumption; try lia.
  - intros j zj Hj Hz. apply (Hlow (Z.of_nat j)); [lia|]. now rewrite zth_nat.
  - intros zk Hz. apply Hnot. now rewrite zth_lookup by lia.
Qed.

(** One level of the march of a source that goes forwards, for a level
    that comes after the lower edge of the window. *)
Lemma level_step_follows (w : window) (k : nat) (t : float) (g : grid cell) :
  window_follows z_src increasing w ->
  i_src w + 1 < 2 ^ 32 ->
  z_target !! k = Some t ->
  before increasing (z_before w) t = true ->
  exists w' : window,
    level_step z_target z_src fz_src increasing ik ek w (Z.of_nat k) g
    = settle g t w'
        (bracket_dispatch z_src fz_src increasing ik ek t (Column g (Z.of_nat k))) /\
    window_follows z_src increasing
      (Window t (z_after w') (i_src w') (extrapolating w')) /\
    i_src w' <= Z.max (i_src w + 1) (Z.of_nat (length z_src)).
Proof.
  intros (Hb & Hlow & Hok & Hin) Hsmall Ht Hbt.
  pose proof (n_src_length z_src ltac:(lia)) as Hlen.
  destruct (before_not_nan _ _ _ Hbt) as [_ Hnan].
  assert (before increasing t (z_last increasing) = true) as Hfin.
  { rewrite Forall_lookup in tgt_finite. now destruct (tgt_finite _ _ Ht). }
  pose proof (relative_sign_before _ _ _ Hbt) as Hsb.
  assert (forall j zj, 0 <= j < i_src w -> zth z_src j = Some zj ->
                       before increasing zj t = true) as Hlow'.
  { intros j zj Hj Hz. eapply before_trans; [|exact Hbt]. eauto. }
  unfold level_step. rewrite zth_nat, Ht, Hnan, Hsb.
  destruct (Z.ltb_spec (i_src w) (n_src z_src)) as [Hinside|Hpast].
  - (* the window is inside the source *)
    assert (0 <= i_src w /\ zth z_src (i_src w) = Some (z_after w)) as [Hi0 Hza].
    { destruct Hok as [(_&E&?)|[(_&?&?)|(_&?&_)]]; [rewrite E in *|..]; try lia;
        (split; [lia|assumption]). }
    pose proof (source_value _ _ Hza) as Hzan.
    destruct (advance_crossing z_src increasing ltac:(lia) t (side_before increasing)
                (S (Z.to_nat (n_src z_src))) w (relative_sign (z_after w) t))
      as [(w' & sa' & Hadv & Hzb & Hside & Hcases)|(_ & _ & j & zj & _ & Hzj & Hnj & _)];
      [lia|lia| |].
    2:{ exfalso. rewrite (source_value _ _ Hzj) in Hnj. discriminate. }
    rewrite Hadv. exists w'.
    destruct Hcases as [(Hne & -> & ->)|[(He & Hi & Hext & Hz' & Hn' & Hsa & Hdiff)
                                       |(He & Hi & Hext & Hz' & Hsa)]].
    + (* the window stays *)
      pose proof (relative_sign_not_before _ _ _ Hzan Hnan Hne) as Hnot.
      assert (rank increasing z_src t = i_src w) as Hrank.
      { apply rank_at; [lia|exact Hlow'|]. intros zi Hzi. congruence. }
      split; [|split].
      * unfold bracket_dispatch. rewrite Hrank.
        destruct Hok as [(E&Ei&_)|[(E&_&_)|(E&?&_)]]; [| |lia]; rewrite E.
        -- rewrite Ei in *. cbn [Z.eqb].
           destruct z_src as [|z0 zs] eqn:Hsrc; [discriminate|].
           injection Hza as Hz0. rewrite <- Hz0.
           now rewrite (relative_sign_eqb z0 t) by (subst; assumption).
        -- specialize (Hin E). cbn [Z.eqb orb].
           destruct (Z.eqb_spec (i_src w) 0) as [|_]; [lia|].
           destruct (Z.ltb_spec (i_src w) (Z.of_nat (length z_src))) as [_|]; [|lia].
           reflexivity.
      * repeat split; cbn [z_before i_src z_after extrapolating]; try assumption.
        all: try (destruct Hok as [(?&?&?)|[(?&?&?)|(?&?&?)]];
                  [left|right; left|right; right]; cbn; auto).
      * lia.
    + (* the window moves to a later source value *)
      pose proof (relative_sign_not_before _ _ _ Hn' Hnan
                    ltac:(rewrite <- Hsa; exact Hdiff)) as Hnot.
      assert (forall j zj, 0 <= j < i_src w' -> zth z_src j = Some zj ->
                           before increasing zj t = true) as Hlow''.
      { intros j zj Hj Hz.
        destruct (Z.ltb_spec j (i_src w)); [now apply (Hlow' j)|].
        destruct (Z.eq_dec j (i_src w)) as [->|Hne].
        - assert (zj = z_after w) as -> by congruence.
          now apply relative_sign_side.
        - destruct (Hside j) as (z & Hz2 & Hzn & Hzs); [lia|].
          assert (zj = z) as -> by congruence.
          now apply relative_sign_side. }
      assert (rank increasing z_src t = i_src w') as Hrank.
      { apply rank_at; [lia|exact Hlow''|]. intros zi Hzi. congruence. }
      split; [|split].
      * unfold bracket_dispatch. rewrite Hrank, Hext. cbn [Z.eqb orb].
        destruct (Z.eqb_spec (i_src w') 0) as [|_]; [lia|].
        destruct (Z.ltb_spec (i_src w') (Z.of_nat (length z_src))) as [_|]; [|lia].
        reflexivity.
      * repeat split; cbn [z_before i_src z_after extrapolating]; try assumption.
        -- right. left. cbn. repeat split; try assumption; lia.
        -- lia.
      * lia.
    + (* the window runs off the end of the source *)
      assert (forall j zj, 0 <= j < i_src w' -> zth z_src j = Some zj ->
                           before increasing zj t = true) as Hlow''.
      { intros j zj Hj Hz.
        destruct (Z.ltb_spec j (i_src w)); [now apply (Hlow' j)|].
        destruct (Z.eq_dec j (i_src w)) as [->|Hne].
        - assert (zj = z_after w) as -> by congruence.
          now apply relative_sign_side.
        - destruct (Hside j) as (z & Hz2 & Hzn & Hzs); [lia|].
          assert (zj = z) as -> by congruence.
          now apply relative_sign_side. }
      assert (rank increasing z_src t = Z.of_nat (length z_src)) as Hrank.
      { apply rank_at; [lia|intros j zj Hj; apply Hlow''; lia|].
        intros zi Hzi. apply zth_Some in Hzi. lia. }
      pose proof (relative_sign_after _ _ _ Hfin) as Hlast.
      pose proof (side_before_nonzero increasing) as Hnz.
      split; [|split].
      * unfold bracket_dispatch. rewrite Hrank, Hext, Hsa, Hlast.
        cbn [Z.eqb orb].
        destruct (Z.eqb_spec (- side_before increasing) 0) as [|_]; [lia|].
        destruct (Z.eqb_spec (Z.of_nat (length z_src)) 0) as [|_]; [lia|].
        destruct (Z.ltb_spec (Z.of_nat (length z_src)) (Z.of_nat (length z_src)))
          as [|_]; [lia|].
        reflexivity.
      * repeat split; cbn [z_before i_src z_after extrapolating]; try assumption.
        -- right. right. cbn. repeat split; try assumption; lia.
        -- lia.
      * lia.
  - (* the window is past the end of the source *)
    assert (extrapolating w = 1 /\ z_after w = z_last increasing) as [Hext Hzl].
    { destruct Hok as [(_&E&?)|[(_&?&?)|(?&?&?)]]; [rewrite E in *|..]; try lia; auto. }
    pose proof (relative_sign_after _ _ _ Hfin) as Hlast.
    pose proof (side_before_nonzero increasing) as Hnz.
    rewrite Hzl, Hlast. cbn [advance].
    destruct (Z.eqb_spec (side_before increasing) (- side_before increasing)) as [|_];
      [lia|].
    exists w.
    assert (rank increasing z_src t = Z.of_nat (length z_src)) as Hrank.
    { apply rank_at; [lia|intros j zj Hj; apply Hlow'; lia|].
      intros zi Hzi. apply zth_Some in Hzi. lia. }
    split; [|split].
    + unfold bracket_dispatch. rewrite Hrank, Hext. cbn [Z.eqb orb].
      destruct (Z.eqb_spec (- side_before increasing) 0) as [|_]; [lia|].
      destruct (Z.eqb_spec (Z.of_nat (length z_src)) 0) as [|_]; [lia|].
      destruct (Z.ltb_spec (Z.of_nat (length z_src)) (Z.of_nat (length z_src)))
        as [|_]; [lia|].
      reflexivity.
    + repeat split; cbn [z_before i_src z_after extrapolating]; try assumption.
      all: try (destruct Hok as [(?&?&?)|[(?&?&?)|(?&?&?)]];
                [left|right; left|right; right]; cbn; auto).
    + lia.
Qed.

End Sorted.

Section ForwardMarch.

Variables (z_target z_src : list float) (fz_src : grid float).
Variable increasing : bool.
Variable ik : interp_kernel.
Variable ek : extrap_kernel.
Hypothesis src_forwards : forwards increasing z_src.
Hypothesis src_not_nan : Forall (fun z => isnan z = false) z_src.
Hypothesis src_nonempty : 1 <= Z.of_nat (length z_src).
Hypothesis counters_small :
  Z.of_nat (length z_src) + Z.of_nat (length z_target) < 2 ^ 32.
Hypothesis tgt_forwards : forwards increasing z_target.
Hypothesis tgt_finite :
  Forall (fun t => before increasing (z_first increasing) t = true /\
                   before increasing t (z_last increasing) = true) z_target.

Lemma levels_bracket (rest : list float) :
  forall (k : nat) (w : window) (g : grid cell),
    window_follows z_src increasing w ->
    i_src w <= Z.of_nat (length z_src) + Z.of_nat k ->
    (forall i t, rest !! i = Some t -> z_target !! (k + i)%nat = Some t) ->
    (forall t, rest !! 0%nat = Some t -> before increasing (z_before w) t = true) ->
    match levels z_target z_src fz_src increasing ik ek
            (Z.of_nat <$> seq k (length rest)) w g with
    | (g', Ok _) => (g', Ok tt)
    | (g', Err e) => (g', Err e)
    end
    = bracket_levels z_src fz_src increasing ik ek
        (zip (Z.of_nat <$> seq k (length rest)) rest) g.
Proof.
  induction rest as [|t rest IH]; intros k w g Hw Hbound Hrest Hhead; [reflexivity|].
  cbn [length seq fmap list_fmap zip zip_with levels bracket_levels].
  assert (z_target !! k = Some t) as Ht.
  { rewrite <- (Nat.add_0_r k). now apply Hrest. }
  assert (Z.of_nat k < Z.of_nat (length z_target)) as Hk
    by (apply lookup_lt_Some in Ht; lia).
  destruct (level_step_follows z_target z_src fz_src increasing ik ek
              src_forwards src_not_nan src_nonempty counters_small tgt_finite
              w k t g Hw ltac:(lia) Ht (Hhead t eq_refl))
    as (w' & -> & Hw' & Hle).
  destruct (bracket_dispatch _ _ _ _ _ _ _) as [c|e]; cbn [settle]; [|reflexivity].
  apply IH.
  - exact Hw'.
  - cbn [i_src]. lia.
  - intros i t' Hi. replace (S k + i)%nat with (k + S i)%nat by lia. now apply Hrest.
  - intros t' Ht'. cbn [z_before].
    apply (tgt_forwards k (S k)); [lia|exact Ht|].
    replace (S k) with (k + 1)%nat by lia. now apply Hrest.
Qed.

End ForwardMarch.

(** X15: the march of a column whose source coordinate and whose levels
    both go strictly forwards in the direction of the march (strictly rising
    for a rising march, strictly falling for a falling one), with no NaN in
    the source and with finite levels.  Each level is then handled by its
    place in the whole source alone: it is interpolated at the index of the
    first source value that does not come before it, in the bracket that
    holds it (or at the index [0] when it is exactly on the first source
    value), and it is extrapolated at the bottom edge when it comes before the
    first source value and at the top edge when it comes after the last one.
    The window the marcher moves along the source gives what a search of the
    whole source for each level gives. *)
Theorem forward_march (z_target z_src : list float) (fz_src : grid float)
    (increasing : bool) (ik : interp_kernel) (ek : extrap_kernel) (g : grid cell) :
  forwards increasing z_src ->
  Forall (fun z => isnan z = false) z_src ->
  1 <= Z.of_nat (length z_src) ->
  Z.of_nat (length z_src) + Z.of_nat (length z_target) < 2 ^ 32 ->
  forwards increasing z_target ->
  Forall (fun t => before increasing (z_first increasing) t = true /\
                   before increasing t (z_last increasing) = true) z_target ->
  gridwise_interpolation z_target z_src fz_src increasing ik ek g
  = bracket_march z_target z_src fz_src increasing ik ek g.
Proof.
  intros Hsrc Hnan Hne Hsmall Htgt Hfin.
  destruct z_src as [|z0 zs] eqn:Ez; [cbn in Hne; lia|]. rewrite <- Ez in *.
  assert (zth z_src 0 = Some z0) as Hz0 by (now rewrite Ez).
  assert (isnan z0 = false) as Hnan0.
  { rewrite Ez in Hnan. now inversion Hnan. }
  unfold gridwise_interpolation, bracket_march, n_target.
  rewrite u32_small by lia. rewrite Hz0. cbn [expect mbind result_bind].
  rewrite Hnan0.
  assert ((if negb (Z.of_nat (length z_target) =? 0) then Ok false else Ok false)
          = @Ok bool false) as -> by (now destruct (negb _)).
  unfold range. rewrite Nat2Z.id.
  rewrite <- (levels_bracket z_target z_src fz_src increasing ik ek
                Hsrc Hnan Hne Hsmall Htgt Hfin z_target 0 (first_window increasing z0) g).
  - now destruct (levels _ _ _ _ _ _ _ _ _) as [g' [w'|e]].
  - repeat split.
    + apply z_first_not_nan.
    + cbn [i_src first_window]. intros j zj Hj. lia.
    + now apply first_window_ok.
    + cbn. lia.
  - cbn. lia.
  - auto.
  - intros t Ht. cbn [z_before first_window].
    rewrite Forall_lookup in Hfin. now destruct (Hfin _ _ Ht).
Qed.

Lemma forward_march_witness :
  gridwise_interpolation [1%float; 3%float; 7%float] [2%float; 4%float; 6%float]
    (Grid [[20%float; 40%float; 60%float]] 3) true linear_interp nearest_edge_extrap
    (empty_grid 1 3)
  = bracket_march [1%float; 3%float; 7%float] [2%float; 4%float; 6%float]
      (Grid [[20%float; 40%float; 60%float]] 3) true linear_interp nearest_edge_extrap
      (empty_grid 1 3).
Proof.
  apply (forward_march [1%float; 3%float; 7%float] [2%float; 4%float; 6%float]
           (Grid [[20%float; 40%float; 60%float]] 3) true linear_interp
           nearest_edge_extrap (empty_grid 1 3)).
  - intros i j a b Hij Ha Hb.
    destruct i as [|[|[|i]]], j as [|[|[|j]]]; cbn in Ha, Hb; try lia; try discriminate;
      injection Ha as <-; injection Hb as <-; reflexivity.
  - repeat constructor.
  - vm_compute. discriminate.
  - vm_compute. reflexivity.
  - intros i j a b Hij Ha Hb.
    destruct i as [|[|[|i]]], j as [|[|[|j]]]; cbn in Ha, Hb; try lia; try discriminate;
      injection Ha as <-; injection Hb as <-; reflexivity.
  - repeat constructor.
Defined.

(** ** The march goes forwards only *)

Section Forwards.

Variables (z_target z_src : list float) (fz_src : grid float).
Variable increasing : bool.
Variable ik : interp_kernel.
Variable ek : extrap_kernel.

Lemma advance_forwards (fuel : nat) (t : float) (sb : Z) :
  forall (w : window) (sa : Z) (w' : window) (sa' : Z),
    0 <= i_src w -> i_src w + 1 < 2 ^ 32 ->
    advance z_src increasing fuel t sb w sa = Ok (w', sa') ->
    i_src w <= i_src w' <= Z.max (i_src w + 1) (n_src z_src).
Proof.
  pose proof (u32_range (Z.of_nat (length z_src))) as Hn. fold (n_src z_src) in Hn.
  induction fuel as [|fuel IH]; intros w sa w' sa' H0 Hsmall; cbn [advance].
  - destruct (sb =? sa); [discriminate|]. intros [= <- <-]. lia.
  - destruct (sb =? sa); [|intros [= <- <-]; lia].
    rewrite u32_small by lia.
    destruct (Z.ltb_spec (i_src w + 1) (n_src z_src)) as [Hlt|Hge].
    + destruct (zth z_src (i_src w + 1)) as [z|]; cbn [expect mbind result_bind];
        [|discriminate].
      destruct (isnan z); [discriminate|].
      intros Hadv. apply IH in Hadv; cbn [i_src] in *; lia.
    + intros [= <- <-]. cbn [i_src]. lia.
Qed.

Lemma levels_forwards (ixs : list Z) :
  forall (w w' : window) (g g' : grid cell),
    0 <= i_src w ->
    Z.max (i_src w) (n_src z_src) + Z.of_nat (length ixs) < 2 ^ 32 ->
    levels z_target z_src fz_src increasing ik ek ixs w g = (g', Ok w') ->
    i_src w <= i_src w' <= Z.max (i_src w) (n_src z_src) + Z.of_nat (length ixs).
Proof.
  pose proof (u32_range (Z.of_nat (length z_src))) as Hn. fold (n_src z_src) in Hn.
  induction ixs as [|i ixs IH]; intros w w' g g' H0 Hsmall; cbn [levels length];
    cbn [length] in Hsmall.
  - intros [= <- <-]. lia.
  - destruct (level_step _ _ _ _ _ _ w i g) as [g1 [w1|e]] eqn:Hstep; [|discriminate].
    apply level_step_Ok in Hstep as (t & w2 & sa' & c & _ & _ & Hadv & _ & _ & ->).
    apply advance_forwards in Hadv; [|lia|lia].
    intros Hrest. apply IH in Hrest; cbn [i_src] in *; lia.
Qed.

(** X16: the march goes forwards only.  Whatever the levels are, and in
    whatever order they come, the index of the window along the source never
    decreases from one level to a later one: a level is looked for from the
    place where the level before it was found, never from the start of the
    source.  (The index is an [unsigned int]: the source and the levels
    together are fewer than [2 ^ 32].) *)
Theorem march_never_steps_back (ixs1 ixs2 : list Z) (z0 : float)
    (g g1 g2 : grid cell) (w1 w2 : window) :
  Z.of_nat (length z_src) + Z.of_nat (length ixs1) + Z.of_nat (length ixs2) < 2 ^ 32 ->
  levels z_target z_src fz_src increasing ik ek ixs1 (first_window increasing z0) g
  = (g1, Ok w1) ->
  levels z_target z_src fz_src increasing ik ek ixs2 w1 g1 = (g2, Ok w2) ->
  0 <= i_src w1 <= i_src w2.
Proof.
  intros Hsmall H1 H2.
  assert (n_src z_src = Z.of_nat (length z_src)) as Hn
    by (apply n_src_length; lia).
  apply levels_forwards in H1; cbn [i_src first_window] in *; [|lia|lia].
  apply levels_forwards in H2; lia.
Qed.

End Forwards.

Lemma march_never_steps_back_witness :
  0 <= i_src (Window 5%float 6%float 2 0) <= i_src (Window 3%float INFINITY 3 1).
Proof.
  apply (march_never_steps_back [5%float; 3%float] [2%float; 4%float; 6%float]
           (Grid [[2%float; 4%float; 6%float]] 3) true linear_interp nan_data_extrap
           [0] [1] 2%float (empty_grid 1 2)
           (Grid [[Some 5%float; None]] 2) (Grid [[Some 5%float; Some NAN]] 2)).
  - vm_compute. reflexivity.
  - vm_compute. reflexivity.
  - vm_compute. reflexivity.
Defined.

(** ** A target coordinate that is not one-dimensional *)

Section TargetRank.

Context {dtype : Type}.
Variable f8 : dtype.
Variable issubdtype_int : dtype -> bool.
Variable astype : dtype -> float -> float.

(** X17: [__init__] accepts a target coordinate of any rank that has the
    axis, but [interpolate] takes it as a one-dimensional buffer: for a target
    that [__init__] accepts and that is not one-dimensional, [interpolate]
    raises the error of a buffer with the wrong number of dimensions, once the
    result buffer is allocated and before any column is marched. *)
Theorem target_rank_refused (z_tgt z_src : ndarray float) (fz_dtype : dtype)
    (fz_src : ndarray float) (ax : Z) (up : option bool)
    (ik : interp_kernel) (ek : extrap_kernel) (self : _Interpolator) :
  Forall (fun d => 0 <= d) (shape z_src) ->
  Forall (fun d => 0 <= d) (shape fz_src) ->
  size z_src < 2 ^ 32 ->
  ndim z_tgt <> 1 ->
  __init__ f8 issubdtype_int z_tgt z_src fz_dtype fz_src ax up ik ek = Ok self ->
  interpolate f8 issubdtype_int astype z_tgt z_src fz_dtype fz_src ax up ik ek
  = Err BufferDimensions.
Proof.
  intros Hzs Hfs Hsmall Hnd Hinit. unfold interpolate. rewrite Hinit.
  cbn [mbind result_bind].
  apply init_Ok in Hinit
    as (nt & fp & lh & n & nj & m & _ & _ & _ & Hlh & Hn & Hnj & _ & Hsz & _ &
        Hzp & Hfpr & Hws & _ & Htgt & _); [|assumption|assumption].
  unfold _Interpolator_interpolate. rewrite Hws, Hzp, Hfpr, Htgt. cbn [shape].
  assert (lh < 2 ^ 32 /\ nj < 2 ^ 32) as [Hlh32 Hnj32] by nia.
  unfold as_unsigned_int.
  destruct (Z.leb_spec 0 lh), (Z.ltb_spec lh (2 ^ 32)); try lia.
  destruct (Z.leb_spec 0 nj), (Z.ltb_spec nj (2 ^ 32)); try lia.
  cbn [andb mbind result_bind].
  destruct (Z.eqb_spec (ndim z_tgt) 1) as [|_]; [contradiction|reflexivity].
Qed.

End TargetRank.

Lemma target_rank_refused_witness :
  interpolate float64 numpy_issubdtype_int numpy_astype
    (NDArray [2; 1] [3%float; 5%float])
    (NDArray [3] [2%float; 4%float; 6%float]) float64
    (NDArray [3] [20%float; 40%float; 60%float])
    0 None linear_interp nan_data_extrap
  = Err BufferDimensions.
Proof.
  apply (target_rank_refused float64 numpy_issubdtype_int numpy_astype
           (NDArray [2; 1] [3%float; 5%float])
           (NDArray [3] [2%float; 4%float; 6%float]) float64
           (NDArray [3] [20%float; 40%float; 60%float])
           0 None linear_interp nan_data_extrap
           (Interpolator linear_interp nan_data_extrap float64 true
              (NDArray [2; 1] [3%float; 5%float]) [3] 0
              (NDArray [1; 3; 1] [2%float; 4%float; 6%float])
              (NDArray [1; 1; 3; 1] [20%float; 40%float; 60%float])
              [1; 1; 2; 1] [2])).
  - repeat constructor; lia.
  - repeat constructor; lia.
  - vm_compute. reflexivity.
  - vm_compute. discriminate.
  - reflexivity.
Defined.

(** ** What [__init__] accepts *)

Lemma product_positive (s : list Z) :
  Forall (fun d => 0 <= d) s -> 0 < product s -> Forall (fun d => 0 < d) s.
Proof.
  induction 1 as [|d s Hd Hs IH]; intros Hp; constructor.
  - unfold product in Hp. cbn [foldr] in Hp. fold (product s) in Hp.
    pose proof (product_nonneg s Hs). nia.
  - apply IH. unfold product in Hp. cbn [foldr] in Hp. fold (product s) in Hp.
    pose proof (product_nonneg s Hs). nia.
Qed.

Lemma offset_of_zeros (dims : list Z) :
  Forall (fun d => 0 < d) dims ->
  forall acc, offset_of dims (replicate (length dims) 0) acc = Ok (acc * product dims).
Proof.
  induction 1 as [|d dims Hd _ IH]; intros acc; cbn [length replicate offset_of].
  - unfold product. cbn. f_equal. lia.
  - destruct (Z.leb_spec 0 0), (Z.ltb_spec 0 d); try lia. cbn [andb].
    rewrite IH. f_equal. unfold product. cbn [foldr]. ring.
Qed.

Lemma offset_of_unit_Ok (dims : list Z) :
  Forall (fun d => 0 < d) dims ->
  forall (zp : nat) (k acc n : Z),
    dims !! zp = Some n -> 0 <= k < n ->
    offset_of dims (<[zp := k]> (replicate (length dims) 0)) acc
    = Ok (acc * product dims + k * product (drop (S zp) dims)).
Proof.
  induction 1 as [|d dims Hd Hds IH]; intros zp k acc n Hn Hk; [discriminate|].
  destruct zp as [|zp]; cbn [length replicate list_insert insert offset_of].
  - injection Hn as ->.
    destruct (Z.leb_spec 0 k), (Z.ltb_spec k n); try lia. cbn [andb].
    rewrite offset_of_zeros by assumption. cbn [drop]. rewrite ?drop_0. f_equal.
    unfold product. cbn [foldr]. ring.
  - destruct (Z.leb_spec 0 0), (Z.ltb_spec 0 d); try lia. cbn [andb].
    rewrite (IH zp k _ n Hn Hk). cbn [drop]. f_equal.
    unfold product. cbn [foldr]. ring.
Qed.

Section Accepts.

Context {dtype : Type}.
Variable f8 : dtype.
Variable issubdtype_int : dtype -> bool.
Variable astype : dtype -> float -> float.

(** X18: what [__init__] accepts.  For a source coordinate and data with
    as many values as their shapes say, the constructor returns an
    interpolator exactly when: the target coordinate has the dimension it is
    asked for (its first when it is one-dimensional, the one at [axis]
    otherwise); the axis passes the check of [__init__]; the shape of the
    source coordinate is the trailing part of the shape of the data; the
    source coordinate has at least one value; and [rising] is given or the
    source coordinate has at least two values along the axis.  Every other
    input raises an error. *)
Theorem init_accepts_iff (z_tgt z_src : ndarray float) (fz_dtype : dtype)
    (fz_src : ndarray float) (ax : Z) (up : option bool)
    (ik : interp_kernel) (ek : extrap_kernel) :
  array_wf z_src ->
  Forall (fun d => 0 <= d) (shape fz_src) ->
  (exists self,
     __init__ f8 issubdtype_int z_tgt z_src fz_dtype fz_src ax up ik ek = Ok self)
  <->
  (exists z_target_size fp_axis zp_axis n,
     (if ndim z_tgt =? 1 then py_index (shape z_tgt) 0 else py_index (shape z_tgt) ax)
     = Ok z_target_size /\
     resolve_axis ax (ndim fz_src) (ndim z_src) = Ok (fp_axis, zp_axis) /\
     shape z_src = py_tail (shape fz_src) (ndim z_src) /\
     0 < size z_src /\
     shape z_src !! Z.to_nat zp_axis = Some n /\
     (up = None -> 2 <= n)).
Proof.
  intros [Hzs Hzlen] Hfs. split.
  - intros [self Hinit].
    destruct (init_Ok f8 issubdtype_int _ _ _ _ _ _ _ _ _ Hzs Hfs Hinit)
      as (nt & fp & lh & n0 & nj & m & _ & _ & _ & Hlh & Hn0 & Hnj & _ & Hsz & _).
    revert Hinit. unfold __init__.
    destruct (if ndim z_tgt =? 1 then _ else _) as [z_target_size|] eqn:Hsize;
      cbn [mbind result_bind]; [|discriminate].
    destruct (resolve_axis _ _ _) as [[fp_axis zp_axis]|] eqn:Haxis;
      cbn [mbind result_bind]; [|discriminate].
    destruct (bool_decide (shape z_src = py_tail (shape fz_src) (ndim z_src)))
      eqn:Hshape; cbn [negb]; [|discriminate].
    apply bool_decide_eq_true in Hshape.
    destruct (py_index (1 :: cumprod (shape z_src)) zp_axis) as [lh'|];
      cbn [mbind result_bind]; [|discriminate].
    destruct (py_index (shape z_src) zp_axis) as [n|] eqn:Hn;
      cbn [mbind result_bind]; [|discriminate].
    destruct (reshape z_src _) as [zp_reshaped|]; cbn [mbind result_bind]; [|discriminate].
    destruct (reshape fz_src _) as [fp_reshaped|]; cbn [mbind result_bind]; [|discriminate].
    destruct (py_assign (shape fp_reshaped) 2 _) as [rws|]; cbn [mbind result_bind];
      [|discriminate].
    destruct (py_assign (shape fz_src) fp_axis _) as [rs|]; cbn [mbind result_bind];
      [|discriminate].
    intros Hrest.
    pose proof Haxis as Haxis'.
    apply resolve_axis_Ok in Haxis' as (_ & _ & _ & Hzp & _); [|unfold ndim; lia].
    exists z_target_size, fp_axis, zp_axis, n. repeat split; try assumption.
    + nia.
    + unfold py_index in Hn. destruct (Z.ltb_spec zp_axis 0); [lia|].
      rewrite zth_lookup in Hn by lia.
      destruct (shape z_src !! Z.to_nat zp_axis); [|discriminate]. congruence.
    + intros ->. destruct (Z.ltb_spec n 2) as [|Hge]; [discriminate|exact Hge].
  - intros (z_target_size & fp_axis & zp_axis & n & Hsize & Haxis & Hshape & Hpos &
            Hn & Hup).
    pose proof Haxis as Haxis'.
    apply resolve_axis_Ok in Haxis' as (_ & Hfp & _ & Hzp & _); [|unfold ndim; lia].
    unfold __init__. rewrite Hsize, Haxis. cbn [mbind result_bind].
    rewrite (bool_decide_eq_true_2 _ Hshape). cbn [negb].
    set (lh := product (take (Z.to_nat zp_axis) (shape z_src))).
    set (nj := product (drop (S (Z.to_nat zp_axis)) (shape z_src))).
    assert (py_index (1 :: cumprod (shape z_src)) zp_axis = Ok lh) as ->.
    { unfold py_index. destruct (Z.ltb_spec zp_axis 0); [lia|].
      rewrite zth_lookup by lia. unfold cumprod.
      rewrite cumprod_from_lookup by (unfold ndim in *; lia). f_equal. unfold lh. lia. }
    assert (py_index (shape z_src) zp_axis = Ok n) as ->.
    { unfold py_index. destruct (Z.ltb_spec zp_axis 0); [lia|].
      now rewrite zth_lookup, Hn by lia. }
    cbn [mbind result_bind].
    assert (size z_src = lh * n * nj) as Hsplit
      by (unfold size; now apply product_split).
    assert (0 <= lh) as Hlh by (now apply product_pos_take).
    assert (0 <= n) as Hn0.
    { rewrite Forall_lookup in Hzs. eapply Hzs, Hn. }
    assert (0 <= nj) as Hnj by (apply product_nonneg; now apply Forall_drop).
    assert (0 < lh /\ 0 < n /\ 0 < nj) as (Hlh' & Hn' & Hnj') by nia.
    rewrite reshape_trailing by assumption.
    destruct (Z.eqb_spec (lh * n) 0) as [|_]; [nia|].
    assert (size z_src / (lh * n) = nj) as Hdiv.
    { rewrite Hsplit, (Z.mul_comm (lh * n)). apply Z.div_mul. nia. }
    assert (size z_src mod (lh * n) = 0) as ->.
    { rewrite Hsplit, (Z.mul_comm (lh * n)). apply Z.mod_mul. nia. }
    cbn [Z.eqb negb orb mbind result_bind shape]. rewrite Hdiv.
    rewrite reshape_leading by assumption.
    destruct (Z.eqb_spec (lh * n * nj) 0) as [|_]; [nia|].
    assert (size fz_src mod (lh * n * nj) = 0) as ->.
    { rewrite <- Hsplit. unfold size at 1.
      rewrite <- (take_drop (length (shape fz_src) - length (shape z_src)) (shape fz_src)).
      rewrite product_app.
      assert (drop (length (shape fz_src) - length (shape z_src)) (shape fz_src)
              = shape z_src) as ->.
      { pose proof Hshape as Htail. unfold py_tail, ndim in Htail.
        destruct (Z.eqb_spec (Z.of_nat (length (shape z_src))) 0) as [E0|_].
        - unfold ndim in Hzp. lia.
        - rewrite Nat2Z.id in Htail. now symmetry. }
      apply Z.mod_mul. unfold size in Hpos. lia. }
    cbn [Z.eqb negb orb mbind result_bind shape].
    rewrite py_assign_third. cbn [mbind result_bind].
    unfold py_assign at 1.
    destruct (lookup_lt_is_Some_2 (shape fz_src) (Z.to_nat fp_axis)) as [d Hd];
      [unfold ndim in Hfp; lia|].
    rewrite zth_lookup, Hd by lia. cbn [mbind result_bind].
    destruct up as [b|]; cbn [mbind result_bind]; [eauto|].
    specialize (Hup eq_refl).
    destruct (Z.ltb_spec n 2) as [|_]; [lia|].
    pose proof (product_positive _ Hzs Hpos) as Hdims.
    unfold item.
    rewrite (offset_of_unit_Ok _ Hdims (Z.to_nat zp_axis) 0 0 n Hn) by lia.
    rewrite (offset_of_unit_Ok _ Hdims (Z.to_nat zp_axis) 1 0 n Hn) by lia.
    cbn [mbind result_bind]. fold nj.
    replace (0 * product (shape z_src) + 0 * nj) with 0 by lia.
    replace (0 * product (shape z_src) + 1 * nj) with nj by lia.
    assert (nj < size z_src) as Hsecond_in.
    { rewrite Hsplit. assert (2 <= lh * n) as Hfactor by nia.
      assert (2 * nj <= lh * n * nj) by (apply Z.mul_le_mono_nonneg_r; lia). lia. }
    destruct (lookup_lt_is_Some_2 (flat z_src) 0) as [first Hfirst]; [lia|].
    destruct (lookup_lt_is_Some_2 (flat z_src) (Z.to_nat nj)) as [second Hsecond]; [lia|].
    rewrite (zth_lookup _ 0), (zth_lookup _ nj) by lia.
    change (Z.to_nat 0) with 0%nat. rewrite Hfirst, Hsecond.
    cbn [expect mbind result_bind]. eauto.
Qed.

End Accepts.

Lemma init_accepts_iff_witness :
  array_wf (NDArray [3; 2] [6%float; 20%float; 4%float; 40%float; 2%float; 60%float]) /\
  ((exists self,
      __init__ float64 numpy_issubdtype_int
        (NDArray [2] [3%float; 5%float])
        (NDArray [3; 2] [6%float; 20%float; 4%float; 40%float; 2%float; 60%float])
        float64
        (NDArray [3; 2] [6%float; 20%float; 4%float; 40%float; 2%float; 60%float])
        0 None linear_interp nan_data_extrap = Ok self)
   <->
   (exists z_target_size fp_axis zp_axis n,
      (if ndim (NDArray [2] [3%float; 5%float]) =? 1
       then py_index (shape (NDArray [2] [3%float; 5%float])) 0
       else py_index (shape (NDArray [2] [3%float; 5%float])) 0)
      = Ok z_target_size /\
      resolve_axis 0
        (ndim (NDArray [3; 2] [6%float; 20%float; 4%float; 40%float; 2%float; 60%float]))
        (ndim (NDArray [3; 2] [6%float; 20%float; 4%float; 40%float; 2%float; 60%float]))
      = Ok (fp_axis, zp_axis) /\
      shape (NDArray [3; 2] [6%float; 20%float; 4%float; 40%float; 2%float; 60%float])
      = py_tail
          (shape (NDArray [3; 2] [6%float; 20%float; 4%float; 40%float; 2%float; 60%float]))
          (ndim (NDArray [3; 2] [6%float; 20%float; 4%float; 40%float; 2%float; 60%float])) /\
      0 < size (NDArray [3; 2] [6%float; 20%float; 4%float; 40%float; 2%float; 60%float]) /\
      shape (NDArray [3; 2] [6%float; 20%float; 4%float; 40%float; 2%float; 60%float])
      !! Z.to_nat zp_axis = Some n /\
      (@None bool = None -> 2 <= n))).
Proof.
  assert (array_wf
            (NDArray [3; 2] [6%float; 20%float; 4%float; 40%float; 2%float; 60%float]))
    as Hwf by (split; [repeat constructor; lia | reflexivity]).
  split; [exact Hwf|].
  apply (init_accepts_iff float64 numpy_issubdtype_int
           (NDArray [2] [3%float; 5%float])
           (NDArray [3; 2] [6%float; 20%float; 4%float; 40%float; 2%float; 60%float])
           float64
           (NDArray [3; 2] [6%float; 20%float; 4%float; 40%float; 2%float; 60%float])
           0 None linear_interp nan_data_extrap).
  - exact Hwf.
  - repeat constructor; lia.
Defined.

(** ** The columns of [interpolate_z_target_nd] *)

Lemma column3_length {A : Type} (cells : list A) (n nj i j : Z) (col : list A) :
  column3 cells n nj i j = Ok col -> length col = Z.to_nat n.
Proof.
  unfold column3. destruct (mapM _ (range n)) as [c|] eqn:E; cbn; [|discriminate].
  intros [= <-]. apply length_mapM in E. now rewrite range_length in E.
Qed.

Section ColumnsNd.

Context {dtype : Type}.
Variable self : @_Interpolator dtype.
Variable targets : list float.
Variables m ni n_src n_target nj : Z.
Hypothesis interpolation_module : In (interpolation self) interp_kernels.
Hypothesis extrapolation_module : In (extrapolation self) extrap_kernels.
Hypothesis m_range : 0 <= m < 2 ^ 32.
Hypothesis n_src_nonneg : 0 <= n_src.
Hypothesis n_target_range : 0 <= n_target < 2 ^ 32.

Lemma march_column_nd_marched (i j : Z) (cells cells' : list cell) :
  0 <= i < ni -> 0 <= j < nj ->
  marched_upto_nd self targets m ni n_src n_target nj cells (j * ni + i) ->
  march_column_nd self targets m ni n_src n_target nj i j cells = Ok cells' ->
  marched_upto_nd self targets m ni n_src n_target nj cells' (j * ni + i + 1).
Proof.
  intros Hi Hj [Hlen Hcols]. unfold march_column_nd, march_column.
  destruct (column3 targets _ _ _ _) as [z_lev|] eqn:Hl; cbn [mbind result_bind];
    [|discriminate].
  pose proof (column3_length _ _ _ _ _ _ Hl) as Hlev.
  destruct (column3 (flat (_zp_reshaped self)) _ _ _ _) as [z_col|] eqn:Hz;
    cbn [mbind result_bind]; [|discriminate].
  destruct (column4 (flat (_fp_reshaped self)) _ _ _ _ _ _) as [fz_col|] eqn:Hf;
    cbn [mbind result_bind]; [|discriminate].
  rewrite (proj2 (Hcols i j Hi Hj)) by lia. cbn [mbind result_bind].
  destruct (gridwise_interpolation _ _ _ _ _ _ _) as [out [[]|e]] eqn:Hrun;
    [|discriminate].
  intros [= <-].
  destruct (column4_shape _ _ _ _ _ _ _ _ (proj1 m_range) n_src_nonneg Hf) as (_ & Hfm & _).
  destruct (gridwise_fills z_lev z_col fz_col (rising self) (interpolation self)
              (extrapolation self) (empty_grid (Z.to_nat m) (Z.to_nat n_target)) out)
    as (Hwf & Hrows & Hwidth & _); try assumption.
  { lia. }
  { lia. }
  { unfold grid_wf, empty_grid. cbn. apply Forall_replicate. now rewrite length_replicate. }
  { unfold shape0, empty_grid in *. cbn. rewrite length_replicate. lia. }
  { unfold shape1, empty_grid. cbn. lia. }
  unfold shape0, shape1, empty_grid in Hrows, Hwidth. cbn in Hrows, Hwidth.
  rewrite length_replicate in Hrows.
  split; [now rewrite put_column4_length|].
  intros i' j' Hi' Hj'.
  destruct (decide ((i', j') = (i, j))) as [[= -> ->]|Hne].
  - split; [|lia]. intros _. exists z_lev, z_col, fz_col, out.
    repeat split; try assumption.
    apply column4_put_same; try assumption; try lia.
    unfold shape0. lia.
  - assert (j' * ni + i' <> j * ni + i) as Hplace.
    { intros E. apply radix_inj in E as [-> ->]; try assumption. now apply Hne. }
    destruct (Hcols i' j' Hi' Hj') as [Hdone Hnot].
    split.
    + intros Hlt. destruct Hdone as (zl & zc & fc & o & Hzl & Hzc & Hfc & Hg & Hc); [lia|].
      exists zl, zc, fc, o. repeat split; try assumption.
      rewrite column4_put_other; assumption.
    + intros Hge. rewrite column4_put_other; try assumption. apply Hnot. lia.
Qed.

Lemma march_i_nd_marched (j : Z) (len : nat) :
  forall (a : nat) (cells cells' : list cell),
    0 <= j < nj ->
    Z.of_nat (a + len) <= ni ->
    marched_upto_nd self targets m ni n_src n_target nj cells (j * ni + Z.of_nat a) ->
    march_i_nd self targets m ni n_src n_target nj j (Z.of_nat <$> seq a len) cells
    = Ok cells' ->
    marched_upto_nd self targets m ni n_src n_target nj cells'
      (j * ni + Z.of_nat (a + len)).
Proof.
  induction len as [|len IH]; intros a cells cells' Hj Ha Hinv;
    cbn [seq fmap list_fmap march_i_nd].
  - intros [= <-]. now rewrite Nat.add_0_r.
  - destruct (march_column_nd _ _ _ _ _ _ _ _ _ _) as [cells1|] eqn:Hcol;
      cbn [mbind result_bind]; [|discriminate].
    intros Hrest. apply march_column_nd_marched in Hcol; try assumption; try lia.
    replace (a + S len)%nat with (S a + len)%nat by lia.
    apply (IH (S a) cells1 cells'); try assumption; try lia.
    now replace (j * ni + Z.of_nat (S a)) with (j * ni + Z.of_nat a + 1) by lia.
Qed.

Lemma march_j_nd_marched (len : nat) :
  forall (b : nat) (cells cells' : list cell),
    0 <= ni ->
    Z.of_nat (b + len) <= nj ->
    marched_upto_nd self targets m ni n_src n_target nj cells (Z.of_nat b * ni) ->
    march_j_nd self targets m ni n_src n_target nj (Z.of_nat <$> seq b len) cells
    = Ok cells' ->
    marched_upto_nd self targets m ni n_src n_target nj cells' (Z.of_nat (b + len) * ni).
Proof.
  induction len as [|len IH]; intros b cells cells' Hni Hb Hinv;
    cbn [seq fmap list_fmap march_j_nd].
  - intros [= <-]. now rewrite Nat.add_0_r.
  - destruct (march_i_nd _ _ _ _ _ _ _ _ _ _) as [cells1|] eqn:Hi;
      cbn [mbind result_bind]; [|discriminate].
    intros Hrest. unfold range in Hi.
    apply (march_i_nd_marched (Z.of_nat b) (Z.to_nat ni) 0 cells cells1) in Hi.
    + replace (b + S len)%nat with (S b + len)%nat by lia.
      apply (IH (S b) cells1 cells'); try assumption; try lia.
      replace (Z.of_nat (S b) * ni) with (Z.of_nat b * ni + Z.of_nat (0 + Z.to_nat ni))
        by lia.
      exact Hi.
    + lia.
    + lia.
    + now rewrite Z.add_0_r.
Qed.

Lemma march_j_nd_columns (cells' : list cell) :
  0 <= ni -> 0 <= nj ->
  march_j_nd self targets m ni n_src n_target nj (range nj)
    (replicate (Z.to_nat (m * (ni * n_target * nj))) None) = Ok cells' ->
  Z.of_nat (length cells') = m * (ni * n_target * nj) /\
  forall i j, 0 <= i < ni -> 0 <= j < nj ->
    column_marched_nd self targets m ni n_src n_target nj cells' i j.
Proof.
  intros Hni Hnj Hrun. unfold range in Hrun.
  assert (0 <= m * (ni * n_target * nj)) as Hsize by nia.
  apply (march_j_nd_marched (Z.to_nat nj) 0) in Hrun; try assumption; try lia.
  - destruct Hrun as [Hlen Hcols]. split; [exact Hlen|].
    intros i j Hi Hj. apply (Hcols i j Hi Hj). nia.
  - split; [rewrite length_replicate; lia|].
    intros i j Hi Hj. split; [nia|]. intros _.
    etransitivity;
      [apply (column4_replicate (None : cell) m ni n_target nj i j); try assumption; lia|].
    unfold empty_grid. now rewrite Z2Nat.id by lia.
Qed.

End ColumnsNd.

Section TargetNdColumns.

Context {dtype : Type}.
Variable f8 : dtype.
Variable issubdtype_int : dtype -> bool.
Variable astype : dtype -> float -> float.

(** X19: what [interpolate_z_target_nd] returns, column by column.  When it
    returns, the target coordinate has as many values as the source coordinate
    has columns times the extent [nt] the target has along the axis, and it is
    taken as [ni] by [nt] by [nj] values in row-major order.  For every [i]
    and [j], the column [(:, i, :, j)] of the result is what
    [gridwise_interpolation] writes in a fresh buffer for the levels
    [z_target[i, :, j]], the column [z_src[i, :, j]] of the source coordinate
    and the columns [fz_src[:, i, :, j]] of the data, with the direction and
    the kernels of the interpolator, every value then cast to the dtype of
    the result by the final [astype]: every column is marched with its own
    levels. *)
Theorem interpolate_z_target_nd_marched (z_tgt z_src : ndarray float) (fz_dtype : dtype)
    (fz_src : ndarray float) (ax : Z) (up : option bool)
    (ik : interp_kernel) (ek : extrap_kernel) (self : _Interpolator)
    (res : interpolated) (zp : nat) (m ni n nt nj i j : Z) :
  array_wf z_tgt -> array_wf z_src -> array_wf fz_src ->
  size z_src < 2 ^ 32 ->
  size fz_src < 2 ^ 32 ->
  size z_tgt < 2 ^ 32 ->
  In ik interp_kernels ->
  In ek extrap_kernels ->
  __init__ f8 issubdtype_int z_tgt z_src fz_dtype fz_src ax up ik ek = Ok self ->
  interpolate_z_target_nd astype self = Ok res ->
  zp = Z.to_nat ((ax + ndim fz_src) mod ndim fz_src - (ndim fz_src - ndim z_src)) ->
  shape z_src !! zp = Some n ->
  ni = product (take zp (shape z_src)) ->
  nj = product (drop (S zp) (shape z_src)) ->
  m = product (take (length (shape fz_src) - length (shape z_src)) (shape fz_src)) ->
  (if ndim z_tgt =? 1 then py_index (shape z_tgt) 0 else py_index (shape z_tgt) ax)
  = Ok nt ->
  0 <= i < ni ->
  0 <= j < nj ->
  size z_tgt = ni * nt * nj /\
  exists (z_lev z_col : list float) (fz_col : grid float) (out : grid cell),
    column3 (flat z_tgt) nt nj i j = Ok z_lev /\
    column3 (flat z_src) n nj i j = Ok z_col /\
    column4 (flat fz_src) m ni n nj i j = Ok fz_col /\
    gridwise_interpolation z_lev z_col fz_col (rising self) ik ek
      (empty_grid (Z.to_nat m) (Z.to_nat nt)) = (out, Ok tt) /\
    column4 (flat (result_array res)) m ni nt nj i j
    = Ok (grid_map (cell_astype astype (result_dtype res)) out).
Proof.
  intros [Hts Htlen] [Hzs Hzlen] [Hfs Hflen] Hzsmall Hfsmall Htsmall Hik Hek Hinit Hrun
    Hzp Hn Hni Hnj Hm Hnt Hi Hj.
  destruct (init_layout f8 issubdtype_int _ _ _ _ _ _ _ _ _ Hzs Hfs Hinit)
    as (n' & _ & Hn' & Hzshape & Hfshape).
  rewrite <- Hzp in Hn', Hzshape. rewrite Hn in Hn'. injection Hn' as <-.
  rewrite <- Hni, <- Hnj in Hzshape. rewrite Hzshape, <- Hm in Hfshape.
  apply init_Ok in Hinit
    as (nt' & fp & lh & n' & nj' & m' & Hnt' & -> & Hfp & Hlh & Hn0 & Hnj0 & Hm0 & Hsz &
        Hsf & Hzr & Hfr & Hws & Hrs & Htgt & Hdt & Hik' & Hek'); [|assumption|assumption].
  rewrite Hnt in Hnt'. injection Hnt' as <-.
  rewrite Hzr in Hzshape. cbn [shape] in Hzshape. injection Hzshape as -> -> ->.
  rewrite Hfr in Hfshape. cbn [shape] in Hfshape. injection Hfshape as ->.
  assert (0 <= nt) as Hnt0.
  { destruct (ndim z_tgt =? 1); (eapply py_index_nonneg; [exact Hts|exact Hnt]). }
  revert Hrun. unfold interpolate_z_target_nd.
  rewrite Hws, Hzr, Hfr, Htgt, Hrs. cbn [shape drop].
  assert (ni < 2 ^ 32 /\ nj < 2 ^ 32) as (Hni32 & Hnj32) by nia.
  assert (m < 2 ^ 32) as Hm32.
  { assert (1 <= ni * n * nj) by nia. nia. }
  unfold as_unsigned_int.
  destruct (Z.leb_spec 0 ni), (Z.ltb_spec ni (2 ^ 32)); try lia.
  destruct (Z.leb_spec 0 nj), (Z.ltb_spec nj (2 ^ 32)); try lia.
  cbn [andb mbind result_bind].
  rewrite reshape_plain by (repeat constructor; lia).
  destruct (Z.eqb_spec (product [ni; nt; nj]) (size z_tgt)) as [Esize|];
    cbn [mbind result_bind flat]; [|discriminate].
  assert (size z_tgt = ni * nt * nj) as Hsize.
  { rewrite <- Esize. unfold product. cbn [foldr]. ring. }
  replace (product [m; ni; nt; nj]) with (m * (ni * nt * nj))
    by (unfold product; cbn [foldr]; ring).
  destruct (march_j_nd _ _ _ _ _ _ _ _ _) as [cells|] eqn:Hmarch;
    cbn [mbind result_bind]; [|discriminate].
  rewrite reshape_plain by (apply Forall_insert; assumption).
  destruct (product _ =? size _); cbn [mbind result_bind]; [|discriminate].
  intros [= <-]. unfold ndarray_astype. cbn [result_array result_dtype flat].
  split; [exact Hsize|].
  assert (nt < 2 ^ 32) as Hnt32 by nia.
  apply march_j_nd_columns in Hmarch as [Hcells Hcols]; try lia.
  - destruct (Hcols i j Hi Hj) as (z_lev & z_col & fz_col & out & Hl & Hzc & Hfc & Hg & Hc).
    rewrite Hzr in Hzc. rewrite Hfr in Hfc. rewrite Hik', Hek' in Hg.
    cbn [flat] in Hzc, Hfc.
    exists z_lev, z_col, fz_col, out.
    repeat split; try assumption. now apply column4_fmap.
  - now rewrite Hik'.
  - now rewrite Hek'.
Qed.

End TargetNdColumns.

Lemma interpolate_z_target_nd_marched_witness :
  size (NDArray [2; 2] [3%float; 30%float; 5%float; 50%float]) = 1 * 2 * 2 /\
  exists (z_lev z_col : list float) (fz_col : grid float) (out : grid cell),
    column3 [3%float; 30%float; 5%float; 50%float] 2 2 0 1 = Ok z_lev /\
    column3 [2%float; 20%float; 4%float; 40%float; 6%float; 60%float] 3 2 0 1 = Ok z_col /\
    column4 [2%float; 20%float; 4%float; 40%float; 6%float; 60%float;
             1%float; 2%float; 3%float; 4%float; 5%float; 6%float] 2 1 3 2 0 1
    = Ok fz_col /\
    gridwise_interpolation z_lev z_col fz_col true
      linear_interp nearest_edge_extrap (empty_grid (Z.to_nat 2) (Z.to_nat 2)) = (out, Ok tt) /\
    column4 [Some 3%float; Some 30%float; Some 5%float; Some 50%float;
             Some 2%float; Some 3%float; Some 4%float; Some 5%float] 2 1 2 2 0 1
    = Ok (grid_map (cell_astype numpy_astype float64) out).
Proof.
  apply (interpolate_z_target_nd_marched float64 numpy_issubdtype_int numpy_astype
           (NDArray [2; 2] [3%float; 30%float; 5%float; 50%float])
           (NDArray [3; 2] [2%float; 20%float; 4%float; 40%float; 6%float; 60%float])
           int64
           (NDArray [2; 3; 2]
              [2%float; 20%float; 4%float; 40%float; 6%float; 60%float;
               1%float; 2%float; 3%float; 4%float; 5%float; 6%float])
           (-2) None linear_interp nearest_edge_extrap
           (Interpolator linear_interp nearest_edge_extrap float64 true
              (NDArray [2; 2] [3%float; 30%float; 5%float; 50%float]) [2; 3; 2] (-2)
              (NDArray [1; 3; 2] [2%float; 20%float; 4%float; 40%float; 6%float; 60%float])
              (NDArray [2; 1; 3; 2]
                 [2%float; 20%float; 4%float; 40%float; 6%float; 60%float;
                  1%float; 2%float; 3%float; 4%float; 5%float; 6%float])
              [2; 1; 2; 2] [2; 2; 2])
           (Interpolated float64
              (NDArray [2; 2; 2]
                 [Some 3%float; Some 30%float; Some 5%float; Some 50%float;
                  Some 2%float; Some 3%float; Some 4%float; Some 5%float]))
           0%nat 2 1 3 2 2 0 1).
  - split; [repeat constructor; lia|reflexivity].
  - split; [repeat constructor; lia|reflexivity].
  - split; [repeat constructor; lia|reflexivity].
  - vm_compute. reflexivity.
  - vm_compute. reflexivity.
  - vm_compute. reflexivity.
  - left. reflexivity.
  - right. left. reflexivity.
  - reflexivity.
  - vm_compute. reflexivity.
  - reflexivity.
  - reflexivity.
  - reflexivity.
  - reflexivity.
  - reflexivity.
  - reflexivity.
  - lia.
  - lia.
Defined.

(** ** What [interpolate] can raise *)

Lemma column3_elements {A : Type} (P : A -> Prop) (cells : list A) (n nj i j : Z)
    (col : list A) :
  Forall P cells -> column3 cells n nj i j = Ok col -> Forall P col.
Proof.
  intros Hall. unfold column3.
  destruct (mapM _ (range n)) as [c|] eqn:E; cbn; [|discriminate].
  intros [= <-]. apply mapM_Some in E.
  apply Forall_lookup. intros k x Hx.
  destruct (Forall2_lookup_r _ _ _ _ _ E Hx) as (q & _ & Hq).
  apply zth_Some in Hq as [_ Hq].
  rewrite Forall_lookup in Hall. eapply Hall, Hq.
Qed.

Lemma product_insert (s : list Z) (k : nat) (d v : Z) :
  s !! k = Some d ->
  product (<[k := v]> s) = product (take k s) * v * product (drop (S k) s).
Proof.
  intros Hk.
  rewrite (product_split (<[k := v]> s) k v)
    by (apply list_lookup_insert_eq; eapply lookup_lt_Some, Hk).
  rewrite take_insert_ge by lia. now rewrite drop_insert_lt by lia.
Qed.

Section ColumnOutcome.

Context {dtype : Type}.
Variable self : @_Interpolator dtype.
Variable targets : list float.
Variables m ni n_src n_target nj : Z.
Hypothesis interpolation_module : In (interpolation self) interp_kernels.
Hypothesis extrapolation_module : In (extrapolation self) extrap_kernels.
Hypothesis m_range : 0 <= m < 2 ^ 32.
Hypothesis n_src_pos : 1 <= n_src.
Hypothesis targets_length : Z.of_nat (length targets) = n_target.
Hypothesis counters_small : n_src + n_target < 2 ^ 32.
Hypothesis source_length : Z.of_nat (length (flat (_zp_reshaped self))) = ni * n_src * nj.
Hypothesis data_length :
  Z.of_nat (length (flat (_fp_reshaped self))) = m * (ni * n_src * nj).
Hypothesis source_clean : Forall (fun z => isnan z = false) (flat (_zp_reshaped self)).
Hypothesis targets_inside :
  Forall (fun t => (t =? z_last (rising self))%float = false) targets.

Lemma march_column_outcome (i j : Z) (cells : list cell) (r : result (list cell)) :
  0 <= i < ni -> 0 <= j < nj ->
  Z.of_nat (length cells) = m * (ni * n_target * nj) ->
  march_column self targets m ni n_src n_target nj i j cells = r ->
  (exists cells', r = Ok cells' /\ length cells' = length cells) \/
  r = Err InvalidTarget \/
  (extrapolation self = linear_extrap /\
   (r = Err InsufficientData \/ r = Err ZeroDivision)).
Proof.
  intros Hi Hj Hlen. unfold march_column.
  destruct (column3_Some (flat (_zp_reshaped self)) ni n_src nj i j source_length Hi Hj)
    as (z_col & Hz & Hzlen); [lia|].
  rewrite Hz. cbn [mbind result_bind].
  destruct (column4_Some (flat (_fp_reshaped self)) m ni n_src nj i j data_length Hi Hj)
    as (fz_col & Hf); [lia|].
  rewrite Hf. cbn [mbind result_bind].
  destruct (column4_Some cells m ni n_target nj i j Hlen Hi Hj) as (out & Hout); [lia|].
  rewrite Hout. cbn [mbind result_bind].
  assert (0 <= n_src) as Hn0 by lia.
  assert (0 <= n_target) as Hnt0 by lia.
  destruct (column4_shape _ _ _ _ _ _ _ _ (proj1 m_range) Hn0 Hf) as (Hfwf & Hfm & Hfw).
  destruct (column4_shape _ _ _ _ _ _ _ _ (proj1 m_range) Hnt0 Hout) as (Howf & Hom & How).
  pose proof (column3_elements _ _ _ _ _ _ _ source_clean Hz) as Hclean.
  destruct (gridwise_interpolation _ _ _ _ _ _ _) as [out' r'] eqn:Hrun.
  destruct (lookup_lt_is_Some_2 z_col 0) as [z0 Hz0]; [lia|].
  apply gridwise_in_bounds in Hrun; try assumption; try (unfold shape1; lia).
  - destruct Hrun as [-> |[-> |[[_ Hnan] |(Hek & [-> | ->])]]]; intros <-.
    + left. eexists. split; [reflexivity|]. apply put_column4_length.
    + right. left. reflexivity.
    + exfalso. apply Exists_exists in Hnan as (z & Hin & Hnan).
      rewrite Forall_forall in Hclean. specialize (Hclean z Hin). congruence.
    + right. right. auto.
    + right. right. auto.
  - left. exists z0. split; [exact Hz0|].
    rewrite Forall_lookup in Hclean. eapply Hclean, Hz0.
Qed.

Lemma march_i_outcome (j : Z) (ixs : list Z) :
  forall (cells : list cell) (r : result (list cell)),
    0 <= j < nj ->
    Forall (fun i => 0 <= i < ni) ixs ->
    Z.of_nat (length cells) = m * (ni * n_target * nj) ->
    march_i self targets m ni n_src n_target nj j ixs cells = r ->
    (exists cells', r = Ok cells' /\ length cells' = length cells) \/
    r = Err InvalidTarget \/
    (extrapolation self = linear_extrap /\
     (r = Err InsufficientData \/ r = Err ZeroDivision)).
Proof.
  induction ixs as [|i ixs IH]; intros cells r Hj Hixs Hlen; cbn [march_i].
  - intros <-. left. eauto.
  - apply Forall_cons in Hixs as [Hi Hixs].
    destruct (march_column_outcome i j cells _ Hi Hj Hlen eq_refl)
      as [(cells1 & -> & Hlen1)|[-> |(Hek & [-> | ->])]]; cbn [mbind result_bind];
      try solve [intros <-; auto].
    intros Hrest. apply IH in Hrest; try assumption; [|lia].
    destruct Hrest as [(cells' & -> & Hlen')|H]; [|auto].
    left. exists cells'. split; [reflexivity|lia].
Qed.

Lemma march_j_outcome (jxs : list Z) :
  forall (cells : list cell) (r : result (list cell)),
    Forall (fun j => 0 <= j < nj) jxs ->
    Z.of_nat (length cells) = m * (ni * n_target * nj) ->
    march_j self targets m ni n_src n_target nj jxs cells = r ->
    (exists cells', r = Ok cells' /\ length cells' = length cells) \/
    r = Err InvalidTarget \/
    (extrapolation self = linear_extrap /\
     (r = Err InsufficientData \/ r = Err ZeroDivision)).
Proof.
  induction jxs as [|j jxs IH]; intros cells r Hjxs Hlen; cbn [march_j].
  - intros <-. left. eauto.
  - apply Forall_cons in Hjxs as [Hj Hjxs].
    assert (Forall (fun i => 0 <= i < ni) (range ni)) as Hixs.
    { apply Forall_forall. intros i Hi. now apply range_lookup. }
    destruct (march_i_outcome j (range ni) cells _ Hj Hixs Hlen eq_refl)
      as [(cells1 & -> & Hlen1)|[-> |(Hek & [-> | ->])]]; cbn [mbind result_bind];
      try solve [intros <-; auto].
    intros Hrest. apply IH in Hrest; try assumption; [|lia].
    destruct Hrest as [(cells' & -> & Hlen')|H]; [|auto].
    left. exists cells'. split; [reflexivity|lia].
Qed.

End ColumnOutcome.

Lemma insert_tail_product (sf sz : list Z) (zp : nat) (n v : Z) :
  sz = drop (length sf - length sz) sf ->
  sz !! zp = Some n ->
  product (<[(length sf - length sz + zp)%nat := v]> sf)
  = product (take (length sf - length sz) sf)
    * (product (take zp sz) * v * product (drop (S zp) sz)).
Proof.
  intros Htail Hn. set (d := (length sf - length sz)%nat) in *.
  assert (length (take d sf) = d) as Hd by (rewrite length_take; lia).
  rewrite <- (take_drop d sf) at 1. rewrite <- Htail.
  rewrite insert_app_r_alt by lia. rewrite Hd.
  replace (d + zp - d)%nat with zp by lia.
  rewrite product_app. f_equal. eapply product_insert, Hn.
Qed.

Section Outcome.

Context {dtype : Type}.
Variable f8 : dtype.
Variable issubdtype_int : dtype -> bool.
Variable astype : dtype -> float -> float.

(** The shape check of [__init__]: the shape of the source coordinate is
    the end of the shape of the data. *)
Lemma init_tail (z_tgt z_src : ndarray float) (fz_dtype : dtype)
    (fz_src : ndarray float) (ax : Z) (up : option bool)
    (ik : interp_kernel) (ek : extrap_kernel) (self : _Interpolator) :
  __init__ f8 issubdtype_int z_tgt z_src fz_dtype fz_src ax up ik ek = Ok self ->
  shape z_src = drop (length (shape fz_src) - length (shape z_src)) (shape fz_src).
Proof.
  unfold __init__.
  destruct (if ndim z_tgt =? 1 then _ else _) as [z_target_size|];
    cbn [mbind result_bind]; [|discriminate].
  destruct (resolve_axis _ _ _) as [[fp_axis zp_axis]|] eqn:Haxis;
    cbn [mbind result_bind]; [|discriminate].
  apply resolve_axis_Ok in Haxis as (_ & _ & _ & Hzp & _); [|unfold ndim; lia].
  destruct (bool_decide (shape z_src = py_tail (shape fz_src) (ndim z_src)))
    eqn:Hshape; cbn [negb]; [|discriminate].
  apply bool_decide_eq_true in Hshape. intros _.
  unfold py_tail, ndim in Hshape.
  destruct (Z.eqb_spec (Z.of_nat (length (shape z_src))) 0) as [E0|_].
  - unfold ndim in Hzp. lia.
  - now rewrite Nat2Z.id in Hshape.
Qed.

(** X20: what [interpolate] can raise on a clean source.  The target
    coordinate is one-dimensional and none of its values is an infinity; no
    value of the source coordinate is NaN; the kernels are kernels of the
    module; the data has fewer than [2 ^ 32] values, and so have the source
    and the target coordinates together.  Once [__init__] has accepted the
    arguments, [interpolate] returns an array, or raises the error of a NaN
    target level, or, under linear extrapolation only, the error of a source
    of fewer than two points or a division by zero.  It raises nothing else,
    the error of the source coordinate included, and it makes no access
    outside an array. *)
Theorem interpolate_outcome (z_tgt z_src : ndarray float) (fz_dtype : dtype)
    (fz_src : ndarray float) (ax : Z) (up : option bool)
    (ik : interp_kernel) (ek : extrap_kernel) (self : _Interpolator) :
  array_wf z_tgt -> array_wf z_src -> array_wf fz_src ->
  ndim z_tgt = 1 ->
  size fz_src < 2 ^ 32 ->
  size z_src + size z_tgt < 2 ^ 32 ->
  In ik interp_kernels ->
  In ek extrap_kernels ->
  Forall (fun z => isnan z = false) (flat z_src) ->
  Forall (fun t => (t =? INFINITY)%float = false /\ (t =? - INFINITY)%float = false)
         (flat z_tgt) ->
  __init__ f8 issubdtype_int z_tgt z_src fz_dtype fz_src ax up ik ek = Ok self ->
  (exists res,
     interpolate f8 issubdtype_int astype z_tgt z_src fz_dtype fz_src ax up ik ek = Ok res) \/
  interpolate f8 issubdtype_int astype z_tgt z_src fz_dtype fz_src ax up ik ek
  = Err InvalidTarget \/
  (ek = linear_extrap /\
   (interpolate f8 issubdtype_int astype z_tgt z_src fz_dtype fz_src ax up ik ek
    = Err InsufficientData \/
    interpolate f8 issubdtype_int astype z_tgt z_src fz_dtype fz_src ax up ik ek
    = Err ZeroDivision)).
Proof.
  intros [Hts Htlen] [Hzs Hzlen] [Hfs Hflen] Hnd Hfsmall Hsmall Hik Hek Hclean Hfinite
    Hinit.
  pose proof (init_tail _ _ _ _ _ _ _ _ _ Hinit) as Htail.
  destruct (init_layout f8 issubdtype_int _ _ _ _ _ _ _ _ _ Hzs Hfs Hinit)
    as (n0 & Hzpr & Hn0 & Hzshape & Hfshape).
  unfold interpolate. rewrite Hinit. cbn [mbind result_bind].
  apply init_Ok in Hinit
    as (nt & fp & lh & n & nj & m & Hnt & -> & Hfp & Hlh & Hn & Hnj & Hm & Hsz & Hsf &
        Hzp & Hfpr & Hws & Hrs & Htgt & Hdt & Hi & He); [|assumption|assumption].
  rewrite Hzp in Hzshape. cbn [shape] in Hzshape. injection Hzshape as Elh <- Enj.
  rewrite Hfpr, Hzp in Hfshape. cbn [shape] in Hfshape. injection Hfshape as Em.
  pose proof (size_nonneg_tgt := product_nonneg _ Hts). fold (size z_tgt) in size_nonneg_tgt.
  assert (1 <= lh * n * nj) as Hcols by nia.
  assert (lh <= size z_src /\ nj <= size z_src /\ n <= size z_src)
    as (Hlhsz & Hnjsz & Hnsz).
  { rewrite Hsz. assert (1 <= lh * n) by nia. assert (1 <= n * nj) by nia.
    assert (1 <= lh * nj) by nia. repeat split; nia. }
  assert (lh < 2 ^ 32 /\ nj < 2 ^ 32) as (Hlh32 & Hnj32) by lia.
  assert (m < 2 ^ 32) as Hm32 by nia.
  assert (shape z_tgt = [nt]) as Hshape.
  { rewrite Hnd in Hnt. change (1 =? 1) with true in Hnt. cbv iota in Hnt.
    unfold ndim in Hnd. destruct (shape z_tgt) as [|c [|]]; cbn in Hnd; try lia.
    change (py_index [c] 0) with (Ok c) in Hnt. congruence. }
  assert (Z.of_nat (length (flat z_tgt)) = nt) as Hlen.
  { rewrite Htlen. unfold size. rewrite Hshape. unfold product. cbn. lia. }
  assert (size z_tgt = nt) as Hsize by lia.
  unfold _Interpolator_interpolate. rewrite Hws, Hzp, Hfpr, Htgt, Hrs. cbn [shape].
  unfold as_unsigned_int.
  destruct (Z.leb_spec 0 lh), (Z.ltb_spec lh (2 ^ 32)); try lia.
  destruct (Z.leb_spec 0 nj), (Z.ltb_spec nj (2 ^ 32)); try lia.
  cbn [andb mbind result_bind]. rewrite Hnd. cbn [Z.eqb Pos.eqb negb].
  replace (product [m; lh; nt; nj]) with (m * (lh * nt * nj))
    by (unfold product; cbn [foldr]; ring).
  cbn [flat].
  assert (In (interpolation self) interp_kernels) as Hik' by (now rewrite Hi).
  assert (In (extrapolation self) extrap_kernels) as Hek' by (now rewrite He).
  assert (Z.of_nat (length (flat (_zp_reshaped self))) = lh * n * nj) as Hzflat
    by (rewrite Hzp; cbn [flat]; lia).
  assert (Z.of_nat (length (flat (_fp_reshaped self))) = m * (lh * n * nj)) as Hfflat
    by (rewrite Hfpr; cbn [flat]; lia).
  assert (Forall (fun z => isnan z = false) (flat (_zp_reshaped self))) as Hclean'
    by (rewrite Hzp; exact Hclean).
  assert (Forall (fun t => (t =? z_last (rising self))%float = false) (flat z_tgt))
    as Hinside.
  { eapply Forall_impl; [exact Hfinite|]. cbn beta. intros t [Hup Hdown].
    destruct (rising self); [exact Hup|exact Hdown]. }
  assert (Forall (fun j => 0 <= j < nj) (range nj)) as Hrange.
  { apply Forall_forall. intros j Hj. now apply range_lookup. }
  assert (Z.of_nat (length (replicate (Z.to_nat (m * (lh * nt * nj))) (None : cell)))
          = m * (lh * nt * nj)) as Hfresh
    by (rewrite length_replicate; nia).
  destruct (march_j_outcome self (flat z_tgt) m lh n nt nj Hik' Hek' ltac:(lia) ltac:(lia)
              Hlen ltac:(lia) Hzflat Hfflat Hclean' Hinside (range nj) _ _ Hrange Hfresh
              eq_refl)
    as [(cells & Hrun & Hcells)|[Hrun|(Hlin & [Hrun|Hrun])]];
    rewrite Hrun; cbn [mbind result_bind].
  - left. rewrite reshape_plain by (apply Forall_insert; [assumption|lia]).
    assert (product (<[Z.to_nat ((ax + ndim fz_src) mod ndim fz_src) := nt]> (shape fz_src))
            = size (NDArray [m; lh; nt; nj] cells)) as ->.
    { unfold size. cbn [shape].
      pose proof (f_equal length Htail) as Hshorter. rewrite length_drop in Hshorter.
      replace (Z.to_nat ((ax + ndim fz_src) mod ndim fz_src))
        with (length (shape fz_src) - length (shape z_src)
              + Z.to_nat ((ax + ndim fz_src) mod ndim fz_src
                          - (ndim fz_src - ndim z_src)))%nat
        by (unfold ndim in *; lia).
      rewrite (insert_tail_product _ _ _ n nt Htail Hn0).
      rewrite <- Em, <- Elh, <- Enj. unfold product. cbn [foldr]. ring. }
    rewrite Z.eqb_refl. cbn [mbind result_bind]. eauto.
  - right. left. reflexivity.
  - right. right. split; [congruence|left; reflexivity].
  - right. right. split; [congruence|right; reflexivity].
Qed.

End Outcome.

Lemma interpolate_outcome_witness :
  (exists res,
     interpolate float64 numpy_issubdtype_int numpy_astype
       (NDArray [2] [30%float; 50%float])
       (NDArray [3; 2] [2%float; 20%float; 4%float; 40%float; 6%float; 60%float])
       int64
       (NDArray [2; 3; 2]
          [2%float; 20%float; 4%float; 40%float; 6%float; 60%float;
           1%float; 2%float; 3%float; 4%float; 5%float; 6%float])
       1 None linear_interp nearest_edge_extrap = Ok res) \/
  interpolate float64 numpy_issubdtype_int numpy_astype
    (NDArray [2] [30%float; 50%float])
    (NDArray [3; 2] [2%float; 20%float; 4%float; 40%float; 6%float; 60%float])
    int64
    (NDArray [2; 3; 2]
       [2%float; 20%float; 4%float; 40%float; 6%float; 60%float;
        1%float; 2%float; 3%float; 4%float; 5%float; 6%float])
    1 None linear_interp nearest_edge_extrap = Err InvalidTarget \/
  (nearest_edge_extrap = linear_extrap /\
   (interpolate float64 numpy_issubdtype_int numpy_astype
      (NDArray [2] [30%float; 50%float])
      (NDArray [3; 2] [2%float; 20%float; 4%float; 40%float; 6%float; 60%float])
      int64
      (NDArray [2; 3; 2]
         [2%float; 20%float; 4%float; 40%float; 6%float; 60%float;
          1%float; 2%float; 3%float; 4%float; 5%float; 6%float])
      1 None linear_interp nearest_edge_extrap = Err InsufficientData \/
    interpolate float64 numpy_issubdtype_int numpy_astype
      (NDArray [2] [30%float; 50%float])
      (NDArray [3; 2] [2%float; 20%float; 4%float; 40%float; 6%float; 60%float])
      int64
      (NDArray [2; 3; 2]
         [2%float; 20%float; 4%float; 40%float; 6%float; 60%float;
          1%float; 2%float; 3%float; 4%float; 5%float; 6%float])
      1 None linear_interp nearest_edge_extrap = Err ZeroDivision)).
Proof.
  apply (interpolate_outcome float64 numpy_issubdtype_int numpy_astype
           (NDArray [2] [30%float; 50%float])
           (NDArray [3; 2] [2%float; 20%float; 4%float; 40%float; 6%float; 60%float])
           int64
           (NDArray [2; 3; 2]
              [2%float; 20%float; 4%float; 40%float; 6%float; 60%float;
               1%float; 2%float; 3%float; 4%float; 5%float; 6%float])
           1 None linear_interp nearest_edge_extrap
           (Interpolator linear_interp nearest_edge_extrap float64 true
              (NDArray [2] [30%float; 50%float]) [2; 3; 2] 1
              (NDArray [1; 3; 2] [2%float; 20%float; 4%float; 40%float; 6%float; 60%float])
              (NDArray [2; 1; 3; 2]
                 [2%float; 20%float; 4%float; 40%float; 6%float; 60%float;
                  1%float; 2%float; 3%float; 4%float; 5%float; 6%float])
              [2; 1; 2; 2] [2; 2; 2])).
  - split; [repeat constructor; lia|reflexivity].
  - split; [repeat constructor; lia|reflexivity].
  - split; [repeat constructor; lia|reflexivity].
  - reflexivity.
  - vm_compute. reflexivity.
  - vm_compute. reflexivity.
  - left. reflexivity.
  - right. left. reflexivity.
  - repeat constructor.
  - repeat constructor.
  - reflexivity.
Defined.

(** ** [interpolate_z_target_nd] on a target that repeats the same levels *)

Section Broadcast.

Context {dtype : Type}.
Variable f8 : dtype.
Variable issubdtype_int : dtype -> bool.
Variable astype : dtype -> float -> float.

(** The target coordinate enters [__init__] by its extent along the axis
    only: two interpolators built from the same source, with targets of the
    same extent, differ in their attribute [z_target] only. *)
Lemma init_same_source (z_a z_b z_src : ndarray float) (fz_dtype : dtype)
    (fz_src : ndarray float) (ax : Z) (up : option bool)
    (ik : interp_kernel) (ek : extrap_kernel) (self_a self_b : _Interpolator) :
  (if ndim z_b =? 1 then py_index (shape z_b) 0 else py_index (shape z_b) ax)
  = (if ndim z_a =? 1 then py_index (shape z_a) 0 else py_index (shape z_a) ax) ->
  __init__ f8 issubdtype_int z_a z_src fz_dtype fz_src ax up ik ek = Ok self_a ->
  __init__ f8 issubdtype_int z_b z_src fz_dtype fz_src ax up ik ek = Ok self_b ->
  self_b
  = Interpolator (interpolation self_a) (extrapolation self_a) (_target_dtype self_a)
      (rising self_a) z_b (orig_shape self_a) (axis self_a) (_zp_reshaped self_a)
      (_fp_reshaped self_a) (_result_working_shape self_a) (result_shape self_a).
Proof.
  intros Hsize. unfold __init__. rewrite Hsize.
  destruct (if ndim z_a =? 1 then _ else _) as [z_target_size|];
    cbn [mbind result_bind]; [|discriminate].
  destruct (resolve_axis _ _ _) as [[fp_axis zp_axis]|];
    cbn [mbind result_bind]; [|discriminate].
  destruct (negb _); [discriminate|].
  destruct (py_index (1 :: cumprod (shape z_src)) zp_axis) as [lh|];
    cbn [mbind result_bind]; [|discriminate].
  destruct (py_index (shape z_src) zp_axis) as [n|]; cbn [mbind result_bind];
    [|discriminate].
  destruct (reshape z_src _) as [zp_reshaped|]; cbn [mbind result_bind]; [|discriminate].
  destruct (reshape fz_src _) as [fp_reshaped|]; cbn [mbind result_bind]; [|discriminate].
  destruct (py_assign (shape fp_reshaped) 2 _) as [rws|]; cbn [mbind result_bind];
    [|discriminate].
  destruct (py_assign (shape fz_src) fp_axis _) as [rs|]; cbn [mbind result_bind];
    [|discriminate].
  match goal with
  | |- (?X ≫= _) = _ -> _ => destruct X as [up'|]; cbn [mbind result_bind];
                              [|discriminate]
  end.
  intros [= <-] [= <-]. reflexivity.
Qed.

Section SameColumns.

Variables self_a self_b : @_Interpolator dtype.
Variables targets_a targets_b : list float.
Variables m ni n_src n_target nj : Z.
Hypothesis same_source : _zp_reshaped self_b = _zp_reshaped self_a.
Hypothesis same_data : _fp_reshaped self_b = _fp_reshaped self_a.
Hypothesis same_rising : rising self_b = rising self_a.
Hypothesis same_interpolation : interpolation self_b = interpolation self_a.
Hypothesis same_extrapolation : extrapolation self_b = extrapolation self_a.
Hypothesis same_levels :
  forall i j, 0 <= i < ni -> 0 <= j < nj ->
    column3 targets_b n_target nj i j = Ok targets_a.

Lemma march_i_nd_broadcast (j : Z) (ixs : list Z) :
  forall cells : list cell,
    0 <= j < nj ->
    Forall (fun i => 0 <= i < ni) ixs ->
    march_i_nd self_b targets_b m ni n_src n_target nj j ixs cells
    = march_i self_a targets_a m ni n_src n_target nj j ixs cells.
Proof.
  induction ixs as [|i ixs IH]; intros cells Hj Hixs; cbn [march_i_nd march_i];
    [reflexivity|].
  apply Forall_cons in Hixs as [Hi Hixs].
  unfold march_column_nd. rewrite (same_levels i j Hi Hj). cbn [mbind result_bind].
  unfold march_column.
  rewrite same_source, same_data, same_rising, same_interpolation, same_extrapolation.
  fold (march_column self_a targets_a m ni n_src n_target nj i j cells).
  destruct (march_column self_a targets_a m ni n_src n_target nj i j cells) as [cells1|];
    cbn [mbind result_bind]; [|reflexivity].
  now apply IH.
Qed.

Lemma march_j_nd_broadcast (jxs : list Z) :
  forall cells : list cell,
    Forall (fun j => 0 <= j < nj) jxs ->
    march_j_nd self_b targets_b m ni n_src n_target nj jxs cells
    = march_j self_a targets_a m ni n_src n_target nj jxs cells.
Proof.
  induction jxs as [|j jxs IH]; intros cells Hjxs; cbn [march_j_nd march_j];
    [reflexivity|].
  apply Forall_cons in Hjxs as [Hj Hjxs].
  rewrite march_i_nd_broadcast; [|exact Hj|].
  - destruct (march_i self_a _ _ _ _ _ _ _ _ _) as [cells1|]; cbn [mbind result_bind];
      [|reflexivity].
    now apply IH.
  - apply Forall_forall. intros i Hi. now apply range_lookup.
Qed.

End SameColumns.

(** X21: [interpolate_z_target_nd] on a target that repeats the levels of
    a one-dimensional target in every column does what [interpolate] does on
    the one-dimensional target.  The two interpolators are built from the
    same source, data, axis, direction and kernels; the target of the second
    has the extent of the first along the axis, [ni * nt * nj] values in all
    ([ni] by [n] by [nj] being the working shape of the source coordinate),
    and each of its columns [(i, :, j)] holds the levels of the first.  Then
    [interpolate_z_target_nd] on the second returns the array that
    [interpolate] returns on the first, or raises the same error. *)
Theorem interpolate_z_target_nd_broadcast (z_one z_all z_src : ndarray float)
    (fz_dtype : dtype) (fz_src : ndarray float) (ax : Z) (up : option bool)
    (ik : interp_kernel) (ek : extrap_kernel) (self_one self_all : _Interpolator)
    (zp : nat) (ni n nt nj : Z) :
  array_wf z_one ->
  Forall (fun d => 0 <= d) (shape z_src) ->
  Forall (fun d => 0 <= d) (shape fz_src) ->
  ndim z_one = 1 ->
  size z_one = nt ->
  (if ndim z_all =? 1 then py_index (shape z_all) 0 else py_index (shape z_all) ax)
  = Ok nt ->
  __init__ f8 issubdtype_int z_one z_src fz_dtype fz_src ax up ik ek = Ok self_one ->
  __init__ f8 issubdtype_int z_all z_src fz_dtype fz_src ax up ik ek = Ok self_all ->
  zp = Z.to_nat ((ax + ndim fz_src) mod ndim fz_src - (ndim fz_src - ndim z_src)) ->
  shape z_src !! zp = Some n ->
  ni = product (take zp (shape z_src)) ->
  nj = product (drop (S zp) (shape z_src)) ->
  size z_all = ni * nt * nj ->
  (forall i j, 0 <= i < ni -> 0 <= j < nj ->
     column3 (flat z_all) nt nj i j = Ok (flat z_one)) ->
  interpolate_z_target_nd astype self_all = _Interpolator_interpolate astype self_one.
Proof.
  intros [Hts Htlen] Hzs Hfs Hnd Hnt Hall Hone Hinit Hzp Hn Hni Hnj Hsize Hlevels.
  assert (shape z_one = [nt]) as Hshape.
  { unfold ndim in Hnd. unfold size in Hnt.
    destruct (shape z_one) as [|c [|]]; cbn in Hnd; try lia.
    unfold product in Hnt. cbn in Hnt. f_equal. lia. }
  assert ((if ndim z_all =? 1 then py_index (shape z_all) 0
           else py_index (shape z_all) ax)
          = (if ndim z_one =? 1 then py_index (shape z_one) 0
             else py_index (shape z_one) ax)) as Hsame.
  { rewrite Hall, Hnd, Hshape. reflexivity. }
  pose proof (init_same_source _ _ _ _ _ _ _ _ _ _ _ Hsame Hone Hinit) as ->.
  destruct (init_layout f8 issubdtype_int _ _ _ _ _ _ _ _ _ Hzs Hfs Hone)
    as (n' & _ & Hn' & Hzshape & Hfshape).
  rewrite <- Hzp in Hn', Hzshape. rewrite Hn in Hn'. injection Hn' as <-.
  rewrite <- Hni, <- Hnj in Hzshape.
  apply init_Ok in Hone
    as (nt' & fp & lh & n' & nj' & m & Hnt' & _ & _ & Hlh & Hn0 & Hnj0 & _ & _ & _ &
        Hzr & Hfr & Hws & _ & Htgt & _); [|assumption|assumption].
  assert (nt' = nt) as ->.
  { rewrite Hnd, Hshape in Hnt'. change (1 =? 1) with true in Hnt'. cbv iota in Hnt'.
    change (py_index [nt] 0) with (Ok nt) in Hnt'. congruence. }
  rewrite Hzr in Hzshape. cbn [shape] in Hzshape. injection Hzshape as -> -> ->.
  assert (0 <= nt) as Hnt0.
  { rewrite Hshape in Hts. now apply Forall_inv in Hts. }
  unfold interpolate_z_target_nd, _Interpolator_interpolate.
  cbn [_result_working_shape _zp_reshaped _fp_reshaped z_target result_shape
       _target_dtype].
  rewrite Hws, Hzr, Hfr, Htgt. cbn [shape drop].
  destruct (as_unsigned_int ni) as [ni'|] eqn:Eni; cbn [mbind result_bind];
    [|reflexivity].
  destruct (as_unsigned_int nj) as [nj'|] eqn:Enj; cbn [mbind result_bind];
    [|reflexivity].
  assert (ni' = ni /\ nj' = nj) as [-> ->].
  { unfold as_unsigned_int in Eni, Enj.
    destruct ((0 <=? ni) && (ni <? 2 ^ 32)); [|discriminate].
    destruct ((0 <=? nj) && (nj <? 2 ^ 32)); [|discriminate].
    split; congruence. }
  rewrite Hnd. cbn [Z.eqb Pos.eqb negb].
  rewrite reshape_plain by (repeat constructor; lia).
  assert (product [ni; nt; nj] = size z_all) as ->
    by (rewrite Hsize; unfold product; cbn [foldr]; ring).
  rewrite Z.eqb_refl. cbn [mbind result_bind flat].
  rewrite (march_j_nd_broadcast self_one _ (flat z_one) (flat z_all) m ni n nt nj);
    try reflexivity; try assumption;
    try (cbn [_zp_reshaped _fp_reshaped]; congruence).
  apply Forall_forall. intros j Hj. now apply range_lookup.
Qed.

End Broadcast.

Lemma interpolate_z_target_nd_broadcast_witness :
  interpolate_z_target_nd numpy_astype
    (Interpolator linear_interp nearest_edge_extrap float64 true
       (NDArray [2; 2] [30%float; 30%float; 50%float; 50%float]) [2; 3; 2] (-2)
       (NDArray [1; 3; 2] [2%float; 20%float; 4%float; 40%float; 6%float; 60%float])
       (NDArray [2; 1; 3; 2]
          [2%float; 20%float; 4%float; 40%float; 6%float; 60%float;
           1%float; 2%float; 3%float; 4%float; 5%float; 6%float])
       [2; 1; 2; 2] [2; 2; 2])
  = _Interpolator_interpolate numpy_astype
      (Interpolator linear_interp nearest_edge_extrap float64 true
         (NDArray [2] [30%float; 50%float]) [2; 3; 2] (-2)
         (NDArray [1; 3; 2] [2%float; 20%float; 4%float; 40%float; 6%float; 60%float])
         (NDArray [2; 1; 3; 2]
            [2%float; 20%float; 4%float; 40%float; 6%float; 60%float;
             1%float; 2%float; 3%float; 4%float; 5%float; 6%float])
         [2; 1; 2; 2] [2; 2; 2]).
Proof.
  apply (interpolate_z_target_nd_broadcast float64 numpy_issubdtype_int numpy_astype
           (NDArray [2] [30%float; 50%float])
           (NDArray [2; 2] [30%float; 30%float; 50%float; 50%float])
           (NDArray [3; 2] [2%float; 20%float; 4%float; 40%float; 6%float; 60%float])
           int64
           (NDArray [2; 3; 2]
              [2%float; 20%float; 4%float; 40%float; 6%float; 60%float;
               1%float; 2%float; 3%float; 4%float; 5%float; 6%float])
           (-2) None linear_interp nearest_edge_extrap _ _ 0%nat 1 3 2 2).
  - split; [repeat constructor; lia|reflexivity].
  - repeat constructor; lia.
  - repeat constructor; lia.
  - reflexivity.
  - reflexivity.
  - reflexivity.
  - reflexivity.
  - reflexivity.
  - reflexivity.
  - reflexivity.
  - reflexivity.
  - reflexivity.
  - reflexivity.
  - intros i j Hi Hj. assert (i = 0) as -> by lia.
    assert (j = 0 \/ j = 1) as [-> | ->] by lia; reflexivity.
Defined.

(** ** When linear extrapolation divides by zero *)

(** The difference of two doubles is zero exactly when they are equal and
    not infinite. *)
Lemma sub_eqb_zero (x y : float) :
  (x - y =? 0)%float
  = (x =? y)%float && negb (y =? INFINITY)%float && negb (y =? - INFINITY)%float.
Proof.
  rewrite !FloatAxioms.eqb_spec, sub_spec. unfold SF64sub.
  change (Prim2SF 0) with (S754_zero false).
  change (Prim2SF INFINITY) with (S754_infinity false).
  change (Prim2SF (- INFINITY)) with (S754_infinity true).
  pose proof (Prim2SF_valid x) as Vx. pose proof (Prim2SF_valid y) as Vy.
  destruct (Prim2SF x) as [sx|sx| |sx mx ex] eqn:Ex,
           (Prim2SF y) as [sy|sy| |sy my ey] eqn:Ey;
    try reflexivity;
    try (destruct sx; reflexivity);
    try (destruct sy; reflexivity);
    try (destruct sx, sy; reflexivity).
  unfold SFeqb.
  rewrite SFcompare_zero_flip, SFsub_finite_sign by (reflexivity || assumption).
  rewrite (SFcompare_antisym (S754_finite sx mx ex) (S754_finite sy my ey)).
  destruct (SFcompare (S754_finite sy my ey) (S754_finite sx mx ex)) as [[]|];
    destruct sy; reflexivity.
Qed.

(** X22: when [linear_extrap] divides by zero.  On a source of at least
    two points, with data as wide as the source and a column of the buffer to
    write, [linear_extrap] raises the division by zero exactly when the two
    source values it extrapolates from (the first two for a direction below
    zero, the last two otherwise) are equal and not infinite; in every other
    case it writes the column, also when the two values are the same
    infinity, whose difference is NaN and not zero. *)
Theorem linear_extrap_zero_division (direction : Z) (z_src : list float)
    (fz_src : grid float) (level : float) (g : grid cell) (t : Z) (e0 e1 : float) :
  2 <= Z.of_nat (length z_src) < 2 ^ 32 ->
  grid_wf fz_src ->
  shape1 fz_src = Z.of_nat (length z_src) ->
  shape0 fz_src < 2 ^ 32 ->
  holds_column g t (shape0 fz_src) ->
  zth z_src (if direction <? 0 then 0 else Z.of_nat (length z_src) - 2) = Some e0 ->
  zth z_src (if direction <? 0 then 1 else Z.of_nat (length z_src) - 1) = Some e1 ->
  if (e1 =? e0)%float && negb (e0 =? INFINITY)%float && negb (e0 =? - INFINITY)%float
  then linear_extrap direction z_src fz_src level (Column g t) = Err ZeroDivision
  else exists c, linear_extrap direction z_src fz_src level (Column g t) = Ok c.
Proof.
  intros Hn Hwf Hw Hrows Hg H0 H1. unfold linear_extrap. rewrite Hw.
  rewrite (u32_small (Z.of_nat (length z_src))) by lia.
  destruct (Z.ltb_spec (Z.of_nat (length z_src)) 2) as [|_]; [lia|].
  rewrite (u32_small (Z.of_nat (length z_src) - 2)) by lia.
  rewrite (u32_small (Z.of_nat (length z_src) - 1)) by lia.
  rewrite <- sub_eqb_zero.
  destruct (direction <? 0); rewrite H0, H1; cbn [expect mbind result_bind];
    unfold checked_div; destruct (e1 - e0 =? 0)%float; cbn [mbind result_bind];
    try reflexivity;
    eapply blend_column_total; eauto; lia.
Qed.

Lemma linear_extrap_zero_division_witness :
  linear_extrap 1 [2%float; 4%float; 4%float]
    (Grid [[20%float; 40%float; 60%float]] 3) 7%float (Column (empty_grid 1 1) 0)
  = Err ZeroDivision.
Proof.
  change (if (4 =? 4)%float && negb (4 =? INFINITY)%float && negb (4 =? - INFINITY)%float
          then linear_extrap 1 [2%float; 4%float; 4%float]
                 (Grid [[20%float; 40%float; 60%float]] 3) 7%float
                 (Column (empty_grid 1 1) 0)
               = Err ZeroDivision
          else exists c,
              linear_extrap 1 [2%float; 4%float; 4%float]
                (Grid [[20%float; 40%float; 60%float]] 3) 7%float
                (Column (empty_grid 1 1) 0)
              = Ok c).
  apply (linear_extrap_zero_division 1 [2%float; 4%float; 4%float]
           (Grid [[20%float; 40%float; 60%float]] 3) 7%float (empty_grid 1 1) 0
           4%float 4%float).
  - vm_compute. split; [discriminate|reflexivity].
  - repeat constructor.
  - reflexivity.
  - reflexivity.
  - split; [repeat constructor|split].
    + vm_compute. split; [discriminate|reflexivity].
    + vm_compute. discriminate.
  - reflexivity.
  - reflexivity.
Defined.
